(** * mexc-sdk-go: the websocket session engine

    A shallow embedding of the session engine of the SDK: the settlement
    primitive of [internal/wsutil] (Promise), the transport client of [ws],
    the atomic counter of [internal/sync], the spot market session
    ([spot/wsmarket]) and the futures user session ([futures/wsuser]).

    Go code is embedded in a small monad that threads the receiver's state,
    collects the externally visible effects (lock operations, frames written,
    log lines, router dispatches) as a trace, and distinguishes a normal
    return from a panic and from a goroutine that blocks forever. *)

From stdpp Require Import gmap strings list pretty.
From Stdlib Require Import ZArith Lia Ascii.

Set Default Proof Using "Type".
#[global] Set Warnings "-register-all".

(** ** Go values shared by all packages *)

(** [error] values.  [errors.New] and [fmt.Errorf] are kept as syntax: the
    formatted text is never inspected by the code under study. *)
Inductive fmtArg :=
| ArgInt (z : Z)
| ArgStr (s : string)
| ArgErr (e : error)
with error :=
| errorsNew (s : string)
| fmtErrorf (format : string) (args : list fmtArg).

(** A Go string that is built at run time. *)
Inductive gotext :=
| Lit (s : string)
| Sprintf (format : string) (args : list fmtArg)
| ErrorOf (e : error).

(** A [context.Context] as the [select] of [Await] sees it: still live, or
    done with [ctx.Err()].  Deadlines only decide when a context becomes
    done, so [ensureDeadline] does not change this view. *)
Inductive context :=
| ctxLive
| ctxDone (err : error).

Definition ensureDeadline (ctx : context) : context := ctx.

Definition DeadlineExceeded : error := errorsNew "context deadline exceeded".
Definition Canceled : error := errorsNew "context canceled".

(** The goroutines of one session and the mutexes they take. *)
Inductive goroutine := Caller | Pinger | ReadLoop | Reader.

Inductive mutex := activeSubsMu | promisesMu | routerMu | clientMu.

(** ** Wire data *)

(** The value handed to [json.Marshal].  The encoder is external: a marshalled
    request is kept as the value it encodes, and [JUnsupported] stands for a
    Go value the encoder rejects. *)
Inductive json :=
| JNum (z : Z)
| JStr (s : string)
| JHmacSHA256 (data secret : string)
| JArr (items : list json)
| JObj (fields : list (string * json))
| JUnsupported.

Fixpoint jsonSupported (j : json) : bool :=
  match j with
  | JNum _ | JStr _ | JHmacSHA256 _ _ => true
  | JArr items => forallb jsonSupported items
  | JObj fields => forallb (fun kv => jsonSupported (snd kv)) fields
  | JUnsupported => false
  end.

Definition jsonMarshal (j : json) : json + error :=
  if jsonSupported j then inl j
  else inr (errorsNew "json: unsupported type").

(** What [json.Unmarshal(data, &msg)] leaves in a pointer variable [msg]. *)
Inductive unmarshaled (A : Type) :=
| DecodeError
| DecodedNil
| Decoded (a : A).
Arguments DecodeError {A}.
Arguments DecodedNil {A}.
Arguments Decoded {A} a.

(** The effects of a run, in program order: what is visible from outside,
    the operations on the mutexes, and the stores into the pending-promise
    slot or map ([EvSetPromise]). *)
Inductive event :=
| EvLock (g : goroutine) (m : mutex)
| EvUnlock (g : goroutine) (m : mutex)
| EvAwait (g : goroutine)
| EvSetPromise (g : goroutine)
| EvConnWrite (data : json)
| EvConnClose
| EvRoute (data : string)
| EvHandleEvent (handler : nat) (data : string)
| EvOnDisconnect
| EvErrorf (format : string)
| EvOnLatency.

(** ** The embedding monad *)

Inductive outcome (A : Type) :=
| Ret (a : A)
| Panic (msg : string)
| Block.
Arguments Ret {A} a.
Arguments Panic {A} msg.
Arguments Block {A}.

Definition M (S A : Type) : Type := S -> outcome A * S * list event.

Definition ret {S A} (a : A) : M S A := fun s => (Ret a, s, []).

Definition bind {S A B} (m : M S A) (k : A -> M S B) : M S B :=
  fun s =>
    match m s with
    | (Ret a, s1, t1) =>
        match k a s1 with
        | (r, s2, t2) => (r, s2, t1 ++ t2)
        end
    | (Panic msg, s1, t1) => (Panic msg, s1, t1)
    | (Block, s1, t1) => (Block, s1, t1)
    end.

Declare Scope go_scope.
Delimit Scope go_scope with go.
Notation "x <- m ;; k" := (bind m (fun x => k))
  (at level 100, m at next level, right associativity) : go_scope.
Notation "m ;;; k" := (bind m (fun _ => k))
  (at level 100, right associativity) : go_scope.
Open Scope go_scope.

Definition get {S} : M S S := fun s => (Ret s, s, []).
Definition modify {S} (f : S -> S) : M S unit := fun s => (Ret tt, f s, []).
Definition emit {S} (e : event) : M S unit := fun s => (Ret tt, s, [e]).
Definition panic {S A} (msg : string) : M S A := fun s => (Panic msg, s, []).
Definition block {S A} : M S A := fun s => (Block, s, []).

(** The parts of a run: what it returned, the state it left, its trace. *)
Definition trace {S A} (r : outcome A * S * list event) : list event := snd r.
Definition result {S A} (r : outcome A * S * list event) : outcome A := fst (fst r).
Definition final {S A} (r : outcome A * S * list event) : S := snd (fst r).

(** [defer]: the deferred call runs when the body returns or panics; a body
    that blocks forever never reaches it. *)
Definition defer {S A} (cleanup : M S unit) (body : M S A) : M S A :=
  fun s =>
    match body s with
    | (Block, s1, t1) => (Block, s1, t1)
    | (r, s1, t1) =>
        match cleanup s1 with
        | (Ret _, s2, t2) => (r, s2, t1 ++ t2)
        | (Panic msg, s2, t2) => (Panic msg, s2, t1 ++ t2)
        | (Block, s2, t2) => (Block, s2, t1 ++ t2)
        end
    end.

(** Run a computation of a component inside the state that embeds it. *)
Definition zoom {S T A} (proj : S -> T) (upd : T -> S -> S) (m : M T A) : M S A :=
  fun s =>
    match m (proj s) with
    | (r, t', tr) => (r, upd t' s, tr)
    end.

Definition lock {S} (g : goroutine) (m : mutex) : M S unit := emit (EvLock g m).
Definition unlock {S} (g : goroutine) (m : mutex) : M S unit := emit (EvUnlock g m).

(** [sync.Once.Do].  The standard library sets the flag by a deferred store
    around the call of [f]; its documentation: "If f panics, Do considers it
    to have returned; future calls of Do return without calling f." *)
Definition onceDo {S} (done : S -> bool) (setDone : S -> S) (f : M S unit) : M S unit :=
  s <- get ;;
  if done s then ret tt
  else defer (modify setDone) f.

(** ** Buffered channels *)

Module Chan.

(** A channel of capacity [cap] holding the queued values, oldest first. *)
Definition full {A} (cap : nat) (ch : list A) : bool := (cap <=? length ch)%nat.

(** [ch <- v]: [None] when the send would block. *)
Definition send {A} (cap : nat) (ch : list A) (v : A) : option (list A) :=
  if full cap ch then None else Some (ch ++ [v]).

(** [<-ch]: [None] when the receive would block. *)
Definition recv {A} (ch : list A) : option (A * list A) :=
  match ch with
  | [] => None
  | v :: rest => Some (v, rest)
  end.

End Chan.

(** ** internal/wsutil: Promise *)

Module Wsutil.

Inductive PromiseErrSource := FromUnknown | FromServer | FromContext.

#[global] Instance PromiseErrSource_eq_dec : EqDecision PromiseErrSource.
Proof. solve_decision. Defined.

Record PromiseError := { Source : PromiseErrSource; Err : error }.

Section Promise.
Context {T : Type}.

Record promiseImp := {
  matchFn : T -> bool * option error;
  resCh : list T;
  errCh : list error;
  once : bool
}.

Definition NewPromise (f : T -> bool * option error) : promiseImp :=
  {| matchFn := f; resCh := []; errCh := []; once := false |}.

Definition Match (p : promiseImp) (msg : T) : bool * option error :=
  matchFn p msg.

Definition setOnce (p : promiseImp) : promiseImp :=
  {| matchFn := matchFn p; resCh := resCh p; errCh := errCh p; once := true |}.

Definition setResCh (ch : list T) (p : promiseImp) : promiseImp :=
  {| matchFn := matchFn p; resCh := ch; errCh := errCh p; once := once p |}.

Definition setErrCh (ch : list error) (p : promiseImp) : promiseImp :=
  {| matchFn := matchFn p; resCh := resCh p; errCh := ch; once := once p |}.

(** Both channels are made with capacity 1. *)
Definition chanCap : nat := 1.

Definition Resolve (msg : T) : M promiseImp unit :=
  onceDo once setOnce
    (p <- get ;;
     match Chan.send chanCap (resCh p) msg with
     | Some ch => modify (setResCh ch)
     | None => block
     end).

Definition Reject (err : error) : M promiseImp unit :=
  onceDo once setOnce
    (p <- get ;;
     match Chan.send chanCap (errCh p) err with
     | Some ch => modify (setErrCh ch)
     | None => block
     end).

(** The cases of the [select] in [Await] that are ready, each with what
    [Await] returns and the promise it leaves.  The Go specification: "If
    one or more of the communications can proceed, a single one that can
    proceed is chosen via a uniform pseudo-random selection.  Otherwise, if
    there is no default case, the select statement blocks." *)
Definition awaitCases (ctx : context) (p : promiseImp)
  : list ((T + PromiseError) * promiseImp) :=
  match Chan.recv (resCh p) with
  | Some (msg, rest) => [(inl msg, setResCh rest p)]
  | None => []
  end ++
  match Chan.recv (errCh p) with
  | Some (err, rest) => [(inr {| Source := FromServer; Err := err |}, setErrCh rest p)]
  | None => []
  end ++
  match ctx with
  | ctxDone err => [(inr {| Source := FromContext; Err := err |}, p)]
  | ctxLive => []
  end.

(** [Await], with [pick] the choice [select] makes among the ready cases. *)
Definition Await (ctx : context) (pick : nat) : M promiseImp (T + PromiseError) :=
  p <- get ;;
  match awaitCases ctx p !! pick with
  | Some (r, p') => modify (fun _ => p') ;;; ret r
  | None =>
      match awaitCases ctx p with
      | [] => block
      | (r, p') :: _ => modify (fun _ => p') ;;; ret r
      end
  end.

(** A settlement call and what a caller of [Await] sees of it. *)
Inductive call :=
| CallResolve (msg : T)
| CallReject (err : error).

Definition doCall (c : call) : M promiseImp unit :=
  match c with
  | CallResolve msg => Resolve msg
  | CallReject err => Reject err
  end.

Fixpoint doCalls (cs : list call) : M promiseImp unit :=
  match cs with
  | [] => ret tt
  | c :: rest => doCall c ;;; doCalls rest
  end.

Definition outcomeOf (c : call) : T + PromiseError :=
  match c with
  | CallResolve msg => inl msg
  | CallReject err => inr {| Source := FromServer; Err := err |}
  end.

(** The settlement state of §3, read off the promise. *)
Inductive settlement :=
| Pending
| Resolved (msg : T)
| Rejected (err : error).

Definition settlementOf (p : promiseImp) : option settlement :=
  match once p, resCh p, errCh p with
  | false, [], [] => Some Pending
  | true, [msg], [] => Some (Resolved msg)
  | true, [], [err] => Some (Rejected err)
  | _, _, _ => None
  end.

Definition settlementOfCall (c : call) : settlement :=
  match c with
  | CallResolve msg => Resolved msg
  | CallReject err => Rejected err
  end.

(** The promise a first settlement call leaves behind. *)
Definition afterCall (f : T -> bool * option error) (c : call) : promiseImp :=
  match c with
  | CallResolve msg => {| matchFn := f; resCh := [msg]; errCh := []; once := true |}
  | CallReject e => {| matchFn := f; resCh := []; errCh := [e]; once := true |}
  end.

End Promise.
Arguments promiseImp T : clear implicits.
Arguments call T : clear implicits.
Arguments settlement T : clear implicits.

End Wsutil.

(** ** sdkerr *)

Module Sdkerr.

Definition ErrWSConnection : error := errorsNew "websocket connection error".
Definition ErrWSWrite : error := errorsNew "websocket write failed".
Definition ErrWSRead : error := errorsNew "websocket read failed".
Definition ErrWSMessageTimeout : error := errorsNew "websocket message response timeout".
Definition ErrWSServerError : error := errorsNew "websocket server error".
Definition ErrWSClose : error := errorsNew "websocket close failed".

Record SDKError := {
  kind : option error;
  message : gotext;
  cause : option error;
  op : string;
  subsys : string
}.

Definition NewSDKError : SDKError :=
  {| kind := None; message := Lit ""; cause := None; op := ""; subsys := "" |}.

Definition WithKind (k : option error) (e : SDKError) : SDKError :=
  {| kind := k; message := message e; cause := cause e; op := op e; subsys := subsys e |}.

Definition WithMessage (m : gotext) (e : SDKError) : SDKError :=
  {| kind := kind e; message := m; cause := cause e; op := op e; subsys := subsys e |}.

Definition WithCause (c : option error) (e : SDKError) : SDKError :=
  {| kind := kind e; message := message e; cause := c; op := op e; subsys := subsys e |}.

Definition WithOp (o : string) (e : SDKError) : SDKError :=
  {| kind := kind e; message := message e; cause := cause e; op := o; subsys := subsys e |}.

Definition WithSubsys (s : string) (e : SDKError) : SDKError :=
  {| kind := kind e; message := message e; cause := cause e; op := op e; subsys := s |}.

Definition Kind (e : SDKError) : option error := kind e.
Definition Cause (e : SDKError) : option error := cause e.

End Sdkerr.

(** ** internal/sync: Counter *)

Module Counter.

Definition uint64Modulus : Z := 2 ^ 64.

Record CounterImpl := { value : Z }.

Definition NewCounter : CounterImpl := {| value := 0 |}.

Definition Get (c : CounterImpl) : Z := value c.

(** [atomic.AddUint64(&c.value, 1)]: the new value, modulo 2^64. *)
Definition Inc : M CounterImpl Z :=
  c <- get ;;
  let v := ((value c + 1) mod uint64Modulus)%Z in
  modify (fun _ => {| value := v |}) ;;;
  ret v.

(** The counter after [n] calls of [Inc]. *)
Definition IncTimes (n : N) (c : CounterImpl) : CounterImpl :=
  N.iter n (fun c => final (Inc c)) c.

End Counter.

(** ** ws: the transport client *)

Module Ws.

(** Debug logging ([debugf], [logWSMessage]) has no effect on the client and
    is left out; [Errorf] lines are events of the trace.  The write timeout
    only feeds the deadline handed to the connection. *)

(** An error of the gorilla connection, with what [classifyWSError] asks of it. *)
Record connErr := {
  closeCode : option Z;
  isNetErrClosed : bool;
  isErrClosedPipe : bool;
  isEOF : bool;
  isNetError : bool;
  errText : string
}.

Definition ErrWriteTimeout : error := errorsNew "write timeout".
Definition ErrWriteFailed : error := errorsNew "write failed".
Definition ErrWSNormalClosure : error := errorsNew "connection closed normally".
Definition ErrWSAbnormalClosure : error := errorsNew "connection closed abnormally".
Definition ErrWSNetworkIssue : error := errorsNew "network issue".
Definition ErrWSReadInterrupted : error := errorsNew "read interrupted".
Definition ErrWSPayloadCorrupted : error := errorsNew "invalid/corrupted payload".
Definition ErrWSUnexpectedEOF : error := errorsNew "unexpected EOF".
Definition ErrWSInternalError : error := errorsNew "internal client error".

Definition CloseNormalClosure : Z := 1000.
Definition CloseAbnormalClosure : Z := 1006.

(** [strings.Contains]. *)
Fixpoint Contains (s sub : string) : bool :=
  if String.prefix sub s then true
  else match s with
       | EmptyString => false
       | String _ rest => Contains rest sub
       end.

Definition IsCloseError (err : connErr) (code : Z) : bool :=
  bool_decide (closeCode err = Some code).

Definition isReadInterrupted (err : connErr) : bool :=
  isNetErrClosed err || isErrClosedPipe err ||
  Contains (errText err) "use of closed network connection" ||
  Contains (errText err) "close sent".

Definition isUnexpectedEOF (err : connErr) : bool :=
  isEOF err || Contains (errText err) "unexpected EOF".

Definition isNetError' (err : connErr) : bool := isNetError err.

Definition isPayloadCorrupted (err : connErr) : bool :=
  Contains (errText err) "invalid UTF-8" ||
  Contains (errText err) "malformed" ||
  Contains (errText err) "unexpected opcode" ||
  Contains (errText err) "read limit exceeded".

Definition wrap (sentinel : error) (err : connErr) : error :=
  fmtErrorf "%w: %v" [ArgErr sentinel; ArgStr (errText err)].

Definition classifyWSError (err : connErr) : error :=
  if IsCloseError err CloseNormalClosure then wrap ErrWSNormalClosure err
  else if IsCloseError err CloseAbnormalClosure then wrap ErrWSAbnormalClosure err
  else if isReadInterrupted err then wrap ErrWSReadInterrupted err
  else if isUnexpectedEOF err then wrap ErrWSUnexpectedEOF err
  else if isNetError' err then wrap ErrWSNetworkIssue err
  else if isPayloadCorrupted err then wrap ErrWSPayloadCorrupted err
  else wrap ErrWSInternalError err.

(** The connection behind the [Conn] interface: what its calls will answer
    and the frames the peer has sent. *)
Record Conn := {
  connClose : option connErr;
  connSetWriteDeadline : option connErr;
  connWriteMessage : option connErr;
  connIncoming : list (Z * string * option connErr)
}.

Record msgResult := { msg : string; err : option error }.

Record clientImp := {
  conn : option Conn;
  logger : bool;
  url : string;
  outCh : list msgResult;
  outChCap : nat;
  closeOnce : bool;
  closeErr : option error
}.

Definition setConn (c' : option Conn) (c : clientImp) : clientImp :=
  {| conn := c'; logger := logger c; url := url c; outCh := outCh c;
     outChCap := outChCap c; closeOnce := closeOnce c; closeErr := closeErr c |}.

Definition setOutCh (ch : list msgResult) (c : clientImp) : clientImp :=
  {| conn := conn c; logger := logger c; url := url c; outCh := ch;
     outChCap := outChCap c; closeOnce := closeOnce c; closeErr := closeErr c |}.

Definition setCloseOnce (c : clientImp) : clientImp :=
  {| conn := conn c; logger := logger c; url := url c; outCh := outCh c;
     outChCap := outChCap c; closeOnce := true; closeErr := closeErr c |}.

Definition setCloseErr (e : option error) (c : clientImp) : clientImp :=
  {| conn := conn c; logger := logger c; url := url c; outCh := outCh c;
     outChCap := outChCap c; closeOnce := closeOnce c; closeErr := e |}.

(** [make(chan msgResult, n)].  The runtime refuses a size that is negative
    or whose buffer would exceed what it can address, with the panic
    "makechan: size out of range"; [chanLimit] is the largest size it
    accepts, a constant of the platform.  A channel within that limit is
    taken to be allocated, as every allocation of the model is. *)
Definition makeChan (chanLimit n : Z) : M unit nat :=
  if bool_decide (0 ≤ n ≤ chanLimit)%Z then ret (Z.to_nat n)
  else panic "makechan: size out of range".

(** [NewClient url opts]: [bufSize] is the [WithBufferedOutCh] option, if
    given.  The option makes the channel when it is applied; without it
    [NewClient] makes one of size 1000. *)
Definition NewClient (chanLimit : Z) (u : string) (withLogger : bool) (bufSize : option Z)
  : M unit clientImp :=
  if bool_decide (u = "") then panic "url must not be empty"
  else
    cap <- match bufSize with
           | Some n => makeChan chanLimit (if bool_decide (n ≤ 0)%Z then 1000 else n)
           | None => makeChan chanLimit 1000
           end ;;
    ret {| conn := None; logger := withLogger; url := u; outCh := [];
           outChCap := cap; closeOnce := false; closeErr := None |}.

Definition errorf (format : string) : M clientImp unit :=
  c <- get ;;
  if logger c then emit (EvErrorf format) else ret tt.

(** [Connect], given what the dialer answers.  The reader goroutine it
    starts is a separate thread of the model ([readAndHandle]). *)
Definition Connect (dial : Conn + connErr) : M clientImp (option error) :=
  match dial with
  | inr e =>
      errorf "connect failed: %v" ;;;
      ret (Some (classifyWSError e))
  | inl cn =>
      modify (setConn (Some cn)) ;;;
      ret None
  end.

Definition droppedLog : string := "WS message dropped — increase buffer or read faster".

Definition sendOrDrop (buf : string) (e : option error) : M clientImp unit :=
  c <- get ;;
  match Chan.send (outChCap c) (outCh c) {| msg := buf; err := e |} with
  | Some ch => modify (setOutCh ch)
  | None => errorf droppedLog
  end.

Definition ReadMessage : M clientImp (string * option error) :=
  c <- get ;;
  match Chan.recv (outCh c) with
  | Some (res, rest) => modify (setOutCh rest) ;;; ret (msg res, err res)
  | None => block
  end.

Definition setIncoming (l : list (Z * string * option connErr)) (cn : Conn) : Conn :=
  {| connClose := connClose cn; connSetWriteDeadline := connSetWriteDeadline cn;
     connWriteMessage := connWriteMessage cn; connIncoming := l |}.

Definition readAndHandle : M clientImp bool :=
  c <- get ;;
  match conn c with
  | None => panic "runtime error: invalid memory address or nil pointer dereference"
  | Some cn =>
      match connIncoming cn with
      | [] => block
      | (_, buf, e) :: rest =>
          modify (setConn (Some (setIncoming rest cn))) ;;;
          match e with
          | Some e' =>
              errorf "recv [%s] error: %v" ;;;
              sendOrDrop buf (Some (classifyWSError e')) ;;;
              ret false
          | None =>
              sendOrDrop buf None ;;;
              ret true
          end
      end
  end.

Definition WriteMessage (g : goroutine) (data : json) : M clientImp (option error) :=
  lock g clientMu ;;;
  defer (unlock g clientMu)
    (c <- get ;;
     match conn c with
     | None => panic "runtime error: invalid memory address or nil pointer dereference"
     | Some cn =>
         match connSetWriteDeadline cn with
         | Some e =>
             errorf "set write deadline failed: %v" ;;;
             ret (Some (fmtErrorf "%w: %v" [ArgErr ErrWriteTimeout; ArgStr (errText e)]))
         | None =>
             match connWriteMessage cn with
             | Some e =>
                 errorf "write failed: %v" ;;;
                 ret (Some (fmtErrorf "%w: %v" [ArgErr ErrWriteFailed; ArgStr (errText e)]))
             | None =>
                 emit (EvConnWrite data) ;;;
                 ret None
             end
         end
     end).

Definition closeBeforeConnect : string :=
  "Close: cannot call Close before successful Connect".

Definition Close : M clientImp (option error) :=
  onceDo closeOnce setCloseOnce
    (c <- get ;;
     match conn c with
     | None => panic closeBeforeConnect
     | Some cn =>
         emit EvConnClose ;;;
         match connClose cn with
         | Some e =>
             errorf "connection close failed: %v" ;;;
             modify (setCloseErr (Some (classifyWSError e)))
         | None => ret tt
         end
     end) ;;;
  c <- get ;;
  ret (closeErr c).

End Ws.

(** ** The handler router (futures/wsuser/handler_router.go)

    [handlers] is keyed by the handler object itself; [addr] gives that
    identity. *)

Module Router.

Section Router.
Context {H : Type}.
Variable addr : H -> nat.
Variable acceptEvent : H -> string -> bool.

Record handlerRouterImp := { handlers : gmap nat H }.

Definition newHandlerRouter : handlerRouterImp := {| handlers := ∅ |}.

Definition Register (g : goroutine) (h : H) : M handlerRouterImp unit :=
  lock g routerMu ;;;
  defer (unlock g routerMu)
    (modify (fun r => {| handlers := <[addr h := h]> (handlers r) |})).

Definition Unregister (g : goroutine) (h : H) : M handlerRouterImp unit :=
  lock g routerMu ;;;
  defer (unlock g routerMu)
    (modify (fun r => {| handlers := delete (addr h) (handlers r) |})).

Fixpoint dispatch (hs : list (nat * H)) (data : string) : M handlerRouterImp unit :=
  match hs with
  | [] => ret tt
  | (a, h) :: rest =>
      (if acceptEvent h data then emit (EvHandleEvent a data) else ret tt) ;;;
      dispatch rest data
  end.

(** [Route]: the range over the map visits the handlers in no fixed
    order; the model takes the order of [map_to_list]. *)
Definition Route (g : goroutine) (data : string) : M handlerRouterImp unit :=
  lock g routerMu ;;;
  defer (unlock g routerMu)
    (emit (EvRoute data) ;;;
     r <- get ;;
     dispatch (map_to_list (handlers r)) data).

Definition Len (g : goroutine) : M handlerRouterImp Z :=
  lock g routerMu ;;;
  defer (unlock g routerMu)
    (r <- get ;;
     ret (Z.of_nat (size (handlers r)))).

End Router.
Arguments handlerRouterImp H : clear implicits.

End Router.

(** ** spot/wsmarket: the spot market session *)

Module SpotMarket.
Import Wsutil Sdkerr.

Definition subsysName : string := "spot/wsmarket".
Definition maxCountSubscribes : Z := 30.
Definition reservedPongID : Z := 0.

Definition ErrDuplicateSubscription : error := errorsNew "duplicate subscription".
Definition ErrMaxCountSubscribes : error :=
  errorsNew "maximum number of subscribers exceeded".

Record message := { ID : Z; Code : Z; Msg : string }.

(** Of the protobuf wrapper only the channel is read by the session. *)
Record PushDataV3MarketWrapper := { Channel : string }.

Definition matchFunc : Type := message -> bool * option error.

Definition subscribe : string := "SUBSCRIPTION".
Definition unsubscribe : string := "UNSUBSCRIPTION".

(** The [Subscription] interface as the record of its methods; [subAddr]
    is the identity of the object behind the interface. *)
Record Subscription := {
  subAddr : nat;
  id : string;
  params : json;
  matches : matchFunc;
  acceptEvent : PushDataV3MarketWrapper -> bool
}.

(** A stream subscription as the constructors of the package build it
    (book depth, diff depth, trades, klines all share this shape). *)
Definition streamSub (a : nat) (streamName : string) : Subscription :=
  {| subAddr := a;
     id := streamName;
     params := JStr streamName;
     matches := fun m => (bool_decide (Msg m = streamName), None);
     acceptEvent := fun m => bool_decide (Channel m = streamName) |}.

Record wsRequest := {
  Message : json + error;
  reqID : Z;
  MatchFunc : matchFunc
}.

Definition newSubscriptionRequest (i : Z) (o : string) (spec : Subscription) : wsRequest :=
  {| Message := jsonMarshal (JObj [("id", JNum i); ("method", JStr o);
                                   ("params", JArr [params spec])]);
     reqID := i;
     MatchFunc := matches spec |}.

Definition pingRequest (i : Z) : wsRequest :=
  {| Message := jsonMarshal (JObj [("method", JStr "PING")]);
     reqID := i;
     MatchFunc := fun m => (bool_decide (Code m = 0%Z) && bool_decide (Msg m = "PONG"), None) |}.

Record subscriptionWrapper := {
  inner : Subscription;
  wOnce : bool;
  wErr : option SDKError
}.

(** Modelled from the spec: the router behind the [handlerRouter] interface
    of the spot package, whose file is not among the sources.  The spec (4.2)
    gives it register, unregister, route and count over the registered specs;
    it is taken to be the implementation of futures/wsuser/handler_router.go,
    instantiated at the spot subscriptions. *)
Definition handlerRouter : Type := Router.handlerRouterImp Subscription.

Record WSMarket := {
  client : Ws.clientImp;
  onDisconnect : bool;
  onLatency : bool;
  activeSubs : gmap string nat;
  wrappers : list subscriptionWrapper;
  promisesMap : gmap Z (promiseImp message);
  counter : Counter.CounterImpl;
  router : handlerRouter;
  closeOnce : bool;
  closeErr : option SDKError
}.

Definition setClient (c : Ws.clientImp) (w : WSMarket) : WSMarket :=
  {| client := c; onDisconnect := onDisconnect w; onLatency := onLatency w;
     activeSubs := activeSubs w; wrappers := wrappers w; promisesMap := promisesMap w;
     counter := counter w; router := router w; closeOnce := closeOnce w;
     closeErr := closeErr w |}.

Definition setActiveSubs (m : gmap string nat) (w : WSMarket) : WSMarket :=
  {| client := client w; onDisconnect := onDisconnect w; onLatency := onLatency w;
     activeSubs := m; wrappers := wrappers w; promisesMap := promisesMap w;
     counter := counter w; router := router w; closeOnce := closeOnce w;
     closeErr := closeErr w |}.

Definition setWrappers (l : list subscriptionWrapper) (w : WSMarket) : WSMarket :=
  {| client := client w; onDisconnect := onDisconnect w; onLatency := onLatency w;
     activeSubs := activeSubs w; wrappers := l; promisesMap := promisesMap w;
     counter := counter w; router := router w; closeOnce := closeOnce w;
     closeErr := closeErr w |}.

Definition setPromisesMap (m : gmap Z (promiseImp message)) (w : WSMarket) : WSMarket :=
  {| client := client w; onDisconnect := onDisconnect w; onLatency := onLatency w;
     activeSubs := activeSubs w; wrappers := wrappers w; promisesMap := m;
     counter := counter w; router := router w; closeOnce := closeOnce w;
     closeErr := closeErr w |}.

Definition setCounter (c : Counter.CounterImpl) (w : WSMarket) : WSMarket :=
  {| client := client w; onDisconnect := onDisconnect w; onLatency := onLatency w;
     activeSubs := activeSubs w; wrappers := wrappers w; promisesMap := promisesMap w;
     counter := c; router := router w; closeOnce := closeOnce w;
     closeErr := closeErr w |}.

Definition setRouter (r : handlerRouter) (w : WSMarket) : WSMarket :=
  {| client := client w; onDisconnect := onDisconnect w; onLatency := onLatency w;
     activeSubs := activeSubs w; wrappers := wrappers w; promisesMap := promisesMap w;
     counter := counter w; router := r; closeOnce := closeOnce w;
     closeErr := closeErr w |}.

Definition setCloseOnce (w : WSMarket) : WSMarket :=
  {| client := client w; onDisconnect := onDisconnect w; onLatency := onLatency w;
     activeSubs := activeSubs w; wrappers := wrappers w; promisesMap := promisesMap w;
     counter := counter w; router := router w; closeOnce := true;
     closeErr := closeErr w |}.

Definition setCloseErr (e : option SDKError) (w : WSMarket) : WSMarket :=
  {| client := client w; onDisconnect := onDisconnect w; onLatency := onLatency w;
     activeSubs := activeSubs w; wrappers := wrappers w; promisesMap := promisesMap w;
     counter := counter w; router := router w; closeOnce := closeOnce w;
     closeErr := e |}.

Definition NewWSMarket (c : Ws.clientImp) : WSMarket :=
  {| client := c; onDisconnect := false; onLatency := false;
     activeSubs := ∅; wrappers := []; promisesMap := ∅;
     counter := Counter.NewCounter; router := Router.newHandlerRouter;
     closeOnce := false; closeErr := None |}.

Definition errFactory (o : string) (k : option error) (c : option error) : SDKError :=
  WithCause c (WithKind k (WithOp ("WSMarket." +:+ o) (WithSubsys subsysName NewSDKError))).

Definition withClient {A} (m : M Ws.clientImp A) : M WSMarket A := zoom client setClient m.
Definition withRouter {A} (m : M handlerRouter A) : M WSMarket A :=
  zoom router setRouter m.

(** The promise registered under [k] is the object the caller of
    [sendAndAwaitResponse] holds: the map and the caller share it. *)
Definition withPromise {A} (k : Z) (p : promiseImp message) (m : M (promiseImp message) A)
  : M WSMarket A :=
  zoom (fun _ => p) (fun p' w => setPromisesMap (<[k := p']> (promisesMap w)) w) m.

Definition Connect (dial : Ws.Conn + Ws.connErr) : M WSMarket (option SDKError) :=
  e <- withClient (Ws.Connect dial) ;;
  match e with
  | Some e' => ret (Some (errFactory "Connect" (Some ErrWSConnection) (Some e')))
  | None => ret None
  end.

Definition Close : M WSMarket (option SDKError) :=
  onceDo closeOnce setCloseOnce
    (e <- withClient Ws.Close ;;
     match e with
     | Some e' => modify (setCloseErr (Some (errFactory "Close" (Some ErrWSClose) (Some e'))))
     | None => ret tt
     end) ;;;
  w <- get ;;
  ret (closeErr w).

Definition createID : M WSMarket Z := zoom counter setCounter Counter.Inc.

Definition isJSONMessage (data : string) : bool :=
  let n := String.length data in
  bool_decide (1 < n)%nat &&
  bool_decide (String.get 0 data = Some "{"%char) &&
  bool_decide (String.get (n - 1) data = Some "}"%char).

Section Session.
(** [json.Unmarshal] into a [*message] and [proto.Unmarshal]. *)
Variable jsonUnmarshal : string -> unmarshaled message.
Variable protoUnmarshal : string -> option PushDataV3MarketWrapper.

Definition routerAccepts (h : Subscription) (data : string) : bool :=
  match protoUnmarshal data with
  | Some m => acceptEvent h m
  | None => false
  end.

Definition handleJSONMessage (data : string) : M WSMarket unit :=
  match jsonUnmarshal data with
  | DecodeError => ret tt
  | DecodedNil =>
      lock ReadLoop promisesMu ;;;
      defer (unlock ReadLoop promisesMu)
        (panic "runtime error: invalid memory address or nil pointer dereference")
  | Decoded msg =>
      lock ReadLoop promisesMu ;;;
      defer (unlock ReadLoop promisesMu)
        (w <- get ;;
         match promisesMap w !! ID msg with
         | None => ret tt
         | Some promise =>
             if fst (Match promise msg)
             then withPromise (ID msg) promise (Resolve msg)
             else withPromise (ID msg) promise
                    (Reject (fmtErrorf "code=%d, msg=%q" [ArgInt (Code msg); ArgStr (Msg msg)]))
         end)
  end.

Definition handleProtoMessage (data : string) : M WSMarket unit :=
  match protoUnmarshal data with
  | None => ret tt
  | Some _ => withRouter (Router.Route routerAccepts ReadLoop data)
  end.

Definition handleMessage (data : string) : M WSMarket unit :=
  if isJSONMessage data then handleJSONMessage data
  else handleProtoMessage data.

(** The frames the read loop handles while a caller waits in [Await]. *)
Fixpoint handleMessages (frames : list string) : M WSMarket unit :=
  match frames with
  | [] => ret tt
  | data :: rest => handleMessage data ;;; handleMessages rest
  end.

(** One turn of the loop of [readingMessage]; [false] ends the loop, and
    the deferred [Close] runs. *)
Definition readingMessageStep : M WSMarket bool :=
  r <- withClient Ws.ReadMessage ;;
  match snd r with
  | Some _ =>
      w <- get ;;
      (if onDisconnect w then emit EvOnDisconnect else ret tt) ;;;
      ret false
  | None => handleMessage (fst r) ;;; ret true
  end.

(** [sendAndAwaitResponse].  Between the write and the return of [Await]
    the read loop handles [frames]; then the [select] of [Await] looks at
    the promise and at [ctx], and [pick] is its choice. *)
Definition sendAndAwaitResponse (g : goroutine) (ctx : context) (req : wsRequest)
    (frames : list string) (pick : nat) : M WSMarket (option SDKError) :=
  let promise := NewPromise (MatchFunc req) in
  lock g promisesMu ;;;
  modify (fun w => setPromisesMap (<[reqID req := promise]> (promisesMap w)) w) ;;;
  emit (EvSetPromise g) ;;;
  unlock g promisesMu ;;;
  defer (lock g promisesMu ;;;
         modify (fun w => setPromisesMap (delete (reqID req) (promisesMap w)) w) ;;;
         emit (EvSetPromise g) ;;;
         unlock g promisesMu)
    match Message req with
    | inr e => ret (Some (errFactory "sendAndAwaitResponse" (Some ErrWSWrite) (Some e)))
    | inl msg =>
        e <- withClient (Ws.WriteMessage g msg) ;;
        match e with
        | Some e' =>
            ret (Some (errFactory "sendAndAwaitResponse" (Some ErrWSWrite) (Some e')))
        | None =>
            emit (EvAwait g) ;;;
            handleMessages frames ;;;
            w <- get ;;
            r <- withPromise (reqID req) (default promise (promisesMap w !! reqID req))
                   (Await ctx pick) ;;
            match r with
            | inl _ => ret None
            | inr perr =>
                match Source perr with
                | FromContext =>
                    ret (Some (WithMessage (ErrorOf (Err perr))
                                 (errFactory "sendAndAwaitResponse"
                                    (Some ErrWSMessageTimeout) None)))
                | FromServer =>
                    ret (Some (WithMessage (ErrorOf (Err perr))
                                 (errFactory "sendAndAwaitResponse"
                                    (Some ErrWSServerError) None)))
                | FromUnknown => panic "unreachable"
                end
            end
        end
    end.

Definition Subscribe (ctx : context) (sub : option Subscription)
    (frames : list string) (pick : nat) : M WSMarket (nat + SDKError) :=
  match sub with
  | None => panic "WSMarket.Subscribe: subscribe must not be nil"
  | Some sub =>
      let subID := id sub in
      lock Caller activeSubsMu ;;;
      defer (unlock Caller activeSubsMu)
        (w <- get ;;
         if bool_decide (is_Some (activeSubs w !! subID)) then
           ret (inr (WithMessage (Sprintf "already subscribed: %s" [ArgStr subID])
                       (errFactory "Subscribe" None (Some ErrDuplicateSubscription))))
         else
           n <- withRouter (Router.Len Caller) ;;
           if bool_decide (maxCountSubscribes ≤ n)%Z then
             ret (inr (WithMessage
                         (Sprintf "subscription limit exceeded (max allowed: %d)"
                            [ArgInt maxCountSubscribes])
                         (errFactory "Subscribe" None (Some ErrMaxCountSubscribes))))
           else
             i <- createID ;;
             let req := newSubscriptionRequest i subscribe sub in
             let ctx := ensureDeadline ctx in
             e <- sendAndAwaitResponse Caller ctx req frames pick ;;
             match e with
             | Some e' => ret (inr e')
             | None =>
                 w <- get ;;
                 let wrapper := length (wrappers w) in
                 modify (setWrappers
                           (wrappers w ++ [{| inner := sub; wOnce := false; wErr := None |}])) ;;;
                 modify (fun w => setActiveSubs (<[subID := wrapper]> (activeSubs w)) w) ;;;
                 withRouter (Router.Register subAddr Caller sub) ;;;
                 ret (inl wrapper)
             end)
  end.

Definition setWrapper (h : nat) (f : subscriptionWrapper -> subscriptionWrapper)
    (w : WSMarket) : WSMarket :=
  setWrappers (alter f h (wrappers w)) w.

(** [Unsubscribe] on the handle [h]. *)
Definition Unsubscribe (h : nat) (ctx : context) (frames : list string) (pick : nat)
  : M WSMarket (option SDKError) :=
  w <- get ;;
  match wrappers w !! h with
  | None => panic "runtime error: invalid memory address or nil pointer dereference"
  | Some s =>
      onceDo (fun w => from_option wOnce true (wrappers w !! h))
             (setWrapper h (fun s => {| inner := inner s; wOnce := true; wErr := wErr s |}))
        (let ctx := ensureDeadline ctx in
         lock Caller activeSubsMu ;;;
         defer (unlock Caller activeSubsMu)
           (i <- createID ;;
            let req := newSubscriptionRequest i unsubscribe (inner s) in
            e <- sendAndAwaitResponse Caller ctx req frames pick ;;
            modify (setWrapper h (fun s => {| inner := inner s; wOnce := wOnce s; wErr := e |})) ;;;
            modify (fun w => setActiveSubs (delete (id (inner s)) (activeSubs w)) w) ;;;
            withRouter (Router.Unregister subAddr Caller (inner s)))) ;;;
      w <- get ;;
      ret (from_option wErr None (wrappers w !! h))
  end.

(** [sendPing]; [ctx] is the deadline context it builds, as [select] sees it. *)
Definition sendPing (ctx : context) (frames : list string) (pick : nat)
  : M WSMarket (option SDKError) :=
  let req := pingRequest reservedPongID in
  e <- sendAndAwaitResponse Pinger ctx req frames pick ;;
  match e with
  | Some e' => ret (Some e')
  | None =>
      w <- get ;;
      (if onLatency w then emit EvOnLatency else ret tt) ;;;
      ret None
  end.

(** One tick of [startPinger]; [false] ends the pinger. *)
Definition pingerTick (ctx : context) (frames : list string) (pick : nat)
  : M WSMarket bool :=
  e <- sendPing ctx frames pick ;;
  match e with
  | Some _ => Close ;;; ret false
  | None => ret true
  end.

End Session.

End SpotMarket.

(** ** futures/wsuser: the futures user session *)

Module FuturesUser.
Import Wsutil Sdkerr.

Definition subsysName : string := "futures/wsuser".
Definition maxCountSubscribes : Z := 6.

Definition ErrDuplicateSubscription : error := errorsNew "duplicate subscription".
Definition ErrMaxCountSubscribes : error :=
  errorsNew "maximum number of subscribers exceeded".

Record message := { Channel : string; Data : string; Symbol : string; Ts : Z }.

Definition matchFunc : Type := message -> bool * option error.

Record Subscription := {
  subAddr : nat;
  id : string;
  acceptEvent : message -> bool
}.

(** A personal-channel subscription (asset, order, position, ...). *)
Definition channelSub (a : nat) (channel : string) : Subscription :=
  {| subAddr := a;
     id := channel;
     acceptEvent := fun m => bool_decide (Channel m = "push.personal." +:+ channel) |}.

Record wsRequest := {
  Message : json + error;
  MatchFunc : matchFunc
}.

Record subscriptionWrapper := {
  inner : Subscription;
  wOnce : bool
}.

Record WSUser := {
  client : Ws.clientImp;
  apiKey : string;
  secretKey : string;
  now : Z;
  onDisconnect : bool;
  onLatency : bool;
  activeSubs : gmap string nat;
  wrappers : list subscriptionWrapper;
  promise : option (promiseImp message);
  router : Router.handlerRouterImp Subscription;
  closeOnce : bool;
  closeErr : option SDKError
}.

Definition setClient (c : Ws.clientImp) (w : WSUser) : WSUser :=
  {| client := c; apiKey := apiKey w; secretKey := secretKey w; now := now w;
     onDisconnect := onDisconnect w; onLatency := onLatency w;
     activeSubs := activeSubs w; wrappers := wrappers w; promise := promise w;
     router := router w; closeOnce := closeOnce w; closeErr := closeErr w |}.

Definition setActiveSubs (m : gmap string nat) (w : WSUser) : WSUser :=
  {| client := client w; apiKey := apiKey w; secretKey := secretKey w; now := now w;
     onDisconnect := onDisconnect w; onLatency := onLatency w;
     activeSubs := m; wrappers := wrappers w; promise := promise w;
     router := router w; closeOnce := closeOnce w; closeErr := closeErr w |}.

Definition setWrappers (l : list subscriptionWrapper) (w : WSUser) : WSUser :=
  {| client := client w; apiKey := apiKey w; secretKey := secretKey w; now := now w;
     onDisconnect := onDisconnect w; onLatency := onLatency w;
     activeSubs := activeSubs w; wrappers := l; promise := promise w;
     router := router w; closeOnce := closeOnce w; closeErr := closeErr w |}.

Definition setPromise (p : option (promiseImp message)) (w : WSUser) : WSUser :=
  {| client := client w; apiKey := apiKey w; secretKey := secretKey w; now := now w;
     onDisconnect := onDisconnect w; onLatency := onLatency w;
     activeSubs := activeSubs w; wrappers := wrappers w; promise := p;
     router := router w; closeOnce := closeOnce w; closeErr := closeErr w |}.

Definition setRouter (r : Router.handlerRouterImp Subscription) (w : WSUser) : WSUser :=
  {| client := client w; apiKey := apiKey w; secretKey := secretKey w; now := now w;
     onDisconnect := onDisconnect w; onLatency := onLatency w;
     activeSubs := activeSubs w; wrappers := wrappers w; promise := promise w;
     router := r; closeOnce := closeOnce w; closeErr := closeErr w |}.

Definition setCloseOnce (w : WSUser) : WSUser :=
  {| client := client w; apiKey := apiKey w; secretKey := secretKey w; now := now w;
     onDisconnect := onDisconnect w; onLatency := onLatency w;
     activeSubs := activeSubs w; wrappers := wrappers w; promise := promise w;
     router := router w; closeOnce := true; closeErr := closeErr w |}.

Definition setCloseErr (e : option SDKError) (w : WSUser) : WSUser :=
  {| client := client w; apiKey := apiKey w; secretKey := secretKey w; now := now w;
     onDisconnect := onDisconnect w; onLatency := onLatency w;
     activeSubs := activeSubs w; wrappers := wrappers w; promise := promise w;
     router := router w; closeOnce := closeOnce w; closeErr := e |}.

Definition errFactory (o : string) (k : option error) (c : option error) : SDKError :=
  WithCause c (WithKind k (WithOp ("WSUser." +:+ o) (WithSubsys subsysName NewSDKError))).

Definition withClient {A} (m : M Ws.clientImp A) : M WSUser A := zoom client setClient m.
Definition withRouter {A} (m : M (Router.handlerRouterImp Subscription) A) : M WSUser A :=
  zoom router setRouter m.

(** The pending promise is the object the caller of
    [sendAndAwaitResponse] holds: the slot and the caller share it. *)
Definition withPromise {A} (p : promiseImp message) (m : M (promiseImp message) A)
  : M WSUser A :=
  zoom (fun _ => p) (fun p' w => setPromise (Some p') w) m.

Definition Close : M WSUser (option SDKError) :=
  onceDo closeOnce setCloseOnce
    (e <- withClient Ws.Close ;;
     match e with
     | Some e' => modify (setCloseErr (Some (errFactory "Close" (Some ErrWSClose) (Some e'))))
     | None => ret tt
     end) ;;;
  w <- get ;;
  ret (closeErr w).

Definition Subscribe (sub : option Subscription) : M WSUser (nat + SDKError) :=
  match sub with
  | None => panic "WSUser.Subscribe: subscribe must not be nil"
  | Some sub =>
      let subID := id sub in
      lock Caller activeSubsMu ;;;
      defer (unlock Caller activeSubsMu)
        (w <- get ;;
         if bool_decide (is_Some (activeSubs w !! subID)) then
           ret (inr (WithMessage (Sprintf "already subscribed: %s" [ArgStr subID])
                       (errFactory "Subscribe" None (Some ErrDuplicateSubscription))))
         else
           n <- withRouter (Router.Len Caller) ;;
           if bool_decide (maxCountSubscribes ≤ n)%Z then
             ret (inr (WithMessage
                         (Sprintf "subscription limit exceeded (max allowed: %d)"
                            [ArgInt maxCountSubscribes])
                         (errFactory "Subscribe" None (Some ErrMaxCountSubscribes))))
           else
             let wrapper := length (wrappers w) in
             modify (setWrappers (wrappers w ++ [{| inner := sub; wOnce := false |}])) ;;;
             modify (fun w => setActiveSubs (<[subID := wrapper]> (activeSubs w)) w) ;;;
             withRouter (Router.Register subAddr Caller sub) ;;;
             ret (inl wrapper))
  end.

Definition Unsubscribe (h : nat) : M WSUser (option SDKError) :=
  w <- get ;;
  match wrappers w !! h with
  | None => panic "runtime error: invalid memory address or nil pointer dereference"
  | Some s =>
      onceDo (fun w => from_option wOnce true (wrappers w !! h))
             (fun w => setWrappers
                         (alter (fun s => {| inner := inner s; wOnce := true |}) h (wrappers w)) w)
        (modify (fun w => setActiveSubs (delete (id (inner s)) (activeSubs w)) w) ;;;
         withRouter (Router.Unregister subAddr Caller (inner s))) ;;;
      ret None
  end.

(** [w.router.Route(msg)] with a nil [msg].  The match functions and the
    [acceptEvent] of every subscription of the package read [msg.Channel]
    first, so the first handler the range visits panics, under the Router's
    lock, which the deferred unlock releases; with no handler registered
    [Route] returns. *)
Definition routeNil (data : string) : M (Router.handlerRouterImp Subscription) unit :=
  lock ReadLoop routerMu ;;;
  defer (unlock ReadLoop routerMu)
    (emit (EvRoute data) ;;;
     r <- get ;;
     if bool_decide (Router.handlers r = ∅) then ret tt
     else panic "runtime error: invalid memory address or nil pointer dereference").

Section Session.
(** [json.Unmarshal] into a [*message], and into a [string]. *)
Variable jsonUnmarshal : string -> unmarshaled message.
Variable jsonUnmarshalString : string -> option string.

Definition loginRequest (key secret : string) (t : Z) : wsRequest :=
  {| Message :=
       let timestamp := pretty t in
       let target := key +:+ timestamp in
       jsonMarshal (JObj [("method", JStr "login");
                          ("param", JObj [("apiKey", JStr key);
                                          ("signature", JHmacSHA256 target secret);
                                          ("reqTime", JStr timestamp)])]);
     MatchFunc := fun msg =>
       let fallthrough :=
         if bool_decide (Channel msg = "rs.error")
         then (true, Some (fmtErrorf "auth failed: %s" [ArgStr (Data msg)]))
         else (false, None) in
       if bool_decide (Channel msg = "rs.login") then
         match jsonUnmarshalString (Data msg) with
         | None => (false, Some (fmtErrorf "invalid success payload: %s" [ArgStr (Data msg)]))
         | Some s => if bool_decide (s = "success") then (true, None) else fallthrough
         end
       else fallthrough |}.

Definition pingRequest : wsRequest :=
  {| Message := jsonMarshal (JObj [("method", JStr "ping")]);
     MatchFunc := fun m =>
       if bool_decide (Channel m = "pong") then (true, None)
       else if bool_decide (Channel m = "rs.error")
            then (true, Some (fmtErrorf "ping failed: %s" [ArgStr (Data m)]))
            else (false, None) |}.

Definition routerAccepts (h : Subscription) (data : string) : bool :=
  match jsonUnmarshal data with
  | Decoded m => acceptEvent h m
  | _ => false
  end.

Definition handleMessage (data : string) : M WSUser unit :=
  match jsonUnmarshal data with
  | DecodeError => ret tt
  | DecodedNil =>
      lock ReadLoop promisesMu ;;;
      defer (unlock ReadLoop promisesMu)
        (w <- get ;;
         if bool_decide (is_Some (promise w))
         then panic "runtime error: invalid memory address or nil pointer dereference"
         else withRouter (routeNil data))
  | Decoded msg =>
      lock ReadLoop promisesMu ;;;
      defer (unlock ReadLoop promisesMu)
        (w <- get ;;
         match promise w with
         | Some p =>
             match Match p msg with
             | (true, None) => withPromise p (Resolve msg)
             | (true, Some e) => withPromise p (Reject e)
             | (false, _) => withRouter (Router.Route routerAccepts ReadLoop data)
             end
         | None => withRouter (Router.Route routerAccepts ReadLoop data)
         end)
  end.

Fixpoint handleMessages (frames : list string) : M WSUser unit :=
  match frames with
  | [] => ret tt
  | data :: rest => handleMessage data ;;; handleMessages rest
  end.

(** [sendAndAwaitResponse], with the frames the read loop handles while
    the caller waits, the context as the [select] of [Await] sees it and
    the choice of that [select]. *)
Definition sendAndAwaitResponse (g : goroutine) (ctx : context) (req : wsRequest)
    (frames : list string) (pick : nat) : M WSUser (option SDKError) :=
  let p := NewPromise (MatchFunc req) in
  lock g promisesMu ;;;
  modify (setPromise (Some p)) ;;;
  emit (EvSetPromise g) ;;;
  unlock g promisesMu ;;;
  defer (lock g promisesMu ;;;
         modify (setPromise None) ;;;
         emit (EvSetPromise g) ;;;
         unlock g promisesMu)
    match Message req with
    | inr e => ret (Some (errFactory "sendAndAwaitResponse" (Some ErrWSWrite) (Some e)))
    | inl msg =>
        e <- withClient (Ws.WriteMessage g msg) ;;
        match e with
        | Some e' =>
            ret (Some (errFactory "sendAndAwaitResponse" (Some ErrWSWrite) (Some e')))
        | None =>
            emit (EvAwait g) ;;;
            handleMessages frames ;;;
            w <- get ;;
            r <- withPromise (default p (promise w)) (Await ctx pick) ;;
            match r with
            | inl _ => ret None
            | inr perr =>
                match Source perr with
                | FromContext =>
                    ret (Some (WithMessage (ErrorOf (Err perr))
                                 (errFactory "sendAndAwaitResponse"
                                    (Some ErrWSMessageTimeout) None)))
                | FromServer =>
                    ret (Some (WithMessage (ErrorOf (Err perr))
                                 (errFactory "sendAndAwaitResponse"
                                    (Some ErrWSServerError) None)))
                | FromUnknown => panic "unreachable"
                end
            end
        end
    end.

(** [login]; [ctx] is the deadline context it builds, as [select] sees it. *)
Definition login (ctx : context) (frames : list string) (pick : nat)
  : M WSUser (option SDKError) :=
  lock Caller activeSubsMu ;;;
  defer (unlock Caller activeSubsMu)
    (w <- get ;;
     let req := loginRequest (apiKey w) (secretKey w) (now w) in
     e <- sendAndAwaitResponse Caller ctx req frames pick ;;
     match e with
     | Some e' => ret (Some e')
     | None => ret None
     end).

Definition sendPing (ctx : context) (frames : list string) (pick : nat)
  : M WSUser (option SDKError) :=
  lock Pinger activeSubsMu ;;;
  defer (unlock Pinger activeSubsMu)
    (let req := pingRequest in
     e <- sendAndAwaitResponse Pinger ctx req frames pick ;;
     match e with
     | Some e' => ret (Some e')
     | None =>
         w <- get ;;
         (if onLatency w then emit EvOnLatency else ret tt) ;;;
         ret None
     end).

Definition Connect (dial : Ws.Conn + Ws.connErr) (ctx : context)
    (frames : list string) (pick : nat) : M WSUser (option SDKError) :=
  e <- withClient (Ws.Connect dial) ;;
  match e with
  | Some e' => ret (Some (errFactory "Connect" (Some ErrWSConnection) (Some e')))
  | None =>
      e <- login ctx frames pick ;;
      match e with
      | Some e' => Close ;;; ret (Some e')
      | None => ret None
      end
  end.

End Session.

End FuturesUser.

(** ** Lock discipline read off a trace *)

Definition goroutine_eqb (a b : goroutine) : bool :=
  match a, b with
  | Caller, Caller | Pinger, Pinger | ReadLoop, ReadLoop | Reader, Reader => true
  | _, _ => false
  end.

Definition mutex_eqb (a b : mutex) : bool :=
  match a, b with
  | activeSubsMu, activeSubsMu | promisesMu, promisesMu
  | routerMu, routerMu | clientMu, clientMu => true
  | _, _ => false
  end.

(** The mutexes goroutine [g] holds after one more event. *)
Definition heldStep (g : goroutine) (held : list mutex) (e : event) : list mutex :=
  match e with
  | EvLock g' m => if goroutine_eqb g' g then m :: held else held
  | EvUnlock g' m =>
      if goroutine_eqb g' g then List.filter (fun m' => negb (mutex_eqb m' m)) held else held
  | _ => held
  end.

(** The sets of mutexes [g] holds each time it enters [Await] in the trace,
    starting with [held]. *)
Fixpoint heldAtAwait (g : goroutine) (held : list mutex) (t : list event) : list (list mutex) :=
  match t with
  | [] => []
  | EvAwait g' :: rest =>
      if goroutine_eqb g' g then held :: heldAtAwait g held rest
      else heldAtAwait g held rest
  | e :: rest => heldAtAwait g (heldStep g held e) rest
  end.

Definition holding (m : mutex) (held : list mutex) : bool :=
  existsb (mutex_eqb m) held.

(** Whenever [g] enters [Await] in the trace it does not hold [m]. *)
Definition releasedAtAwait (g : goroutine) (m : mutex) (t : list event) : Prop :=
  Forall (fun held => holding m held = false) (heldAtAwait g [] t).

(** Whenever [g] enters [Await] in the trace it holds [m]. *)
Definition heldAcrossAwait (g : goroutine) (m : mutex) (t : list event) : Prop :=
  Forall (fun held => holding m held = true) (heldAtAwait g [] t).

(** ** Shapes of traces and states *)

Definition isAwait (e : event) : bool :=
  match e with
  | EvAwait _ => true
  | _ => false
  end.

Definition isConnWrite (e : event) : bool :=
  match e with
  | EvConnWrite _ => true
  | _ => false
  end.

(** No goroutine enters [Await] in the trace. *)
Definition noAwait (t : list event) : Prop := Forall (fun e => isAwait e = false) t.

(** Nothing is written to the connection in the trace. *)
Definition noConnWrite (t : list event) : Prop := Forall (fun e => isConnWrite e = false) t.

(** Two spot sessions that differ at most in their pending promises. *)
Definition sameButPromises (w w' : SpotMarket.WSMarket) : Prop :=
  w' = SpotMarket.setPromisesMap (SpotMarket.promisesMap w') w.

(** Two spot sessions that differ at most in pending promises and counter. *)
Definition sameRegistrations (w w' : SpotMarket.WSMarket) : Prop :=
  SpotMarket.client w' = SpotMarket.client w ∧
  SpotMarket.activeSubs w' = SpotMarket.activeSubs w ∧
  SpotMarket.wrappers w' = SpotMarket.wrappers w ∧
  SpotMarket.router w' = SpotMarket.router w ∧
  SpotMarket.closeOnce w' = SpotMarket.closeOnce w ∧
  SpotMarket.closeErr w' = SpotMarket.closeErr w.

Definition nilDereference : string := "runtime error: invalid memory address or nil pointer dereference".

(** The errors [sendAndAwaitResponse] of the spot session returns, and the
    events of a request that was written, up to the wait. *)
Definition spotWriteError (cause : error) : Sdkerr.SDKError :=
  SpotMarket.errFactory "sendAndAwaitResponse" (Some Sdkerr.ErrWSWrite) (Some cause).

Definition spotTimeoutError (ctxErr : error) : Sdkerr.SDKError :=
  Sdkerr.WithMessage (ErrorOf ctxErr)
    (SpotMarket.errFactory "sendAndAwaitResponse" (Some Sdkerr.ErrWSMessageTimeout) None).

Definition spotServerError (rejection : error) : Sdkerr.SDKError :=
  Sdkerr.WithMessage (ErrorOf rejection)
    (SpotMarket.errFactory "sendAndAwaitResponse" (Some Sdkerr.ErrWSServerError) None).

Definition sentAndWaiting (g : goroutine) (msg : json) : list event :=
  [EvLock g promisesMu; EvSetPromise g; EvUnlock g promisesMu;
   EvLock g clientMu; EvConnWrite msg; EvUnlock g clientMu; EvAwait g].

(** The request can be written: it marshals and the connection takes it. *)
Definition writable (w : SpotMarket.WSMarket) (req : SpotMarket.wsRequest) : Prop :=
  ∃ cn msg, Ws.conn (SpotMarket.client w) = Some cn ∧
            Ws.connSetWriteDeadline cn = None ∧
            Ws.connWriteMessage cn = None ∧
            SpotMarket.Message req = inl msg.

(** What a run of [sendAndAwaitResponse] of the spot session can be: its
    result and its trace. *)
Inductive requestRun (g : goroutine) (ctx : context)
  : outcome (option Sdkerr.SDKError) → list event → Prop :=
| RunNotWritten cause t :
    noAwait t → noConnWrite t →
    requestRun g ctx (Ret (Some (spotWriteError cause))) t
| RunNoConn t :
    noAwait t → noConnWrite t →
    requestRun g ctx (Panic nilDereference) t
| RunAcknowledged msg t :
    noAwait t →
    requestRun g ctx (Ret None) (sentAndWaiting g msg ++ t)
| RunTimedOut msg t ctxErr :
    noAwait t → ctx = ctxDone ctxErr →
    requestRun g ctx (Ret (Some (spotTimeoutError ctxErr))) (sentAndWaiting g msg ++ t)
| RunRejected msg t rejection :
    noAwait t →
    requestRun g ctx (Ret (Some (spotServerError rejection))) (sentAndWaiting g msg ++ t)
| RunReadLoopPanic msg t :
    noAwait t →
    requestRun g ctx (Panic nilDereference) (sentAndWaiting g msg ++ t)
| RunBlocked msg t :
    noAwait t →
    requestRun g ctx Block (sentAndWaiting g msg ++ t).

(** The errors [Subscribe] returns before anything is sent. *)
Definition spotDuplicateError (subID : string) : Sdkerr.SDKError :=
  Sdkerr.WithMessage (Sprintf "already subscribed: %s" [ArgStr subID])
    (SpotMarket.errFactory "Subscribe" None (Some SpotMarket.ErrDuplicateSubscription)).

Definition spotLimitError : Sdkerr.SDKError :=
  Sdkerr.WithMessage
    (Sprintf "subscription limit exceeded (max allowed: %d)" [ArgInt SpotMarket.maxCountSubscribes])
    (SpotMarket.errFactory "Subscribe" None (Some SpotMarket.ErrMaxCountSubscribes)).

Definition futuresDuplicateError (subID : string) : Sdkerr.SDKError :=
  Sdkerr.WithMessage (Sprintf "already subscribed: %s" [ArgStr subID])
    (FuturesUser.errFactory "Subscribe" None (Some FuturesUser.ErrDuplicateSubscription)).

(** ** Closing a session, by whom *)

Module Closing.
Import SpotMarket.

(** Who calls close: the session's [Close] (application, read loop or
    pinger), or the deferred [c.Close()] of the transport's reader. *)
Inductive closer := SessionClose | TransportClose.

Fixpoint closeAll (cs : list closer) : M WSMarket (list (option Sdkerr.SDKError)) :=
  match cs with
  | [] => ret []
  | SessionClose :: rest =>
      r <- Close ;;
      rs <- closeAll rest ;;
      ret (r :: rs)
  | TransportClose :: rest =>
      withClient Ws.Close ;;;
      closeAll rest
  end.

Fixpoint sessionCloses (cs : list closer) : nat :=
  match cs with
  | [] => 0
  | SessionClose :: rest => S (sessionCloses rest)
  | TransportClose :: rest => sessionCloses rest
  end.

(** How often the connection was closed in a trace. *)
Fixpoint connCloses (t : list event) : nat :=
  match t with
  | [] => 0
  | EvConnClose :: rest => S (connCloses rest)
  | _ :: rest => connCloses rest
  end.

(** What every [Close] of a session over the connection [cn] reports. *)
Definition closeResult (cn : Ws.Conn) : option Sdkerr.SDKError :=
  match Ws.connClose cn with
  | Some e => Some (errFactory "Close" (Some Sdkerr.ErrWSClose) (Some (Ws.classifyWSError e)))
  | None => None
  end.

(** The state a session is in once its transport has been closed. *)
Definition transportClosed (cn : Ws.Conn) (w : WSMarket) : Prop :=
  Ws.conn (client w) = Some cn ∧
  Ws.closeOnce (client w) = true ∧
  Ws.closeErr (client w) = option_map Ws.classifyWSError (Ws.connClose cn).

Definition sessionClosed (cn : Ws.Conn) (w : WSMarket) : Prop :=
  transportClosed cn w ∧ closeOnce w = true ∧ closeErr w = closeResult cn.

Definition sessionOpen (w : WSMarket) : Prop :=
  closeOnce w = false ∧ closeErr w = None.

End Closing.

(** ** Concrete states used in examples *)

Module Examples.

Definition fullClient : Ws.clientImp :=
  {| Ws.conn := None; Ws.logger := true; Ws.url := "wss://wbs-api.mexc.com/ws";
     Ws.outCh := [{| Ws.msg := "oldest"; Ws.err := None |}];
     Ws.outChCap := 1; Ws.closeOnce := false; Ws.closeErr := None |}.

(** The client [NewClient] returns: no connection yet. *)
Definition freshClient : Ws.clientImp :=
  {| Ws.conn := None; Ws.logger := false; Ws.url := "wss://wbs-api.mexc.com/ws";
     Ws.outCh := []; Ws.outChCap := 1000; Ws.closeOnce := false; Ws.closeErr := None |}.

Definition brokenPipe : Ws.connErr :=
  {| Ws.closeCode := None; Ws.isNetErrClosed := false; Ws.isErrClosedPipe := true;
     Ws.isEOF := false; Ws.isNetError := false; Ws.errText := "io: read/write on closed pipe" |}.

Definition goodConn : Ws.Conn :=
  {| Ws.connClose := None; Ws.connSetWriteDeadline := None;
     Ws.connWriteMessage := None; Ws.connIncoming := [] |}.

(** A connection whose [Close] fails. *)
Definition badCloseConn : Ws.Conn :=
  {| Ws.connClose := Some brokenPipe; Ws.connSetWriteDeadline := None;
     Ws.connWriteMessage := None; Ws.connIncoming := [] |}.

(** A connection on which writes fail. *)
Definition badWriteConn : Ws.Conn :=
  {| Ws.connClose := None; Ws.connSetWriteDeadline := None;
     Ws.connWriteMessage := Some brokenPipe; Ws.connIncoming := [] |}.

Definition depthSub : SpotMarket.Subscription :=
  SpotMarket.streamSub 1 "spot@public.limit.depth.v3.api.pb@BTCUSDT@5".

Definition pong : SpotMarket.message :=
  {| SpotMarket.ID := 0; SpotMarket.Code := 0; SpotMarket.Msg := "PONG" |}.

(** A decoder that knows one frame, the reply to a ping. *)
Definition pongFrame : string := "{id:0,code:0,msg:PONG}".

Definition decodePong (data : string) : unmarshaled SpotMarket.message :=
  if bool_decide (data = pongFrame) then Decoded pong else DecodeError.

Definition noProto (data : string) : option SpotMarket.PushDataV3MarketWrapper := None.

Definition neverConnected : SpotMarket.WSMarket := SpotMarket.NewWSMarket freshClient.

Definition connected (cn : Ws.Conn) : SpotMarket.WSMarket :=
  SpotMarket.NewWSMarket (Ws.setConn (Some cn) freshClient).

(** The acknowledgment of the first subscribe request for [depthSub]. *)
Definition ackFrame : string := "{id:1,code:0,msg:spot@public.limit.depth.v3.api.pb@BTCUSDT@5}".

Definition ack : SpotMarket.message :=
  {| SpotMarket.ID := 1; SpotMarket.Code := 0;
     SpotMarket.Msg := "spot@public.limit.depth.v3.api.pb@BTCUSDT@5" |}.

Definition decodeAck (data : string) : unmarshaled SpotMarket.message :=
  if bool_decide (data = ackFrame) then Decoded ack else DecodeError.

(** The server's refusal of that request. *)
Definition nackFrame : string := "{id:1,code:500,msg:Not Subscribed successfully}".

Definition nack : SpotMarket.message :=
  {| SpotMarket.ID := 1; SpotMarket.Code := 500;
     SpotMarket.Msg := "Not Subscribed successfully" |}.

Definition decodeNack (data : string) : unmarshaled SpotMarket.message :=
  if bool_decide (data = nackFrame) then Decoded nack else DecodeError.

(** A connected spot session waiting for the answer to that request. *)
Definition awaitingAck : SpotMarket.WSMarket :=
  SpotMarket.setPromisesMap
    {[ 1%Z := Wsutil.NewPromise (SpotMarket.matches depthSub) ]}
    (connected goodConn).

(** A connected spot session after one acknowledged [Subscribe]. *)
Definition subscribed : SpotMarket.WSMarket :=
  final (SpotMarket.Subscribe decodeAck noProto ctxLive (Some depthSub) [ackFrame] 0
           (connected goodConn)).

(** The acknowledgment of the unsubscribe request that follows (id 2). *)
Definition unsubAckFrame : string :=
  "{id:2,code:0,msg:spot@public.limit.depth.v3.api.pb@BTCUSDT@5}".

Definition decodeUnsubAck (data : string) : unmarshaled SpotMarket.message :=
  if bool_decide (data = unsubAckFrame)
  then Decoded {| SpotMarket.ID := 2; SpotMarket.Code := 0;
                  SpotMarket.Msg := "spot@public.limit.depth.v3.api.pb@BTCUSDT@5" |}
  else DecodeError.

(** A spot session holding the maximum of thirty subscriptions. *)
Definition tradeSub (n : nat) : SpotMarket.Subscription :=
  SpotMarket.streamSub n ("spot@public.aggre.deals.v3.api.pb@10ms@PAIR" +:+ pretty n).

Definition saturated : SpotMarket.WSMarket :=
  SpotMarket.setRouter
    {| Router.handlers := list_to_map ((fun n => (n, tradeSub n)) <$> seq 0 30) |}
    (SpotMarket.setActiveSubs
       (list_to_map ((fun n => (SpotMarket.id (tradeSub n), n)) <$> seq 0 30))
       (SpotMarket.setWrappers
          ((fun n => {| SpotMarket.inner := tradeSub n; SpotMarket.wOnce := false;
                        SpotMarket.wErr := None |}) <$> seq 0 30)
          (connected goodConn))).

Definition userClient : FuturesUser.WSUser :=
  {| FuturesUser.client := Ws.setConn (Some goodConn) freshClient;
     FuturesUser.apiKey := "key"; FuturesUser.secretKey := "secret";
     FuturesUser.now := 1700000000000;
     FuturesUser.onDisconnect := false; FuturesUser.onLatency := false;
     FuturesUser.activeSubs := ∅; FuturesUser.wrappers := [];
     FuturesUser.promise := None; FuturesUser.router := Router.newHandlerRouter;
     FuturesUser.closeOnce := false; FuturesUser.closeErr := None |}.

(** A futures user session waiting for the reply to a ping, and a push
    frame that arrives meanwhile. *)
Definition awaitingPong : FuturesUser.WSUser :=
  FuturesUser.setPromise
    (Some (Wsutil.NewPromise (FuturesUser.MatchFunc FuturesUser.pingRequest)))
    userClient.

Definition assetPush : FuturesUser.message :=
  {| FuturesUser.Channel := "push.personal.asset"; FuturesUser.Data := "{}";
     FuturesUser.Symbol := ""; FuturesUser.Ts := 1700000000001 |}.

Definition assetFrame : string := "{channel:push.personal.asset}".

Definition decodeAsset (data : string) : unmarshaled FuturesUser.message :=
  if bool_decide (data = assetFrame) then Decoded assetPush else DecodeError.

Definition assetSub : FuturesUser.Subscription := FuturesUser.channelSub 1 "asset".

(** A futures user session after one [Subscribe]. *)
Definition userSubscribed : FuturesUser.WSUser :=
  final (FuturesUser.Subscribe (Some assetSub) userClient).

End Examples.

(** ** Runs of several operations *)

(** The handlers [Route] invoked, in order, read off its trace. *)
Fixpoint handled (t : list event) : list nat :=
  match t with
  | [] => []
  | EvHandleEvent a _ :: rest => a :: handled rest
  | _ :: rest => handled rest
  end.

Module PromiseOps.
Import Wsutil.

Section Ops.
Context {T : Type}.

(** What can happen to a promise: the read loop settles it, or the caller
    looks at it in [Await].  A caller that finds nothing ready keeps waiting
    in its own goroutine and leaves the promise as it is. *)
Inductive op :=
| Settle (c : call T)
| Look (ctx : context) (pick : nat).

Definition step (p : promiseImp T) (o : op) : promiseImp T :=
  match o with
  | Settle c => final (doCall c p)
  | Look ctx pick => final (Await ctx pick p)
  end.

Definition after (f : T -> bool * option error) (ops : list op) : promiseImp T :=
  foldl step (NewPromise f) ops.

(** The number of outcomes buffered in the two channels. *)
Definition buffered (p : promiseImp T) : nat := length (resCh p) + length (errCh p).

(** The shape every promise has: while the once-guard is unspent both
    channels are empty, and at most one outcome is buffered. *)
Definition wellFormed (p : promiseImp T) : Prop :=
  (once p = false → resCh p = [] ∧ errCh p = []) ∧ buffered p ≤ 1.

End Ops.
Arguments op T : clear implicits.

End PromiseOps.

Module WsRuns.
Import Ws.

(** The reader offers the frames [fs] to the buffer, one [sendOrDrop] each. *)
Fixpoint sendAll (fs : list msgResult) : M clientImp unit :=
  match fs with
  | [] => ret tt
  | f :: rest => sendOrDrop (msg f) (err f) ;;; sendAll rest
  end.

(** The session calls [ReadMessage] [n] times. *)
Fixpoint readN (n : nat) : M clientImp (list msgResult) :=
  match n with
  | 0 => ret []
  | S n' =>
      r <- ReadMessage ;;
      rs <- readN n' ;;
      ret ({| msg := fst r; err := snd r |} :: rs)
  end.

End WsRuns.
(** ** The loops of the reader and of the session *)

Module Loops.

(** The loop of [startReader] in ws/methods.go.  [polls i] tells whether
    the context is done when turn [i] of the loop polls it; the loop is run
    for at most [fuel] turns, and a loop cut short there has not returned. *)
Fixpoint readerLoop (fuel : nat) (polls : nat -> bool) (i : nat) : M Ws.clientImp unit :=
  match fuel with
  | O => block
  | S fuel' =>
      if polls i then ret tt
      else
        ok <- Ws.readAndHandle ;;
        if ok then readerLoop fuel' polls (S i) else ret tt
  end.

Definition startReader (fuel : nat) (polls : nat -> bool) : M Ws.clientImp unit :=
  defer (Ws.Close ;;; ret tt) (readerLoop fuel polls 0).

Section Spot.
Import SpotMarket.
Variable jsonUnmarshal : string -> unmarshaled message.
Variable protoUnmarshal : string -> option PushDataV3MarketWrapper.

(** The loop of the goroutine of [readingMessage] in spot/wsmarket. *)
Fixpoint readingLoop (fuel : nat) (polls : nat -> bool) (i : nat) : M WSMarket unit :=
  match fuel with
  | O => block
  | S fuel' =>
      if polls i then ret tt
      else
        ok <- readingMessageStep jsonUnmarshal protoUnmarshal ;;
        if ok then readingLoop fuel' polls (S i) else ret tt
  end.

Definition readingMessage (fuel : nat) (polls : nat -> bool) : M WSMarket unit :=
  defer (Close ;;; ret tt) (readingLoop fuel polls 0).

End Spot.

(** A frame as the connection hands it over, and as the reader forwards it. *)
Definition forwarded (f : Z * string * option Ws.connErr) : Ws.msgResult :=
  {| Ws.msg := snd (fst f); Ws.err := option_map Ws.classifyWSError (snd f) |}.

Definition readable (f : Z * string * option Ws.connErr) : bool :=
  bool_decide (snd f = None).

(** A frame that arrived without error, as the buffer holds it. *)
Definition arrived (data : string) : Ws.msgResult := {| Ws.msg := data; Ws.err := None |}.

End Loops.
(** ** Runs of the futures user session *)

Module UserRuns.
Import FuturesUser.

(** What an application does with subscriptions, one call after another. *)
Inductive op :=
| OpSubscribe (sub : Subscription)
| OpUnsubscribe (h : nat).

Definition step (w : WSUser) (o : op) : WSUser :=
  match o with
  | OpSubscribe sub => final (Subscribe (Some sub) w)
  | OpUnsubscribe h => final (Unsubscribe h w)
  end.

Definition after (ops : list op) (w : WSUser) : WSUser := foldl step w ops.

(** The active keys are the keys of the handles not yet unsubscribed. *)
Definition consistent (w : WSUser) : Prop :=
  (∀ k h, activeSubs w !! k = Some h →
          ∃ s, wrappers w !! h = Some s ∧ wOnce s = false ∧ id (inner s) = k) ∧
  (∀ h s, wrappers w !! h = Some s → wOnce s = false →
          activeSubs w !! id (inner s) = Some h).

End UserRuns.

(** ** Replies to a request of the spot session *)

Module Replies.
Import SpotMarket.

Section Replies.
Variable jsonUnmarshal : string -> unmarshaled message.

(** The message a frame carries for the pending promises, if any: the frame
    looks like JSON and decodes to a message. *)
Definition replyOf (data : string) : option message :=
  if isJSONMessage data then
    match jsonUnmarshal data with
    | Decoded m => Some m
    | _ => None
    end
  else None.

(** The first of the frames that carries the id [i]. *)
Fixpoint replyTo (i : Z) (frames : list string) : option message :=
  match frames with
  | [] => None
  | data :: rest =>
      match replyOf data with
      | Some m => if bool_decide (ID m = i) then Some m else replyTo i rest
      | None => replyTo i rest
      end
  end.

(** No frame that looks like JSON decodes to a nil message. *)
Definition benign (frames : list string) : Prop :=
  Forall (fun data => isJSONMessage data = true -> jsonUnmarshal data <> DecodedNil) frames.

End Replies.

(** The settlement call the read loop makes on the promise of a request
    when its reply [m] arrives. *)
Definition answer (f : matchFunc) (m : message) : Wsutil.call message :=
  if fst (f m) then Wsutil.CallResolve m
  else Wsutil.CallReject (fmtErrorf "code=%d, msg=%q" [ArgInt (Code m); ArgStr (Msg m)]).

(** What the caller of the request is handed for the reply [m]. *)
Definition answered (f : matchFunc) (m : message) : option Sdkerr.SDKError :=
  if fst (f m) then None
  else Some (spotServerError
               (fmtErrorf "code=%d, msg=%q" [ArgInt (Code m); ArgStr (Msg m)])).

(** The session with the promise of the request [req] registered. *)
Definition registered (req : wsRequest) (w : WSMarket) : WSMarket :=
  setPromisesMap (<[reqID req := Wsutil.NewPromise (MatchFunc req)]> (promisesMap w)) w.

(** Every pending promise has the shape of a promise. *)
Definition sound (w : WSMarket) : Prop :=
  forall k p, promisesMap w !! k = Some p -> PromiseOps.wellFormed p.

(** What the caller of a request that was written gets, by the reply the
    read loop delivers before the [select] of [Await] looks, by the context,
    and by the choice of the [select] when both of its cases are ready. *)
Definition expected (ctx : context) (pick : nat) (f : matchFunc) (reply : option message)
  : outcome (option Sdkerr.SDKError) :=
  match reply, ctx with
  | None, ctxLive => Block
  | None, ctxDone e => Ret (Some (spotTimeoutError e))
  | Some m, ctxLive => Ret (answered f m)
  | Some m, ctxDone e =>
      Ret (if Nat.eqb pick 1 then Some (spotTimeoutError e) else answered f m)
  end.

(** The pending promises after the read loop has delivered the message [m],
    the frame [data], and the frames [frames] one after the other. *)
Definition settle (m : message) (pm : gmap Z (Wsutil.promiseImp message))
  : gmap Z (Wsutil.promiseImp message) :=
  match pm !! ID m with
  | None => pm
  | Some p => <[ID m := final (Wsutil.doCall (answer (Wsutil.matchFn p) m) p)]> pm
  end.

Definition deliver (jsonUnmarshal : string -> unmarshaled message) (data : string)
    (pm : gmap Z (Wsutil.promiseImp message)) : gmap Z (Wsutil.promiseImp message) :=
  match replyOf jsonUnmarshal data with
  | None => pm
  | Some m => settle m pm
  end.

Fixpoint deliverAll (jsonUnmarshal : string -> unmarshaled message) (frames : list string)
    (pm : gmap Z (Wsutil.promiseImp message)) : gmap Z (Wsutil.promiseImp message) :=
  match frames with
  | [] => pm
  | data :: rest => deliverAll jsonUnmarshal rest (deliver jsonUnmarshal data pm)
  end.

End Replies.

(** ** The lock of the pending promises, store by store *)

Module Narrow.

(** Where goroutine [g] stands with [promisesMu]: it does not hold it, it
    has just taken it, or it has taken it and stored. *)
Inductive lockPhase := Outside | Locked | Stored.

Record lockState := { phase : lockPhase; stored : bool }.

Definition mine (g g' : goroutine) (m : mutex) : bool :=
  goroutine_eqb g' g && mutex_eqb m promisesMu.

(** One event of the trace.  [None] when the event breaks the discipline:
    [g] takes [promisesMu], stores into the pending-promise slot or map
    once, and releases the lock, with nothing in between; it stores nowhere
    else; and when it enters [Await] it does not hold the lock and has
    stored before. *)
Definition narrowStep (g : goroutine) (s : option lockState) (e : event)
  : option lockState :=
  match s with
  | None => None
  | Some s =>
      match phase s with
      | Outside =>
          match e with
          | EvLock g' m =>
              if mine g g' m then Some {| phase := Locked; stored := stored s |} else Some s
          | EvUnlock g' m => if mine g g' m then None else Some s
          | EvSetPromise g' => if goroutine_eqb g' g then None else Some s
          | EvAwait g' =>
              if goroutine_eqb g' g then (if stored s then Some s else None) else Some s
          | _ => Some s
          end
      | Locked =>
          match e with
          | EvSetPromise g' =>
              if goroutine_eqb g' g then Some {| phase := Stored; stored := true |} else None
          | _ => None
          end
      | Stored =>
          match e with
          | EvUnlock g' m =>
              if mine g g' m then Some {| phase := Outside; stored := stored s |} else None
          | _ => None
          end
      end
  end.

Definition narrowRun (g : goroutine) (s : option lockState) (t : list event)
  : option lockState :=
  foldl (narrowStep g) s t.

(** The whole trace keeps the discipline and ends with the lock released. *)
Definition storesUnderLock (g : goroutine) (t : list event) : bool :=
  match narrowRun g (Some {| phase := Outside; stored := false |}) t with
  | Some {| phase := Outside; stored := _ |} => true
  | _ => false
  end.

(** The events of the read loop: its locks, and the routing of a frame. *)
Definition byReadLoop (e : event) : bool :=
  match e with
  | EvLock ReadLoop _ | EvUnlock ReadLoop _ | EvRoute _ | EvHandleEvent _ _ => true
  | _ => false
  end.

Definition readLoopOnly (t : list event) : Prop := Forall (fun e => byReadLoop e = true) t.

End Narrow.


(** * Properties *)

#[local] Arguments Chan.full : simpl never.

#[local] Arguments SpotMarket.sendAndAwaitResponse : simpl never.
#[local] Arguments FuturesUser.sendAndAwaitResponse : simpl never.
#[local] Arguments Router.Route : simpl never.

(** Symbolic execution of monadic code: unfold the primitives and reduce. *)
Ltac munfold :=
  unfold onceDo, lock, unlock, defer, zoom, bind, ret, get, modify, emit, panic, block in *.
Ltac mrun := repeat (progress (munfold; cbn)).

(** Reading back the key that was just written in a map. *)
Ltac read_back :=
  repeat match goal with
         | |- context [(<[?k:=?v]> ?m) !! ?k] => rewrite (lookup_insert_eq m k v)
         end.

(** Goals on the shape of a trace built from known events and sub-traces. *)
Ltac solve_shape :=
  unfold noAwait, noConnWrite in *;
  repeat first [ assumption | apply Forall_nil_2 | apply Forall_app; split
               | apply Forall_cons; split; [reflexivity|] ].

(** ** Promise settlement *)

Section PromiseFacts.
Import Wsutil.
Context {T : Type}.
Implicit Types (p : promiseImp T) (c : call T).

Lemma doCall_settled p c :
  once p = true -> doCall c p = (Ret tt, p, []).
Proof.
  intros Hp. destruct c; cbn; unfold Resolve, Reject, onceDo, bind, get; cbn;
    rewrite Hp; reflexivity.
Qed.

Lemma doCalls_settled p (cs : list (call T)) :
  once p = true -> doCalls cs p = (Ret tt, p, []).
Proof.
  intros Hp. induction cs as [|c cs IH]; [reflexivity|].
  cbn [doCalls]. unfold bind. rewrite (doCall_settled p c Hp), IH. reflexivity.
Qed.

Lemma doCall_first f c :
  doCall c (NewPromise f) = (Ret tt, afterCall f c, []).
Proof. destruct c; reflexivity. Qed.

Lemma awaitCases_afterCall f c ctx :
  awaitCases ctx (afterCall f c) =
    (outcomeOf c, {| matchFn := f; resCh := []; errCh := []; once := true |}) ::
    match ctx with
    | ctxDone e => [(inr {| Source := FromContext; Err := e |}, afterCall f c)]
    | ctxLive => []
    end.
Proof. destruct c, ctx; reflexivity. Qed.

Lemma Await_inv ctx pick p r p' t :
  Await ctx pick p = (Ret r, p', t) -> (r, p') ∈ awaitCases ctx p.
Proof.
  unfold Await, bind, get; cbn.
  destruct (awaitCases ctx p !! pick) as [[r0 p0]|] eqn:Hl.
  - cbn. intros [= <- <- <-]. eapply list_elem_of_lookup_2; eauto.
  - destruct (awaitCases ctx p) as [|[r0 p0] rest]; cbn; [discriminate|].
    intros [= <- <- <-]. left.
Qed.

Lemma wellFormed_new (f : T → bool * option error) : PromiseOps.wellFormed (NewPromise f).
Proof. split; [done | cbn; lia]. Qed.

Lemma doCall_wellFormed p c :
  PromiseOps.wellFormed p → result (doCall c p) = Ret tt ∧ PromiseOps.wellFormed (final (doCall c p)).
Proof.
  intros [Hfresh Hbuf]. destruct (once p) eqn:Ho.
  - rewrite (doCall_settled p c Ho). split; [reflexivity|].
    split; [intros ?; cbn in *; congruence | exact Hbuf].
  - destruct (Hfresh eq_refl) as [Hr He]. destruct p as [f rc ec o]. cbn in *. subst.
    destruct c; (split; [reflexivity|]);
      unfold PromiseOps.wellFormed, PromiseOps.buffered, doCall, Resolve, Reject, Chan.send, Chan.full; mrun;
      (split; [discriminate | lia]).
Qed.

End PromiseFacts.

(** C1, as the code has it.  For every promise and every non-empty sequence
    of [Resolve] and [Reject] calls on it: the promise starts pending; the
    whole sequence leaves exactly the state that its first call alone leaves,
    without output and without blocking; that state is resolved or rejected
    as the first call says; any further call on it changes nothing; and the
    next [Await] returns, whatever its context and whatever the [select]
    chooses: the outcome of the first call when the context is not done, and,
    when the context is done, that outcome or the context's error, as the
    [select] takes the one or the other of its two ready cases. *)
Theorem promise_first_settlement_wins {T : Type}
    (f : T -> bool * option error) (c : Wsutil.call T) (cs : list (Wsutil.call T)) :
  Wsutil.settlementOf (Wsutil.NewPromise f) = Some Wsutil.Pending ∧
  ∃ p : Wsutil.promiseImp T,
    Wsutil.doCalls (c :: cs) (Wsutil.NewPromise f) = (Ret tt, p, []) ∧
    Wsutil.doCalls [c] (Wsutil.NewPromise f) = (Ret tt, p, []) ∧
    Wsutil.settlementOf p = Some (Wsutil.settlementOfCall c) ∧
    (∀ c', Wsutil.doCall c' p = (Ret tt, p, [])) ∧
    (∀ pick, ∃ p', Wsutil.Await ctxLive pick p = (Ret (Wsutil.outcomeOf c), p', [])) ∧
    (∀ e pick, ∃ p',
        Wsutil.Await (ctxDone e) pick p
          = (Ret (if Nat.eqb pick 1
                  then inr {| Wsutil.Source := Wsutil.FromContext; Wsutil.Err := e |}
                  else Wsutil.outcomeOf c),
             p', [])) ∧
    (∀ ctx pick r p' t,
        Wsutil.Await ctx pick p = (Ret r, p', t) →
        r = Wsutil.outcomeOf c ∨
        ∃ e, ctx = ctxDone e ∧
             r = inr {| Wsutil.Source := Wsutil.FromContext; Wsutil.Err := e |}).
Proof.
  split; [reflexivity|].
  exists (Wsutil.afterCall f c).
  assert (Hs : Wsutil.once (Wsutil.afterCall f c) = true) by (destruct c; reflexivity).
  repeat split.
  - cbn [Wsutil.doCalls]. unfold bind.
    rewrite doCall_first, (doCalls_settled _ cs Hs). reflexivity.
  - cbn [Wsutil.doCalls]. unfold bind. rewrite doCall_first. reflexivity.
  - destruct c; reflexivity.
  - intros c'. apply doCall_settled, Hs.
  - intros pick. unfold Wsutil.Await, bind, get; cbn.
    rewrite awaitCases_afterCall.
    destruct pick as [|pick]; cbn; eauto.
  - intros e pick. unfold Wsutil.Await, bind, get; cbn.
    rewrite awaitCases_afterCall.
    destruct pick as [|[|pick]]; cbn; eauto.
  - intros ctx pick r p' t H. apply Await_inv in H.
    rewrite awaitCases_afterCall in H.
    apply elem_of_cons in H as [[= -> _]|H]; [by left|].
    destruct ctx as [|e]; [by apply elem_of_nil in H|].
    apply list_elem_of_singleton in H as [= -> _]. right; eauto.
Qed.

(** C1, counterexample.  A promise is resolved and then awaited under a
    context that is already done: both cases of the [select] are ready, and
    when it takes the context's case [Await] returns the context's error and
    not the outcome of the settlement call. *)
Lemma Await_done_context_counterexample :
  let p := final (Wsutil.doCalls [Wsutil.CallResolve Examples.pong]
                    (Wsutil.NewPromise (SpotMarket.matches Examples.depthSub))) in
  result (Wsutil.Await (ctxDone DeadlineExceeded) 1 p)
    = Ret (inr {| Wsutil.Source := Wsutil.FromContext; Wsutil.Err := DeadlineExceeded |}) ∧
  result (Wsutil.Await (ctxDone DeadlineExceeded) 1 p)
    ≠ Ret (Wsutil.outcomeOf (Wsutil.CallResolve Examples.pong)).
Proof. split; [reflexivity | discriminate]. Qed.

(** ** The frame buffer of the transport client *)

(** C7, as the code has it.  When the frame buffer of the transport client is
    full, [sendOrDrop] returns without blocking, leaves the client and every
    buffered frame (the oldest included) as they were, does not enqueue the
    arriving frame, and logs the drop when a logger is set. *)
Theorem sendOrDrop_full_drops_arriving (c : Ws.clientImp) (buf : string) (e : option error) :
  Chan.full (Ws.outChCap c) (Ws.outCh c) = true →
  Ws.sendOrDrop buf e c =
    (Ret tt, c, if Ws.logger c then [EvErrorf Ws.droppedLog] else []).
Proof.
  intros Hfull. unfold Ws.sendOrDrop, bind, get, Chan.send; cbn.
  rewrite Hfull. unfold Ws.errorf, bind, get; cbn.
  destruct (Ws.logger c); reflexivity.
Qed.

Lemma sendOrDrop_full_drops_arriving_witness :
  Ws.sendOrDrop "newest" None Examples.fullClient = (Ret tt, Examples.fullClient, [EvErrorf Ws.droppedLog]).
Proof. apply (sendOrDrop_full_drops_arriving Examples.fullClient "newest" None). reflexivity. Defined.

(** C7, counterexample.  With a buffer of capacity 1 holding one frame, the
    arriving frame is not retained and the oldest frame is not dropped. *)
Lemma sendOrDrop_keeps_oldest_counterexample :
  Ws.outCh (final (Ws.sendOrDrop "newest" None Examples.fullClient))
    = [{| Ws.msg := "oldest"; Ws.err := None |}] ∧
  Ws.outCh (final (Ws.sendOrDrop "newest" None Examples.fullClient))
    ≠ [{| Ws.msg := "newest"; Ws.err := None |}].
Proof. split; [reflexivity | discriminate]. Qed.

(** When there is room the arriving frame is queued behind the buffered ones. *)
Lemma sendOrDrop_room (c : Ws.clientImp) (buf : string) (e : option error) :
  Chan.full (Ws.outChCap c) (Ws.outCh c) = false →
  Ws.sendOrDrop buf e c =
    (Ret tt, Ws.setOutCh (Ws.outCh c ++ [{| Ws.msg := buf; Ws.err := e |}]) c, []).
Proof.
  intros Hroom. unfold Ws.sendOrDrop, bind, get, Chan.send; cbn.
  rewrite Hroom. reflexivity.
Qed.

(** ** Close *)

Section CloseFacts.
Import SpotMarket Closing.

Ltac open_session w :=
  destruct w as [[? ? ? ? ? ? ?] ? ? ? ? ? ? ? ? ?]; cbn in *.

Lemma Close_sessionClosed cn w :
  sessionClosed cn w → Close w = (Ret (closeResult cn), w, []).
Proof.
  intros [(Hc & Ho & He) [Hso Hse]]. open_session w. subst. reflexivity.
Qed.

Lemma transportClose_closed cn w :
  transportClosed cn w →
  withClient Ws.Close w = (Ret (option_map Ws.classifyWSError (Ws.connClose cn)), w, []).
Proof.
  intros (Hc & Ho & He). open_session w. subst. reflexivity.
Qed.

Lemma Close_transportClosed cn w :
  transportClosed cn w → sessionOpen w →
  ∃ w', Close w = (Ret (closeResult cn), w', []) ∧ sessionClosed cn w'.
Proof.
  intros (Hc & Ho & He) [Hso Hse]. open_session w. subst.
  unfold sessionClosed, transportClosed.
  unfold Close, closeResult, withClient, Ws.Close, onceDo, defer, zoom, bind, get; cbn.
  destruct (Ws.connClose cn) as [e|]; cbn;
    (eexists; split; [reflexivity|]); repeat split; cbn; reflexivity.
Qed.

Lemma closeAll_sessionClosed cn cs w :
  sessionClosed cn w →
  closeAll cs w = (Ret (replicate (sessionCloses cs) (closeResult cn)), w, []).
Proof.
  intros Hw. induction cs as [|[|] cs IH]; cbn [closeAll sessionCloses replicate].
  - reflexivity.
  - unfold bind. rewrite (Close_sessionClosed cn w Hw), IH. reflexivity.
  - unfold bind. destruct Hw as [Ht Hs].
    rewrite (transportClose_closed cn w Ht), IH. reflexivity.
Qed.

Lemma closeAll_transportClosed cn cs w :
  transportClosed cn w → sessionOpen w →
  ∃ w', closeAll cs w = (Ret (replicate (sessionCloses cs) (closeResult cn)), w', []) ∧
        (0 < sessionCloses cs → closeErr w' = closeResult cn).
Proof.
  intros Ht Ho. induction cs as [|[|] cs IH]; cbn [closeAll sessionCloses replicate].
  - exists w. split; [reflexivity | lia].
  - destruct (Close_transportClosed cn w Ht Ho) as (w' & HC & Hw').
    exists w'. unfold bind. rewrite HC, (closeAll_sessionClosed cn cs w' Hw').
    split; [reflexivity|]. intros _. apply Hw'.
  - destruct IH as (w' & HC & Hw'). exists w'. unfold bind.
    rewrite (transportClose_closed cn w Ht), HC. split; [reflexivity | exact Hw'].
Qed.

Lemma closeAll_spent cs w :
  Ws.closeOnce (client w) = true → closeOnce w = true →
  closeAll cs w = (Ret (replicate (sessionCloses cs) (closeErr w)), w, []).
Proof.
  intros Ho Hso.
  assert (HC : Close w = (Ret (closeErr w), w, [])) by (open_session w; by subst).
  assert (HT : withClient Ws.Close w = (Ret (Ws.closeErr (client w)), w, []))
    by (open_session w; by subst).
  induction cs as [|[|] cs IH]; cbn [closeAll sessionCloses replicate].
  - reflexivity.
  - unfold bind. rewrite HC, IH. reflexivity.
  - unfold bind. rewrite HT, IH. reflexivity.
Qed.

End CloseFacts.

(** C6, on a connected session.  Let a session whose [Connect] succeeded (its
    connection handle is set) and on which nothing has closed before, so
    that the single-fire guards of the session and of its transport client
    are unspent and no close result is recorded, receive any non-empty
    sequence of close calls, from [Close] of the session or from the
    transport's own reader.  Then the connection is closed exactly once,
    every [Close] of the session returns the same result, namely the error of
    that one close wrapped as a close error (or nil), and that result is the
    one recorded in the session.  On a session whose two guards are spent,
    be it by a [Close] that panicked before [Connect], the same calls close
    nothing, change nothing, and each [Close] of the session returns the
    result recorded in the session. *)
Theorem Close_idempotent_when_connected
    (w : SpotMarket.WSMarket) (cn : Ws.Conn) (cs : list Closing.closer) :
  Ws.conn (SpotMarket.client w) = Some cn →
  Ws.closeOnce (SpotMarket.client w) = false →
  Ws.closeErr (SpotMarket.client w) = None →
  SpotMarket.closeOnce w = false →
  SpotMarket.closeErr w = None →
  cs ≠ [] →
  result (Closing.closeAll cs w)
    = Ret (replicate (Closing.sessionCloses cs) (Closing.closeResult cn)) ∧
  Closing.connCloses (trace (Closing.closeAll cs w)) = 1 ∧
  (0 < Closing.sessionCloses cs →
   SpotMarket.closeErr (final (Closing.closeAll cs w)) = Closing.closeResult cn) ∧
  (∀ w' : SpotMarket.WSMarket,
     Ws.closeOnce (SpotMarket.client w') = true →
     SpotMarket.closeOnce w' = true →
     Closing.closeAll cs w'
       = (Ret (replicate (Closing.sessionCloses cs) (SpotMarket.closeErr w')), w', [])).
Proof.
  intros Hc Ho He Hso Hse Hcs.
  enough (Hmain :
            result (Closing.closeAll cs w)
              = Ret (replicate (Closing.sessionCloses cs) (Closing.closeResult cn)) ∧
            Closing.connCloses (trace (Closing.closeAll cs w)) = 1 ∧
            (0 < Closing.sessionCloses cs →
             SpotMarket.closeErr (final (Closing.closeAll cs w)) = Closing.closeResult cn)).
  { destruct Hmain as (H1 & H2 & H3).
    split; [exact H1|]. split; [exact H2|]. split; [exact H3|].
    intros w'. apply closeAll_spent. }
  destruct cs as [|c cs]; [done|]. clear Hcs.
  destruct w as [[cc lg u och cap co ce] od ol a wr pm ct rt so se]; cbn in *. subst.
  destruct c; cbn [Closing.closeAll Closing.sessionCloses replicate].
  - (* the session closes first *)
    set (w0 := SpotMarket.Build_WSMarket _ _ _ _ _ _ _ _ _ _).
    assert (∃ w' t, SpotMarket.Close w0 = (Ret (Closing.closeResult cn), w', t) ∧
                    Closing.connCloses t = 1 ∧ Closing.sessionClosed cn w') as (w' & t & HC & Ht & Hw').
    { unfold Closing.sessionClosed, Closing.transportClosed.
      unfold w0, SpotMarket.Close, Closing.closeResult, SpotMarket.withClient, Ws.Close,
        Ws.errorf, onceDo, defer, zoom, bind, get; cbn.
      destruct (Ws.connClose cn) as [e|]; cbn; [destruct lg; cbn|];
        (do 2 eexists; split; [reflexivity|]); repeat split; cbn; reflexivity. }
    unfold bind. rewrite HC, (closeAll_sessionClosed cn cs w' Hw'). cbn.
    rewrite app_nil_r. repeat split; [exact Ht|]. intros _. apply Hw'.
  - (* the transport's reader closes first *)
    set (w0 := SpotMarket.Build_WSMarket _ _ _ _ _ _ _ _ _ _).
    assert (∃ w' t r, SpotMarket.withClient Ws.Close w0 = (Ret r, w', t) ∧
                      Closing.connCloses t = 1 ∧ Closing.transportClosed cn w' ∧ Closing.sessionOpen w')
      as (w' & t & r & HC & Ht & Hw' & Hop).
    { unfold Closing.transportClosed, Closing.sessionOpen.
      unfold w0, SpotMarket.withClient, Ws.Close, Ws.errorf, onceDo, defer, zoom, bind, get; cbn.
      destruct (Ws.connClose cn) as [e|] eqn:Hcl; cbn; [destruct lg; cbn|];
        (do 3 eexists; split; [reflexivity|]); repeat split; cbn; try reflexivity;
        rewrite Hcl; reflexivity. }
    destruct (closeAll_transportClosed cn cs w' Hw' Hop) as (w'' & HA & Hrec).
    unfold bind. rewrite HC, HA. cbn. rewrite app_nil_r. repeat split; [exact Ht | exact Hrec].
Qed.

Lemma Close_idempotent_when_connected_witness :
  let cs := [Closing.SessionClose; Closing.TransportClose; Closing.SessionClose] in
  let reconnected :=
    final (SpotMarket.Connect (inl Examples.badCloseConn)
             (final (SpotMarket.Close Examples.neverConnected))) in
  result (Closing.closeAll cs (Examples.connected Examples.badCloseConn))
    = Ret (replicate 2 (Closing.closeResult Examples.badCloseConn)) ∧
  Closing.connCloses
    (trace (Closing.closeAll cs (Examples.connected Examples.badCloseConn))) = 1 ∧
  (0 < 2 →
   SpotMarket.closeErr (final (Closing.closeAll cs (Examples.connected Examples.badCloseConn)))
     = Closing.closeResult Examples.badCloseConn) ∧
  Ws.conn (SpotMarket.client reconnected) = Some Examples.badCloseConn ∧
  Closing.closeAll cs reconnected = (Ret [None; None], reconnected, []).
Proof.
  intros cs reconnected.
  destruct (Close_idempotent_when_connected (Examples.connected Examples.badCloseConn)
              Examples.badCloseConn cs eq_refl eq_refl eq_refl eq_refl eq_refl
              ltac:(discriminate)) as (H1 & H2 & H3 & H4).
  split; [exact H1|]. split; [exact H2|]. split; [exact H3|].
  split; [reflexivity|]. exact (H4 reconnected eq_refl eq_refl).
Defined.

(** C6, counterexample.  On a session that was never connected the first
    [Close] does not return a result (it panics) and closes no connection,
    while a second [Close] returns nil. *)
Lemma Close_never_connected_counterexample :
  result (SpotMarket.Close Examples.neverConnected)
    = Panic Ws.closeBeforeConnect ∧
  Closing.connCloses (trace (SpotMarket.Close Examples.neverConnected)) = 0 ∧
  result (SpotMarket.Close (final (SpotMarket.Close Examples.neverConnected))) = Ret None ∧
  Closing.connCloses
    (trace (SpotMarket.Close (final (SpotMarket.Close Examples.neverConnected)))) = 0.
Proof. repeat split. Qed.

(** C9, as the code has it.  On a session on which [Connect] has never
    succeeded (the connection handle is nil) and on which [Close] has not
    been called before, [Close] panics with the programmer-error message,
    both on the transport client and on the session; the single-fire guards
    are spent by that call, so a further [Close] returns the recorded error
    (nil) without panicking. *)
Theorem Close_before_Connect_panics_once (w : SpotMarket.WSMarket) :
  Ws.conn (SpotMarket.client w) = None →
  Ws.closeOnce (SpotMarket.client w) = false →
  SpotMarket.closeOnce w = false →
  let c' := Ws.setCloseOnce (SpotMarket.client w) in
  let w' := SpotMarket.setCloseOnce (SpotMarket.setClient c' w) in
  Ws.Close (SpotMarket.client w) = (Panic Ws.closeBeforeConnect, c', []) ∧
  SpotMarket.Close w = (Panic Ws.closeBeforeConnect, w', []) ∧
  Ws.Close c' = (Ret (Ws.closeErr (SpotMarket.client w)), c', []) ∧
  SpotMarket.Close w' = (Ret (SpotMarket.closeErr w), w', []).
Proof.
  intros Hc Ho Hso.
  destruct w as [[cc lg u och cap co ce] od ol a wr pm ct rt so se]; cbn in *. subst.
  repeat split.
Qed.

Lemma Close_before_Connect_panics_once_witness :
  Ws.Close Examples.freshClient
    = (Panic Ws.closeBeforeConnect, Ws.setCloseOnce Examples.freshClient, []) ∧
  SpotMarket.Close Examples.neverConnected
    = (Panic Ws.closeBeforeConnect,
       SpotMarket.setCloseOnce
         (SpotMarket.setClient (Ws.setCloseOnce Examples.freshClient) Examples.neverConnected),
       []) ∧
  Ws.Close (Ws.setCloseOnce Examples.freshClient)
    = (Ret None, Ws.setCloseOnce Examples.freshClient, []) ∧
  SpotMarket.Close
    (SpotMarket.setCloseOnce
       (SpotMarket.setClient (Ws.setCloseOnce Examples.freshClient) Examples.neverConnected))
    = (Ret None,
       SpotMarket.setCloseOnce
         (SpotMarket.setClient (Ws.setCloseOnce Examples.freshClient) Examples.neverConnected),
       []).
Proof.
  apply (Close_before_Connect_panics_once Examples.neverConnected); reflexivity.
Defined.

(** C9, counterexample.  After one [Close] on a session that was never
    connected, the connection handle is still nil, and yet the next [Close]
    returns nil instead of panicking. *)
Lemma Close_second_call_counterexample :
  Ws.conn (SpotMarket.client (final (SpotMarket.Close Examples.neverConnected))) = None ∧
  result (SpotMarket.Close (final (SpotMarket.Close Examples.neverConnected))) = Ret None.
Proof. split; reflexivity. Qed.

(** ** Correlation ids *)

Section CounterFacts.
Import Counter.

Lemma Inc_run (c : CounterImpl) :
  Inc c = (Ret ((value c + 1) mod uint64Modulus)%Z,
           {| value := ((value c + 1) mod uint64Modulus)%Z |}, []).
Proof. reflexivity. Qed.

Lemma IncTimes_succ (n : N) (c : CounterImpl) :
  IncTimes (N.succ n) c = final (Inc (IncTimes n c)).
Proof. unfold IncTimes. apply N.iter_succ. Qed.

Lemma IncTimes_value (n : N) :
  value (IncTimes n NewCounter) = (Z.of_N n mod uint64Modulus)%Z.
Proof.
  induction n as [|n IH] using N.peano_ind; [reflexivity|].
  rewrite IncTimes_succ, Inc_run. cbn [final fst snd value]. rewrite IH.
  rewrite Zplus_mod_idemp_l. f_equal. lia.
Qed.

End CounterFacts.

Section CorrelationFacts.
Import SpotMarket.
Variable jsonUnmarshal : string -> unmarshaled message.
Variable protoUnmarshal : string -> option PushDataV3MarketWrapper.

Lemma withRouter_Route_state accepts data (w : WSMarket) :
  ∃ t, withRouter (Router.Route accepts ReadLoop data) w = (Ret tt, w, t).
Proof.
  unfold withRouter, zoom, Router.Route, lock, unlock, defer, bind, emit, get.
  assert (∀ hs r, ∃ t, Router.dispatch accepts hs data r = (Ret tt, r, t)) as Hd.
  { induction hs as [|[a h] hs IH]; intros r; cbn [Router.dispatch]; [by eexists|].
    unfold bind. destruct (IH r) as [t Ht].
    destruct (accepts h data); cbn; rewrite Ht; by eexists. }
  destruct (Hd (map_to_list (Router.handlers (router w))) (router w)) as [t ->].
  destruct w; cbn. by eexists.
Qed.

(** A frame only touches the promise registered under the id it carries. *)
Lemma handleMessage_other_promise data (w : WSMarket) (i : Z) :
  (∀ msg, jsonUnmarshal data = Decoded msg → ID msg ≠ i) →
  promisesMap (final (handleMessage jsonUnmarshal protoUnmarshal data w)) !! i
    = promisesMap w !! i.
Proof.
  intros Hid. unfold handleMessage, handleProtoMessage, handleJSONMessage.
  destruct (isJSONMessage data).
  - destruct (jsonUnmarshal data) as [| |msg] eqn:Hm; [reflexivity|reflexivity|].
    specialize (Hid msg eq_refl).
    mrun. destruct (promisesMap w !! ID msg) as [p|] eqn:Hp; cbn; [|reflexivity].
    destruct (fst (Wsutil.Match p msg));
      unfold withPromise, Wsutil.Resolve, Wsutil.Reject, Chan.send; mrun;
      destruct (Wsutil.once p); mrun; try destruct (Chan.full _ _); mrun;
      by rewrite ?lookup_insert_ne.
  - destruct (protoUnmarshal data); [|reflexivity].
    destruct (withRouter_Route_state (routerAccepts protoUnmarshal) data w) as [t ->].
    reflexivity.
Qed.

End CorrelationFacts.

(** C10, as the code has it.  While fewer than 2^64 - 1 ids have been drawn
    from the session's counter, the next correlation id is one more than the
    number drawn so far: it is strictly positive and differs from the
    reserved pong id 0, and handling a frame that carries the pong id leaves
    the promise registered under that correlation id untouched. *)
Theorem createID_positive_before_wrap
    (jsonUnmarshal : string -> unmarshaled SpotMarket.message)
    (protoUnmarshal : string -> option SpotMarket.PushDataV3MarketWrapper)
    (n : N) (w : SpotMarket.WSMarket) :
  SpotMarket.counter w = Counter.IncTimes n Counter.NewCounter →
  (Z.of_N n < Counter.uint64Modulus - 1)%Z →
  let i := (Z.of_N n + 1)%Z in
  result (SpotMarket.createID w) = Ret i ∧
  SpotMarket.counter (final (SpotMarket.createID w))
    = Counter.IncTimes (N.succ n) Counter.NewCounter ∧
  (0 < i)%Z ∧
  i ≠ SpotMarket.reservedPongID ∧
  ∀ data msg w2,
    jsonUnmarshal data = Decoded msg →
    SpotMarket.ID msg = SpotMarket.reservedPongID →
    SpotMarket.promisesMap
      (final (SpotMarket.handleMessage jsonUnmarshal protoUnmarshal data w2)) !! i
    = SpotMarket.promisesMap w2 !! i.
Proof.
  intros Hc Hn i.
  assert (Hv : Counter.value (SpotMarket.counter w) = Z.of_N n).
  { rewrite Hc, IncTimes_value. apply Z.mod_small. lia. }
  assert (Hi : ((Counter.value (SpotMarket.counter w) + 1) mod Counter.uint64Modulus)%Z = i).
  { rewrite Hv. apply Z.mod_small. unfold i. lia. }
  assert (Hne : i ≠ SpotMarket.reservedPongID).
  { unfold i, SpotMarket.reservedPongID. lia. }
  repeat split.
  - unfold SpotMarket.createID, zoom. rewrite Inc_run. cbn. by rewrite Hi.
  - rewrite IncTimes_succ, <- Hc.
    unfold SpotMarket.createID, zoom. rewrite !Inc_run. destruct w; reflexivity.
  - unfold i. lia.
  - exact Hne.
  - intros data msg w2 Hm Hid. apply handleMessage_other_promise.
    intros msg' Hm'. rewrite Hm in Hm'. injection Hm' as <-. congruence.
Qed.

Lemma createID_positive_before_wrap_witness :
  result (SpotMarket.createID Examples.neverConnected) = Ret 1%Z ∧
  SpotMarket.counter (final (SpotMarket.createID Examples.neverConnected))
    = Counter.IncTimes 1 Counter.NewCounter ∧
  (0 < 1)%Z ∧
  1%Z ≠ SpotMarket.reservedPongID ∧
  ∀ data msg w2,
    Examples.decodePong data = Decoded msg →
    SpotMarket.ID msg = SpotMarket.reservedPongID →
    SpotMarket.promisesMap
      (final (SpotMarket.handleMessage Examples.decodePong Examples.noProto data w2)) !! 1%Z
    = SpotMarket.promisesMap w2 !! 1%Z.
Proof.
  apply (createID_positive_before_wrap Examples.decodePong Examples.noProto
           0%N Examples.neverConnected); [reflexivity | reflexivity].
Defined.

(** C10, counterexample.  After 2^64 - 1 ids the counter holds 2^64 - 1; the
    next correlation id is 0, the reserved pong id, and the reply to a ping
    then settles (rejects) the subscription promise registered under it. *)
Lemma createID_wraps_counterexample :
  Counter.IncTimes (2 ^ 64 - 1) Counter.NewCounter
    = {| Counter.value := 18446744073709551615 |} ∧
  result (SpotMarket.createID
            (SpotMarket.setCounter {| Counter.value := 18446744073709551615 |}
               (Examples.connected Examples.goodConn)))
    = Ret SpotMarket.reservedPongID ∧
  Wsutil.settlementOf <$>
    (SpotMarket.promisesMap
       (final (SpotMarket.handleMessage Examples.decodePong Examples.noProto Examples.pongFrame
                 (SpotMarket.setPromisesMap
                    {[ SpotMarket.reservedPongID :=
                         Wsutil.NewPromise (SpotMarket.matches Examples.depthSub) ]}
                    (Examples.connected Examples.goodConn))))
       !! SpotMarket.reservedPongID)
    = Some (Some (Wsutil.Rejected
                    (fmtErrorf "code=%d, msg=%q" [ArgInt 0; ArgStr "PONG"]))).
Proof.
  split; [|split].
  - pose proof (IncTimes_value (2 ^ 64 - 1)) as H.
    destruct (Counter.IncTimes (2 ^ 64 - 1) Counter.NewCounter) as [v].
    cbn [Counter.value] in H. rewrite H. reflexivity.
  - reflexivity.
  - vm_compute. reflexivity.
Qed.

(** ** The read loop while a caller waits *)

Section SpotRuns.
Import SpotMarket.
Variable jsonUnmarshal : string -> unmarshaled message.
Variable protoUnmarshal : string -> option PushDataV3MarketWrapper.

Lemma sameButPromises_refl w : sameButPromises w w.
Proof. by destruct w. Qed.

Lemma sameButPromises_set m w : sameButPromises w (setPromisesMap m w).
Proof. by destruct w. Qed.

Lemma sameButPromises_trans w1 w2 w3 :
  sameButPromises w1 w2 → sameButPromises w2 w3 → sameButPromises w1 w3.
Proof.
  unfold sameButPromises. intros H12 H23. rewrite H23, H12. by destruct w1.
Qed.

Lemma sameButPromises_registrations w w' :
  sameButPromises w w' → sameRegistrations w w'.
Proof. unfold sameButPromises. intros ->. by destruct w. Qed.

Lemma Route_run accepts data (w : WSMarket) :
  ∃ t, withRouter (Router.Route accepts ReadLoop data) w = (Ret tt, w, t) ∧ noAwait t.
Proof.
  unfold withRouter, Router.Route. munfold.
  assert (∀ hs r, ∃ t, Router.dispatch accepts hs data r = (Ret tt, r, t) ∧ noAwait t) as Hd.
  { induction hs as [|[a h] hs IH]; intros r; cbn [Router.dispatch].
    - eexists; split; [reflexivity | constructor].
    - munfold. destruct (IH r) as (t & Ht & Hna).
      destruct (accepts h data); cbn; rewrite Ht; eexists; (split; [reflexivity|]);
        repeat constructor; exact Hna. }
  destruct (Hd (map_to_list (Router.handlers (router w))) (router w)) as (t & Ht & Hna).
  cbn. rewrite Ht. destruct w; cbn. eexists; split; [reflexivity|].
  repeat constructor. apply Forall_app; split; [exact Hna | repeat constructor].
Qed.

(** Settling a promise through the map: the run of [Resolve] or [Reject]. *)
Lemma settle_run k p (c : Wsutil.call message) (w : WSMarket) :
  ∃ r w', withPromise k p (Wsutil.doCall c) w = (r, w', []) ∧
          (r = Ret tt ∨ r = Block) ∧ sameButPromises w w'.
Proof.
  unfold withPromise. destruct c; cbn [Wsutil.doCall];
    unfold Wsutil.Resolve, Wsutil.Reject, Chan.send; mrun;
    destruct (Wsutil.once p); mrun;
    try destruct (Chan.full _ _); mrun;
    do 2 eexists; (split; [reflexivity|]); (split; [by auto|]);
    apply sameButPromises_set.
Qed.

Lemma handleMessage_run data (w : WSMarket) :
  ∃ r w' t, handleMessage jsonUnmarshal protoUnmarshal data w = (r, w', t) ∧
            (r = Ret tt ∨ r = Panic nilDereference ∨ r = Block) ∧
            sameButPromises w w' ∧ noAwait t.
Proof.
  unfold handleMessage, handleProtoMessage, handleJSONMessage.
  destruct (isJSONMessage data).
  - destruct (jsonUnmarshal data) as [| |msg].
    + do 3 eexists. split; [reflexivity|]. split; [by left|].
      split; [apply sameButPromises_refl | constructor].
    + mrun. do 3 eexists. split; [reflexivity|]. split; [by right; left|].
      split; [apply sameButPromises_refl | repeat constructor].
    + mrun. destruct (promisesMap w !! ID msg) as [p|]; cbn.
      * destruct (fst (Wsutil.Match p msg)).
        -- destruct (settle_run (ID msg) p (Wsutil.CallResolve msg) w)
             as (r & w' & Hr & Hres & Hs).
           cbn [Wsutil.doCall] in Hr. rewrite Hr.
           destruct Hres as [-> | ->]; cbn; do 3 eexists;
             (split; [reflexivity|]); (split; [by auto|]); (split; [exact Hs|]);
             repeat constructor.
        -- destruct (settle_run (ID msg) p
                       (Wsutil.CallReject
                          (fmtErrorf "code=%d, msg=%q" [ArgInt (Code msg); ArgStr (Msg msg)])) w)
             as (r & w' & Hr & Hres & Hs).
           cbn [Wsutil.doCall] in Hr. rewrite Hr.
           destruct Hres as [-> | ->]; cbn; do 3 eexists;
             (split; [reflexivity|]); (split; [by auto|]); (split; [exact Hs|]);
             repeat constructor.
      * do 3 eexists. split; [reflexivity|]. split; [by left|].
        split; [apply sameButPromises_refl | repeat constructor].
  - destruct (protoUnmarshal data).
    + destruct (Route_run (routerAccepts protoUnmarshal) data w) as (t & Ht & Hna).
      rewrite Ht. do 3 eexists. split; [reflexivity|]. split; [by left|].
      split; [apply sameButPromises_refl | exact Hna].
    + do 3 eexists. split; [reflexivity|]. split; [by left|].
      split; [apply sameButPromises_refl | constructor].
Qed.

Lemma handleMessages_run frames (w : WSMarket) :
  ∃ r w' t, handleMessages jsonUnmarshal protoUnmarshal frames w = (r, w', t) ∧
            (r = Ret tt ∨ r = Panic nilDereference ∨ r = Block) ∧
            sameButPromises w w' ∧ noAwait t.
Proof.
  revert w. induction frames as [|data frames IH]; intros w; cbn [handleMessages].
  - do 3 eexists. split; [reflexivity|]. split; [by left|].
    split; [apply sameButPromises_refl | constructor].
  - unfold bind.
    destruct (handleMessage_run data w) as (r & w1 & t1 & H1 & Hr1 & Hs1 & Hn1).
    rewrite H1. destruct Hr1 as [-> | [-> | ->]].
    + destruct (IH w1) as (r2 & w2 & t2 & H2 & Hr2 & Hs2 & Hn2). rewrite H2.
      do 3 eexists. split; [reflexivity|]. split; [exact Hr2|].
      split; [by eapply sameButPromises_trans | by apply Forall_app].
    + do 3 eexists. split; [reflexivity|]. split; [by auto|]. by split.
    + do 3 eexists. split; [reflexivity|]. split; [by auto|]. by split.
Qed.

End SpotRuns.

(** ** Awaiting a response *)

#[local] Arguments Wsutil.Await : simpl never.

Section AwaitFacts.
Import Wsutil.
Context {T : Type}.

Lemma Await_run ctx pick (p : promiseImp T) :
  Await ctx pick p = (Block, p, []) ∨
  ∃ r p', Await ctx pick p = (Ret r, p', []) ∧ (r, p') ∈ awaitCases ctx p.
Proof.
  unfold Await. mrun.
  destruct (awaitCases ctx p !! pick) as [[r p']|] eqn:Hl; cbn.
  - right. do 2 eexists. split; [reflexivity|]. by eapply list_elem_of_lookup_2.
  - destruct (awaitCases ctx p) as [|[r p'] rest]; cbn; [by left|].
    right. do 2 eexists. split; [reflexivity | left].
Qed.

Lemma awaitCases_inv ctx (p : promiseImp T) r p' :
  (r, p') ∈ awaitCases ctx p →
  (∃ msg, r = inl msg ∧ head (resCh p) = Some msg) ∨
  (∃ e, r = inr {| Source := FromServer; Err := e |} ∧ head (errCh p) = Some e) ∨
  (∃ e, r = inr {| Source := FromContext; Err := e |} ∧ ctx = ctxDone e).
Proof.
  unfold awaitCases. rewrite !elem_of_app.
  intros [H | [H | H]].
  - destruct (resCh p) as [|m rest]; cbn in H; [by apply elem_of_nil in H|].
    apply list_elem_of_singleton in H as [= -> _]. left. eauto.
  - destruct (errCh p) as [|e rest]; cbn in H; [by apply elem_of_nil in H|].
    apply list_elem_of_singleton in H as [= -> _]. right; left. eauto.
  - destruct ctx as [|e]; [by apply elem_of_nil in H|].
    apply list_elem_of_singleton in H as [= -> _]. right; right. eauto.
Qed.

End AwaitFacts.

Section SpotRequests.
Import SpotMarket.
Variable jsonUnmarshal : string -> unmarshaled message.
Variable protoUnmarshal : string -> option PushDataV3MarketWrapper.

Lemma sendAndAwaitResponse_run g ctx req frames pick (w : WSMarket) :
  ∃ r w' t,
    sendAndAwaitResponse jsonUnmarshal protoUnmarshal g ctx req frames pick w = (r, w', t) ∧
    sameButPromises w w' ∧ requestRun g ctx r t.
Proof.
  unfold sendAndAwaitResponse, withClient, withPromise, Ws.WriteMessage, Ws.errorf.
  destruct w as [[cc lg u och cap co ce] od ol a wr pm ct rt so se].
  mrun. destruct (Message req) as [msg|e]; mrun.
  2:{ do 3 eexists. split; [reflexivity|]. split; [reflexivity|].
      apply RunNotWritten; repeat constructor. }
  destruct cc as [cn|]; mrun.
  2:{ do 3 eexists. split; [reflexivity|]. split; [reflexivity|].
      apply RunNoConn; repeat constructor. }
  destruct (Ws.connSetWriteDeadline cn) as [e|]; mrun.
  { destruct lg; mrun; do 3 eexists; (split; [reflexivity|]); (split; [reflexivity|]);
      apply RunNotWritten; repeat constructor. }
  destruct (Ws.connWriteMessage cn) as [e|]; mrun.
  { destruct lg; mrun; do 3 eexists; (split; [reflexivity|]); (split; [reflexivity|]);
      apply RunNotWritten; repeat constructor. }
  match goal with
  | |- context [handleMessages _ _ frames ?w1] =>
      destruct (handleMessages_run jsonUnmarshal protoUnmarshal frames w1)
        as (r & w2 & t & Hf & Hr & Hs & Hn)
  end.
  rewrite Hf.
  unfold sameButPromises in Hs. cbn in Hs.
  destruct Hr as [-> | [-> | ->]]; mrun.
  2:{ do 3 eexists. split; [reflexivity|]. rewrite Hs. split; [reflexivity|].
      apply (RunReadLoopPanic g ctx msg). solve_shape. }
  2:{ do 3 eexists. split; [reflexivity|]. rewrite Hs. split; [reflexivity|].
      apply (RunBlocked g ctx msg). exact Hn. }
  match goal with
  | |- context [Wsutil.Await ctx pick ?p] =>
      destruct (Await_run ctx pick p) as [HA | (ra & p' & HA & Hin)]; rewrite HA
  end; mrun.
  { do 3 eexists. split; [reflexivity|]. rewrite Hs. split; [reflexivity|].
    apply (RunBlocked g ctx msg). solve_shape. }
  apply awaitCases_inv in Hin as [(m & -> & _) | [(e & -> & _) | (e & -> & Hctx)]]; mrun;
    do 3 eexists; (split; [reflexivity|]); rewrite Hs; (split; [reflexivity|]).
  - apply (RunAcknowledged g ctx msg). solve_shape.
  - apply (RunRejected g ctx msg). solve_shape.
  - apply (RunTimedOut g ctx msg); [solve_shape | exact Hctx].
Qed.

End SpotRequests.

Section SpotRequestOutcomes.
Import SpotMarket.
Variable jsonUnmarshal : string -> unmarshaled message.
Variable protoUnmarshal : string -> option PushDataV3MarketWrapper.

Lemma request_times_out g req pick ctxErr (w : WSMarket) :
  writable w req →
  result (sendAndAwaitResponse jsonUnmarshal protoUnmarshal g (ctxDone ctxErr) req [] pick w)
    = Ret (Some (spotTimeoutError ctxErr)).
Proof.
  intros (cn & msg & Hc & Hd & Hw & Hm).
  destruct w as [[cc lg u och cap co ce] od ol a wr pm ct rt so se]. cbn in Hc. subst cc.
  unfold sendAndAwaitResponse, withClient, withPromise, Ws.WriteMessage, Ws.errorf.
  mrun. rewrite Hm. mrun. rewrite Hd, Hw. mrun.
  read_back. unfold Wsutil.Await. mrun.
  destruct pick; reflexivity.
Qed.

Lemma request_rejected g req pick data m (w : WSMarket) :
  writable w req →
  isJSONMessage data = true →
  jsonUnmarshal data = Decoded m →
  ID m = reqID req →
  fst (MatchFunc req m) = false →
  result (sendAndAwaitResponse jsonUnmarshal protoUnmarshal g ctxLive req [data] pick w)
    = Ret (Some (spotServerError
                   (fmtErrorf "code=%d, msg=%q" [ArgInt (Code m); ArgStr (Msg m)]))).
Proof.
  intros (cn & msg & Hc & Hd & Hw & Hm) Hj Hu Hid Hmatch.
  destruct w as [[cc lg u och cap co ce] od ol a wr pm ct rt so se]. cbn in Hc. subst cc.
  unfold sendAndAwaitResponse, withClient, withPromise, Ws.WriteMessage, Ws.errorf.
  mrun. rewrite Hm. mrun. rewrite Hd, Hw. mrun.
  unfold handleMessage, handleJSONMessage. rewrite Hj, Hu. mrun.
  rewrite Hid. read_back. unfold Wsutil.Match. cbn. rewrite Hmatch.
  unfold withPromise, Wsutil.Reject, Chan.send, Chan.full. mrun.
  read_back. unfold Wsutil.Await. mrun.
  destruct pick; reflexivity.
Qed.

End SpotRequestOutcomes.

(** ** What the read loop delivers to a request *)

Section SpotReplies.
Import SpotMarket Replies.
Variable jsonUnmarshal : string -> unmarshaled message.
Variable protoUnmarshal : string -> option PushDataV3MarketWrapper.

#[local] Arguments Wsutil.Resolve : simpl never.
#[local] Arguments Wsutil.Reject : simpl never.

Lemma doCall_shape {T} (c : Wsutil.call T) (p : Wsutil.promiseImp T) :
  ∃ r p', Wsutil.doCall c p = (r, p', []) ∧ (r = Ret tt ∨ r = Block).
Proof.
  destruct c; cbn [Wsutil.doCall]; unfold Wsutil.Resolve, Wsutil.Reject, Chan.send; mrun;
    destruct (Wsutil.once p); mrun; try destruct (Chan.full _ _); mrun;
    do 2 eexists; (split; [reflexivity | by auto]).
Qed.

Lemma Route_readLoop accepts data (w : WSMarket) :
  ∃ t, withRouter (Router.Route accepts ReadLoop data) w = (Ret tt, w, t) ∧
       Narrow.readLoopOnly t.
Proof.
  unfold withRouter, Router.Route. munfold.
  assert (∀ hs r, ∃ t, Router.dispatch accepts hs data r = (Ret tt, r, t) ∧
                       Narrow.readLoopOnly t) as Hd.
  { induction hs as [|[a h] hs IH]; intros r; cbn [Router.dispatch].
    - eexists; split; [reflexivity | constructor].
    - munfold. destruct (IH r) as (t & Ht & Hna).
      destruct (accepts h data); cbn; rewrite Ht; eexists; (split; [reflexivity|]);
        repeat constructor; exact Hna. }
  destruct (Hd (map_to_list (Router.handlers (router w))) (router w)) as (t & Ht & Hna).
  cbn. rewrite Ht. destruct w; cbn. eexists; split; [reflexivity|].
  repeat constructor. apply Forall_app; split; [exact Hna | repeat constructor].
Qed.

Lemma setPromisesMap_same (w : WSMarket) : setPromisesMap (promisesMap w) w = w.
Proof. by destruct w. Qed.

Lemma setPromisesMap_twice pm pm' (w : WSMarket) :
  setPromisesMap pm' (setPromisesMap pm w) = setPromisesMap pm' w.
Proof. by destruct w. Qed.

Lemma settle_sound m (pm : gmap Z (Wsutil.promiseImp message)) :
  (∀ k p, pm !! k = Some p → PromiseOps.wellFormed p) →
  ∀ k p, settle m pm !! k = Some p → PromiseOps.wellFormed p.
Proof.
  intros Hpm k p. unfold settle. destruct (pm !! ID m) as [p0|] eqn:Hl; [|by apply Hpm].
  destruct (decide (k = ID m)) as [->|Hne].
  - rewrite lookup_insert_eq. intros [= <-]. by apply doCall_wellFormed, (Hpm (ID m)).
  - rewrite lookup_insert_ne by done. by apply Hpm.
Qed.

Lemma deliver_sound data (w : WSMarket) :
  sound w → sound (setPromisesMap (deliver jsonUnmarshal data (promisesMap w)) w).
Proof.
  intros Hs k p. unfold deliver. destruct w as [c od ol a wr pm ct rt so se]. cbn.
  destruct (replyOf jsonUnmarshal data) as [m|]; [|by apply (Hs k p)].
  by apply settle_sound.
Qed.

Lemma registered_sound req (w : WSMarket) : sound w → sound (registered req w).
Proof.
  intros Hs k p. unfold registered. destruct w as [c od ol a wr pm ct rt so se]. cbn.
  destruct (decide (k = reqID req)) as [->|Hne].
  - rewrite lookup_insert_eq. intros [= <-]. apply wellFormed_new.
  - rewrite lookup_insert_ne by done. by apply (Hs k p).
Qed.

(** One frame: the read loop delivers it, or stops at a nil message or at a
    promise whose channel is full. *)
Lemma handleMessage_deliver data (w : WSMarket) :
  ∃ r w' t, handleMessage jsonUnmarshal protoUnmarshal data w = (r, w', t) ∧
            (r = Ret tt ∨ r = Panic nilDereference ∨ r = Block) ∧
            (r = Ret tt → w' = setPromisesMap (deliver jsonUnmarshal data (promisesMap w)) w) ∧
            (sound w → (isJSONMessage data = true → jsonUnmarshal data ≠ DecodedNil) →
             r = Ret tt) ∧
            Narrow.readLoopOnly t.
Proof.
  unfold handleMessage, handleProtoMessage, handleJSONMessage, deliver, replyOf.
  destruct (isJSONMessage data).
  - destruct (jsonUnmarshal data) as [| |msg].
    + do 3 eexists. split; [reflexivity|]. split; [by left|].
      split; [by rewrite setPromisesMap_same|]. split; [done | constructor].
    + mrun. do 3 eexists. split; [reflexivity|]. split; [by right; left|].
      split; [done|]. split; [|repeat constructor].
      intros _ H. by destruct H.
    + mrun. unfold settle. destruct (promisesMap w !! ID msg) as [p|] eqn:Hl; cbn.
      * unfold answer, Wsutil.Match.
        destruct (fst (Wsutil.matchFn p msg));
          match goal with
          | |- context [final (Wsutil.doCall ?c p)] =>
              destruct (doCall_shape c p) as (r & p' & HR & Hr);
              pose proof (doCall_wellFormed p c) as Hwf;
              rewrite HR in Hwf |- *; cbn [Wsutil.doCall] in HR
          end;
          unfold withPromise; mrun; rewrite HR;
          (destruct Hr as [-> | ->]; cbn; do 3 eexists;
           (split; [reflexivity|]); (split; [by auto|]);
           (split; [try done; intros _; by destruct w|]);
           (split; [|repeat constructor]));
          intros Hs _; try done; by destruct (Hwf (Hs _ _ Hl)).
      * do 3 eexists. split; [reflexivity|]. split; [by left|].
        split; [by destruct w|]. split; [done | repeat constructor].
  - destruct (protoUnmarshal data).
    + destruct (Route_readLoop (routerAccepts protoUnmarshal) data w) as (t & Ht & Hna).
      rewrite Ht. do 3 eexists. split; [reflexivity|]. split; [by left|].
      split; [by rewrite setPromisesMap_same|]. split; [done | exact Hna].
    + do 3 eexists. split; [reflexivity|]. split; [by left|].
      split; [by rewrite setPromisesMap_same|]. split; [done | constructor].
Qed.

Lemma handleMessages_deliver frames (w : WSMarket) :
  ∃ r w' t, handleMessages jsonUnmarshal protoUnmarshal frames w = (r, w', t) ∧
            (r = Ret tt ∨ r = Panic nilDereference ∨ r = Block) ∧
            (r = Ret tt →
             w' = setPromisesMap (deliverAll jsonUnmarshal frames (promisesMap w)) w) ∧
            (sound w → benign jsonUnmarshal frames → r = Ret tt) ∧
            Narrow.readLoopOnly t.
Proof.
  revert w. induction frames as [|data frames IH]; intros w; cbn [handleMessages deliverAll].
  - do 3 eexists. split; [reflexivity|]. split; [by left|].
    split; [by rewrite setPromisesMap_same|]. split; [done | constructor].
  - unfold bind.
    destruct (handleMessage_deliver data w) as (r & w1 & t1 & H1 & Hr1 & Hd1 & Ht1 & Hl1).
    rewrite H1. destruct Hr1 as [-> | [-> | ->]].
    + specialize (Hd1 eq_refl). subst w1.
      destruct (IH (setPromisesMap (deliver jsonUnmarshal data (promisesMap w)) w))
        as (r2 & w2 & t2 & H2 & Hr2 & Hd2 & Ht2 & Hl2).
      rewrite H2. do 3 eexists. split; [reflexivity|]. split; [exact Hr2|].
      split; [|split; [|by apply Forall_app]].
      * intros Hr. rewrite (Hd2 Hr). by destruct w.
      * intros Hs Hb. apply Ht2; [by apply deliver_sound | by inversion Hb].
    + do 3 eexists. split; [reflexivity|]. split; [by auto|]. split; [done|].
      split; [|done]. intros Hs Hb. apply Ht1; [done | by inversion Hb].
    + do 3 eexists. split; [reflexivity|]. split; [by auto|]. split; [done|].
      split; [|done]. intros Hs Hb. apply Ht1; [done | by inversion Hb].
Qed.

Lemma settle_other m i (pm : gmap Z (Wsutil.promiseImp message)) :
  ID m ≠ i → settle m pm !! i = pm !! i.
Proof.
  intros Hne. unfold settle. destruct (pm !! ID m); [|done]. by rewrite lookup_insert_ne.
Qed.

(** A settled promise stays as it is, whatever the read loop delivers. *)
Lemma deliverAll_settled frames (pm : gmap Z (Wsutil.promiseImp message)) i p :
  pm !! i = Some p → Wsutil.once p = true →
  deliverAll jsonUnmarshal frames pm !! i = Some p.
Proof.
  revert pm. induction frames as [|data frames IH]; intros pm Hl Ho; [done|].
  cbn [deliverAll]. apply IH; [|done]. unfold deliver.
  destruct (replyOf jsonUnmarshal data) as [m|]; [|done].
  destruct (decide (ID m = i)) as [<-|Hne]; [|by rewrite settle_other].
  unfold settle. rewrite Hl, lookup_insert_eq. by rewrite doCall_settled.
Qed.

(** The promise of a request is settled by the first frame carrying its id. *)
Lemma deliverAll_pending frames (pm : gmap Z (Wsutil.promiseImp message)) i f :
  pm !! i = Some (Wsutil.NewPromise f) →
  deliverAll jsonUnmarshal frames pm !! i
    = Some (match replyTo jsonUnmarshal i frames with
            | None => Wsutil.NewPromise f
            | Some m => Wsutil.afterCall f (answer f m)
            end).
Proof.
  revert pm. induction frames as [|data frames IH]; intros pm Hl; [done|].
  cbn [deliverAll replyTo]. unfold deliver.
  destruct (replyOf jsonUnmarshal data) as [m|]; [|by apply IH].
  case_bool_decide as Hid.
  - apply deliverAll_settled.
    + unfold settle. rewrite Hid, Hl, lookup_insert_eq. cbn [Wsutil.matchFn Wsutil.NewPromise].
      by rewrite doCall_first.
    + unfold answer. by destruct (fst (f m)).
  - apply IH. by rewrite settle_other.
Qed.

End SpotReplies.

Section SpotRequestCases.
Import SpotMarket Replies.
Variable jsonUnmarshal : string -> unmarshaled message.
Variable protoUnmarshal : string -> option PushDataV3MarketWrapper.

(** The runs of [sendAndAwaitResponse], case by case. *)
Lemma request_cases g ctx req frames pick (w : WSMarket) :
  let run := sendAndAwaitResponse jsonUnmarshal protoUnmarshal g ctx req frames pick w in
  (∃ e, Message req = inr e ∧
        result run = Ret (Some (spotWriteError e)) ∧
        noConnWrite (trace run) ∧ noAwait (trace run)) ∨
  (∃ msg, Message req = inl msg ∧ Ws.conn (client w) = None ∧
          result run = Panic nilDereference) ∨
  (∃ msg cn ce, Message req = inl msg ∧ Ws.conn (client w) = Some cn ∧
                Ws.connSetWriteDeadline cn = Some ce ∧
                result run = Ret (Some (spotWriteError
                                          (fmtErrorf "%w: %v" [ArgErr Ws.ErrWriteTimeout;
                                                                ArgStr (Ws.errText ce)]))) ∧
                noConnWrite (trace run) ∧ noAwait (trace run)) ∨
  (∃ msg cn ce, Message req = inl msg ∧ Ws.conn (client w) = Some cn ∧
                Ws.connSetWriteDeadline cn = None ∧
                Ws.connWriteMessage cn = Some ce ∧
                result run = Ret (Some (spotWriteError
                                          (fmtErrorf "%w: %v" [ArgErr Ws.ErrWriteFailed;
                                                                ArgStr (Ws.errText ce)]))) ∧
                noConnWrite (trace run) ∧ noAwait (trace run)) ∨
  (writable w req ∧
   (result run = expected ctx pick (MatchFunc req)
                   (replyTo jsonUnmarshal (reqID req) frames) ∨
    (result run = Panic nilDereference ∨ result run = Block) ∧
    ¬ (sound w ∧ benign jsonUnmarshal frames))).
Proof.
  intros run. subst run.
  pose proof (registered_sound req w) as Hreg. unfold registered in Hreg.
  unfold sendAndAwaitResponse, withClient, withPromise, Ws.WriteMessage, Ws.errorf.
  destruct w as [[cc lg u och cap co ce] od ol a wr pm ct rt so se].
  mrun. destruct (Message req) as [msg|e] eqn:Hm; mrun.
  2:{ left. exists e. split; [done|]. split; [done|]. split; repeat constructor. }
  destruct cc as [cn|]; mrun.
  2:{ right; left. exists msg. by repeat split. }
  destruct (Ws.connSetWriteDeadline cn) as [e|] eqn:Hd; mrun.
  { do 2 right; left. exists msg, cn, e.
    destruct lg; mrun; (split; [done|]); (split; [done|]); (split; [done|]);
      (split; [done|]); split; repeat constructor. }
  destruct (Ws.connWriteMessage cn) as [e|] eqn:Hw; mrun.
  { do 3 right; left. exists msg, cn, e.
    destruct lg; mrun; (split; [done|]); (split; [done|]); (split; [done|]);
      (split; [done|]); (split; [done|]); split; repeat constructor. }
  do 4 right. split; [by exists cn, msg|].
  match goal with
  | |- context [handleMessages _ _ frames ?w1] =>
      destruct (handleMessages_deliver jsonUnmarshal protoUnmarshal frames w1)
        as (r & w2 & t & Hf & Hr & Hdel & Htot & _)
  end.
  rewrite Hf. cbn in Hreg.
  destruct Hr as [-> | [-> | ->]]; mrun.
  2:{ right. split; [by left|]. intros [Hs Hb]. by specialize (Htot (Hreg Hs) Hb). }
  2:{ right. split; [by right|]. intros [Hs Hb]. by specialize (Htot (Hreg Hs) Hb). }
  left. rewrite (Hdel eq_refl). cbn.
  rewrite (deliverAll_pending jsonUnmarshal frames _ _ _
             (lookup_insert_eq pm (reqID req) (Wsutil.NewPromise (MatchFunc req)))).
  unfold expected, answered, answer, Wsutil.Await.
  destruct (replyTo jsonUnmarshal (reqID req) frames) as [m|]; cbn.
  - destruct (fst (MatchFunc req m)); destruct ctx; mrun;
      destruct pick as [|[|pick]]; reflexivity.
  - destruct ctx; mrun; destruct pick; reflexivity.
Qed.

End SpotRequestCases.

Section SpotRequestAnswers.
Import SpotMarket Replies.
Variable jsonUnmarshal : string -> unmarshaled message.
Variable protoUnmarshal : string -> option PushDataV3MarketWrapper.

Lemma not_writable_unmarshalled req (w : WSMarket) e :
  Message req = inr e → ¬ writable w req.
Proof. intros Hm (cn & msg & _ & _ & _ & Hm'). congruence. Qed.

Lemma not_writable_deadline req (w : WSMarket) cn ce :
  Ws.conn (client w) = Some cn → Ws.connSetWriteDeadline cn = Some ce → ¬ writable w req.
Proof. intros Hc Hd (cn' & msg & Hc' & Hd' & _ & _). congruence. Qed.

Lemma not_writable_write req (w : WSMarket) cn ce :
  Ws.conn (client w) = Some cn → Ws.connWriteMessage cn = Some ce → ¬ writable w req.
Proof. intros Hc Hd (cn' & msg & Hc' & _ & Hd' & _). congruence. Qed.

(** Whatever [sendAndAwaitResponse] returns is explained by what happened. *)
Lemma request_explained g ctx req frames pick (w : WSMarket) x :
  let run := sendAndAwaitResponse jsonUnmarshal protoUnmarshal g ctx req frames pick w in
  result run = Ret x →
  (∃ cause, x = Some (spotWriteError cause) ∧ ¬ writable w req ∧
            noConnWrite (trace run) ∧ noAwait (trace run)) ∨
  (∃ ctxErr, x = Some (spotTimeoutError ctxErr) ∧ writable w req ∧ ctx = ctxDone ctxErr ∧
             (replyTo jsonUnmarshal (reqID req) frames = None ∨ pick = 1)) ∨
  (∃ m, x = answered (MatchFunc req) m ∧ writable w req ∧
        replyTo jsonUnmarshal (reqID req) frames = Some m).
Proof.
  intros run Hx.
  destruct (request_cases jsonUnmarshal protoUnmarshal g ctx req frames pick w)
    as [(e & Hm & Hr & Hcw & Haw)
       |[(msg & Hm & Hc & Hr)
        |[(msg & cn & ce & Hm & Hc & Hd & Hr & Hcw & Haw)
         |[(msg & cn & ce & Hm & Hc & Hd & Hwr & Hr & Hcw & Haw)
          |(Hw & [Hr | [[Hr | Hr] _]])]]]];
    fold run in Hr; rewrite Hr in Hx; try discriminate.
  - injection Hx as <-. left. exists e. repeat split; try done.
    by eapply not_writable_unmarshalled.
  - injection Hx as <-. left. eexists. repeat split; try done.
    by eapply not_writable_deadline.
  - injection Hx as <-. left. eexists. repeat split; try done.
    by eapply not_writable_write.
  - right. unfold expected in Hx.
    destruct (replyTo jsonUnmarshal (reqID req) frames) as [m|]; destruct ctx as [|ctxErr];
      try discriminate; injection Hx as <-.
    + right. by exists m.
    + destruct pick as [|[|pick]]; cbn.
      * right. by exists m.
      * left. exists ctxErr. repeat split; auto.
      * right. by exists m.
    + left. exists ctxErr. repeat split; auto.
Qed.

Lemma answered_None f m : answered f m = None → fst (f m) = true.
Proof. unfold answered. by destruct (fst (f m)). Qed.

(** A request returns nil only when its reply arrived and was accepted. *)
Lemma request_acknowledged g ctx req frames pick (w : WSMarket) :
  result (sendAndAwaitResponse jsonUnmarshal protoUnmarshal g ctx req frames pick w)
    = Ret None →
  ∃ m, replyTo jsonUnmarshal (reqID req) frames = Some m ∧ fst (MatchFunc req m) = true.
Proof.
  intros Hx. apply request_explained in Hx
    as [(e & He & _) | [(e & He & _) | (m & Hm & _ & Hr)]]; try discriminate.
  exists m. split; [done|]. by apply answered_None.
Qed.

End SpotRequestAnswers.

(** C3, as the code has it.  The failures of a request issued through
    [sendAndAwaitResponse] are of three kinds, and each arises in its own
    circumstances.  Write kind: when the request cannot be marshalled, when
    the write deadline cannot be set and when the connection refuses the
    write, the caller gets the write-kind error wrapping that cause, and
    nothing is written or awaited.  When the request is written, the pending
    promises are well formed and no frame decodes to a nil message, the
    result is decided by the first frame the read loop handles that carries
    the request id, and by the context: without such a frame the call waits
    while the context is live and returns the timeout-kind error carrying
    the context's error once it is done; with such a frame it returns nil
    when the frame passes the request's predicate and the
    server-rejection-kind error carrying the frame's code and message when
    it fails it, except that under a context that is done the [select] may
    take the context's case and the timeout-kind error is returned instead.
    Conversely every value the call returns is one of these: a write-kind
    error of a request that could not be written, a timeout-kind error under
    a done context, or the verdict on the reply that arrived.  The
    "unreachable" panic is never the result, and the three kinds differ. *)
Theorem request_failure_kinds
    (jsonUnmarshal : string -> unmarshaled SpotMarket.message)
    (protoUnmarshal : string -> option SpotMarket.PushDataV3MarketWrapper)
    (g : goroutine) (ctx : context) (req : SpotMarket.wsRequest)
    (frames : list string) (pick : nat) (w : SpotMarket.WSMarket) :
  let run :=
    SpotMarket.sendAndAwaitResponse jsonUnmarshal protoUnmarshal g ctx req frames pick w in
  let reply := Replies.replyTo jsonUnmarshal (SpotMarket.reqID req) frames in
  let rejection m :=
    spotServerError (fmtErrorf "code=%d, msg=%q"
                       [ArgInt (SpotMarket.Code m); ArgStr (SpotMarket.Msg m)]) in
  let verdict m :=
    if fst (SpotMarket.MatchFunc req m) then None else Some (rejection m) in
  (∀ cause, SpotMarket.Message req = inr cause →
     result run = Ret (Some (spotWriteError cause)) ∧
     noConnWrite (trace run) ∧ noAwait (trace run)) ∧
  (∀ msg cn ce,
     SpotMarket.Message req = inl msg → Ws.conn (SpotMarket.client w) = Some cn →
     Ws.connSetWriteDeadline cn = Some ce →
     result run = Ret (Some (spotWriteError
                               (fmtErrorf "%w: %v" [ArgErr Ws.ErrWriteTimeout;
                                                     ArgStr (Ws.errText ce)]))) ∧
     noConnWrite (trace run) ∧ noAwait (trace run)) ∧
  (∀ msg cn ce,
     SpotMarket.Message req = inl msg → Ws.conn (SpotMarket.client w) = Some cn →
     Ws.connSetWriteDeadline cn = None → Ws.connWriteMessage cn = Some ce →
     result run = Ret (Some (spotWriteError
                               (fmtErrorf "%w: %v" [ArgErr Ws.ErrWriteFailed;
                                                     ArgStr (Ws.errText ce)]))) ∧
     noConnWrite (trace run) ∧ noAwait (trace run)) ∧
  (writable w req → Replies.sound w → Replies.benign jsonUnmarshal frames →
   result run =
     match reply, ctx with
     | None, ctxLive => Block
     | None, ctxDone ctxErr => Ret (Some (spotTimeoutError ctxErr))
     | Some m, ctxLive => Ret (verdict m)
     | Some m, ctxDone ctxErr =>
         Ret (if Nat.eqb pick 1 then Some (spotTimeoutError ctxErr) else verdict m)
     end) ∧
  (∀ ctxErr, writable w req → frames = [] → ctx = ctxDone ctxErr →
             result run = Ret (Some (spotTimeoutError ctxErr))) ∧
  (∀ data m, writable w req → frames = [data] → ctx = ctxLive →
             SpotMarket.isJSONMessage data = true →
             jsonUnmarshal data = Decoded m →
             SpotMarket.ID m = SpotMarket.reqID req →
             fst (SpotMarket.MatchFunc req m) = false →
             result run = Ret (Some (rejection m))) ∧
  (∀ x, result run = Ret x →
     (∃ cause, x = Some (spotWriteError cause) ∧ ¬ writable w req ∧
               noConnWrite (trace run) ∧ noAwait (trace run)) ∨
     (∃ ctxErr, x = Some (spotTimeoutError ctxErr) ∧ writable w req ∧
                ctx = ctxDone ctxErr ∧ (reply = None ∨ pick = 1)) ∨
     (∃ m, x = verdict m ∧ writable w req ∧ reply = Some m)) ∧
  result run ≠ Panic "unreachable" ∧
  (∀ cause ctxErr rejected,
      Sdkerr.Kind (spotWriteError cause) = Some Sdkerr.ErrWSWrite ∧
      Sdkerr.Kind (spotTimeoutError ctxErr) = Some Sdkerr.ErrWSMessageTimeout ∧
      Sdkerr.Kind (spotServerError rejected) = Some Sdkerr.ErrWSServerError ∧
      Sdkerr.ErrWSWrite ≠ Sdkerr.ErrWSMessageTimeout ∧
      Sdkerr.ErrWSWrite ≠ Sdkerr.ErrWSServerError ∧
      Sdkerr.ErrWSMessageTimeout ≠ Sdkerr.ErrWSServerError).
Proof.
  intros run reply rejection verdict.
  pose proof (request_cases jsonUnmarshal protoUnmarshal g ctx req frames pick w) as Hcases.
  cbv zeta in Hcases. fold run reply in Hcases.
  split; [|split; [|split; [|split; [|split; [|split; [|split; [|split]]]]]]].
  - intros cause Hm.
    destruct Hcases
      as [(e & Hm' & Hr & Hcw & Haw)
         |[(msg & Hm' & _)
          |[(msg & cn & ce & Hm' & _)
           |[(msg & cn & ce & Hm' & _)
            |((cn & msg & _ & _ & _ & Hm') & _)]]]]; try congruence.
    rewrite Hm in Hm'. by injection Hm' as <-.
  - intros msg cn ce Hm Hc Hd.
    destruct Hcases
      as [(e & Hm' & _)
         |[(msg' & _ & Hc' & _)
          |[(msg' & cn' & ce' & _ & Hc' & Hd' & Hr & Hcw & Haw)
           |[(msg' & cn' & ce' & _ & Hc' & Hd' & _)
            |((cn' & msg' & Hc' & Hd' & _) & _)]]]]; try congruence.
    rewrite Hc in Hc'. injection Hc' as <-. rewrite Hd in Hd'. by injection Hd' as <-.
  - intros msg cn ce Hm Hc Hd Hwr.
    destruct Hcases
      as [(e & Hm' & _)
         |[(msg' & _ & Hc' & _)
          |[(msg' & cn' & ce' & _ & Hc' & Hd' & _)
           |[(msg' & cn' & ce' & _ & Hc' & Hd' & Hwr' & Hr & Hcw & Haw)
            |((cn' & msg' & Hc' & Hd' & Hwr' & _) & _)]]]]; try congruence.
    rewrite Hc in Hc'. injection Hc' as <-. rewrite Hwr in Hwr'. by injection Hwr' as <-.
  - intros Hw Hs Hb.
    destruct Hcases
      as [(e & Hm' & _)
         |[(msg' & _ & Hc' & _)
          |[(msg' & cn' & ce' & _ & Hc' & Hd' & _)
           |[(msg' & cn' & ce' & _ & Hc' & _ & Hwr' & _)
            |(_ & [Hr | [_ Hn]])]]]].
    + by destruct (not_writable_unmarshalled req w e Hm').
    + destruct Hw as (cn & _ & Hc & _). congruence.
    + by destruct (not_writable_deadline req w cn' ce' Hc' Hd').
    + by destruct (not_writable_write req w cn' ce' Hc' Hwr').
    + exact Hr.
    + by destruct Hn.
  - intros ctxErr Hw -> ->. by apply request_times_out.
  - intros data m Hw -> -> Hj Hu Hid Hm. by apply request_rejected.
  - intros x Hx. by apply (request_explained jsonUnmarshal protoUnmarshal) in Hx.
  - destruct Hcases
      as [(e & _ & Hr & _)
         |[(msg' & _ & _ & Hr)
          |[(msg' & cn' & ce' & _ & _ & _ & Hr & _)
           |[(msg' & cn' & ce' & _ & _ & _ & _ & Hr & _)
            |(_ & [Hr | [[Hr | Hr] _]])]]]]; rewrite Hr; try discriminate.
    unfold Replies.expected. destruct reply, ctx; discriminate.
  - intros cause ctxErr rejected. repeat split; discriminate.
Qed.

Lemma request_failure_kinds_witness :
  result (SpotMarket.sendAndAwaitResponse Examples.decodeNack Examples.noProto Caller
            ctxLive (SpotMarket.newSubscriptionRequest 1 SpotMarket.subscribe Examples.depthSub)
            [Examples.nackFrame] 0 (Examples.connected Examples.goodConn))
    = Ret (Some (spotServerError
                   (fmtErrorf "code=%d, msg=%q"
                      [ArgInt 500; ArgStr "Not Subscribed successfully"]))).
Proof.
  refine (proj1 (proj2 (proj2 (proj2
            (request_failure_kinds Examples.decodeNack Examples.noProto Caller
               ctxLive
               (SpotMarket.newSubscriptionRequest 1 SpotMarket.subscribe Examples.depthSub)
               [Examples.nackFrame] 0 (Examples.connected Examples.goodConn))))) _ _ _).
  - exists Examples.goodConn. eexists. repeat split.
  - intros k p H. cbn in H. rewrite lookup_empty in H. discriminate.
  - repeat constructor. intros _. vm_compute. discriminate.
Defined.

(** C3, counterexample.  A subscribe request on a connection that refuses
    the write fails with an error whose kind is neither the timeout kind nor
    the server-rejection kind. *)
Lemma request_write_failure_counterexample :
  ∃ e,
    result (SpotMarket.sendAndAwaitResponse Examples.decodePong Examples.noProto Caller
              ctxLive (SpotMarket.newSubscriptionRequest 1 SpotMarket.subscribe Examples.depthSub)
              [] 0 (Examples.connected Examples.badWriteConn))
      = Ret (Some e) ∧
    Sdkerr.Kind e = Some Sdkerr.ErrWSWrite ∧
    Sdkerr.Kind e ≠ Some Sdkerr.ErrWSMessageTimeout ∧
    Sdkerr.Kind e ≠ Some Sdkerr.ErrWSServerError.
Proof. eexists. split; [reflexivity|]. repeat split; discriminate. Qed.

(** ** Subscribe *)

Example subscribed_ok :
  result (SpotMarket.Subscribe Examples.decodeAck Examples.noProto ctxLive
            (Some Examples.depthSub) [Examples.ackFrame] 0
            (Examples.connected Examples.goodConn)) = Ret (inl 0) ∧
  SpotMarket.activeSubs Examples.subscribed !! SpotMarket.id Examples.depthSub = Some 0 ∧
  size (Router.handlers (SpotMarket.router Examples.subscribed)) = 1 ∧
  SpotMarket.promisesMap Examples.subscribed = ∅.
Proof. vm_compute. repeat split. Qed.

Example unsubscribed_ok :
  result (SpotMarket.Unsubscribe Examples.decodeUnsubAck Examples.noProto 0 ctxLive
            [Examples.unsubAckFrame] 0 Examples.subscribed) = Ret None ∧
  SpotMarket.activeSubs
    (final (SpotMarket.Unsubscribe Examples.decodeUnsubAck Examples.noProto 0 ctxLive
              [Examples.unsubAckFrame] 0 Examples.subscribed)) = ∅ ∧
  size (Router.handlers
          (SpotMarket.router
             (final (SpotMarket.Unsubscribe Examples.decodeUnsubAck Examples.noProto 0 ctxLive
                       [Examples.unsubAckFrame] 0 Examples.subscribed)))) = 0 ∧
  trace (SpotMarket.Unsubscribe Examples.decodeUnsubAck Examples.noProto 0 ctxLive [] 0
           (final (SpotMarket.Unsubscribe Examples.decodeUnsubAck Examples.noProto 0 ctxLive
                     [Examples.unsubAckFrame] 0 Examples.subscribed))) = [].
Proof. vm_compute. repeat split. Qed.

Example saturated_full :
  size (Router.handlers (SpotMarket.router Examples.saturated)) = 30 ∧
  SpotMarket.activeSubs Examples.saturated !! SpotMarket.id (Examples.tradeSub 7) = Some 7.
Proof. vm_compute. repeat split. Qed.

Section SubscribeFacts.
Import SpotMarket.
Variable jsonUnmarshal : string -> unmarshaled message.
Variable protoUnmarshal : string -> option PushDataV3MarketWrapper.

Lemma Subscribe_duplicate ctx sub frames pick (w : WSMarket) :
  is_Some (activeSubs w !! id sub) →
  Subscribe jsonUnmarshal protoUnmarshal ctx (Some sub) frames pick w
    = (Ret (inr (spotDuplicateError (id sub))), w,
       [EvLock Caller activeSubsMu; EvUnlock Caller activeSubsMu]).
Proof.
  intros Hdup. unfold Subscribe. mrun.
  rewrite (bool_decide_eq_true_2 _ Hdup). reflexivity.
Qed.

Lemma Subscribe_limit ctx sub frames pick (w : WSMarket) :
  activeSubs w !! id sub = None →
  (maxCountSubscribes ≤ Z.of_nat (size (Router.handlers (router w))))%Z →
  Subscribe jsonUnmarshal protoUnmarshal ctx (Some sub) frames pick w
    = (Ret (inr spotLimitError), w,
       [EvLock Caller activeSubsMu; EvLock Caller routerMu; EvUnlock Caller routerMu;
        EvUnlock Caller activeSubsMu]).
Proof.
  intros Hnew Hfull. unfold Subscribe, withRouter, Router.Len. mrun.
  rewrite bool_decide_eq_false_2 by (rewrite Hnew; by intros [? ?]).
  rewrite (bool_decide_eq_true_2 _ Hfull). by destruct w.
Qed.

End SubscribeFacts.

(** C4.  In every state of the spot market session, and of the futures user
    session, in which a subscription with key [k] is active, [Subscribe] with
    a spec whose [id()] is [k] returns the duplicate-subscription error and
    leaves the whole session state as it was (the first registration, the
    active-subscription map, the Router and everything else); it only takes
    and releases the lock of the active-subscription map. *)
Theorem Subscribe_duplicate_rejected
    (jsonUnmarshal : string -> unmarshaled SpotMarket.message)
    (protoUnmarshal : string -> option SpotMarket.PushDataV3MarketWrapper)
    (ctx : context) (frames : list string) (pick : nat)
    (w : SpotMarket.WSMarket) (sub : SpotMarket.Subscription) (h : nat)
    (wu : FuturesUser.WSUser) (subu : FuturesUser.Subscription) (hu : nat) :
  SpotMarket.activeSubs w !! SpotMarket.id sub = Some h →
  FuturesUser.activeSubs wu !! FuturesUser.id subu = Some hu →
  SpotMarket.Subscribe jsonUnmarshal protoUnmarshal ctx (Some sub) frames pick w
    = (Ret (inr (spotDuplicateError (SpotMarket.id sub))), w,
       [EvLock Caller activeSubsMu; EvUnlock Caller activeSubsMu]) ∧
  Sdkerr.Cause (spotDuplicateError (SpotMarket.id sub))
    = Some SpotMarket.ErrDuplicateSubscription ∧
  FuturesUser.Subscribe (Some subu) wu
    = (Ret (inr (futuresDuplicateError (FuturesUser.id subu))), wu,
       [EvLock Caller activeSubsMu; EvUnlock Caller activeSubsMu]) ∧
  Sdkerr.Cause (futuresDuplicateError (FuturesUser.id subu))
    = Some FuturesUser.ErrDuplicateSubscription.
Proof.
  intros Hs Hu. split; [|split; [reflexivity|split; [|reflexivity]]].
  - apply Subscribe_duplicate. by eexists.
  - unfold FuturesUser.Subscribe. mrun.
    rewrite bool_decide_eq_true_2 by (by eexists). reflexivity.
Qed.

Lemma Subscribe_duplicate_rejected_witness :
  SpotMarket.Subscribe Examples.decodeAck Examples.noProto ctxLive
      (Some Examples.depthSub) [Examples.ackFrame] 0 Examples.subscribed
    = (Ret (inr (spotDuplicateError (SpotMarket.id Examples.depthSub))), Examples.subscribed,
       [EvLock Caller activeSubsMu; EvUnlock Caller activeSubsMu]) ∧
  Sdkerr.Cause (spotDuplicateError (SpotMarket.id Examples.depthSub))
    = Some SpotMarket.ErrDuplicateSubscription ∧
  FuturesUser.Subscribe (Some Examples.assetSub) Examples.userSubscribed
    = (Ret (inr (futuresDuplicateError (FuturesUser.id Examples.assetSub))),
       Examples.userSubscribed,
       [EvLock Caller activeSubsMu; EvUnlock Caller activeSubsMu]) ∧
  Sdkerr.Cause (futuresDuplicateError (FuturesUser.id Examples.assetSub))
    = Some FuturesUser.ErrDuplicateSubscription.
Proof.
  apply (Subscribe_duplicate_rejected Examples.decodeAck Examples.noProto ctxLive
           [Examples.ackFrame] 0 Examples.subscribed Examples.depthSub 0
           Examples.userSubscribed Examples.assetSub 0);
    vm_compute; reflexivity.
Defined.

Section SubscribeRuns.
Import SpotMarket.
Variable jsonUnmarshal : string -> unmarshaled message.
Variable protoUnmarshal : string -> option PushDataV3MarketWrapper.

Lemma Subscribe_registers_after_ack ctx sub frames pick (w : WSMarket) :
  let run := Subscribe jsonUnmarshal protoUnmarshal ctx (Some sub) frames pick w in
  (∃ msg t i m,
      result run = Ret (inl (length (wrappers w))) ∧
      trace run =
        [EvLock Caller activeSubsMu; EvLock Caller routerMu; EvUnlock Caller routerMu]
        ++ sentAndWaiting Caller msg ++ t
        ++ [EvLock Caller routerMu; EvUnlock Caller routerMu; EvUnlock Caller activeSubsMu] ∧
      noAwait t ∧
      result (createID w) = Ret i ∧
      Replies.replyTo jsonUnmarshal i frames = Some m ∧
      fst (matches sub m) = true ∧
      Router.handlers (router (final run))
        = <[subAddr sub := sub]> (Router.handlers (router w)) ∧
      activeSubs (final run) = <[id sub := length (wrappers w)]> (activeSubs w)) ∨
  ((∀ h, result run ≠ Ret (inl h)) ∧ sameRegistrations w (final run)).
Proof.
  intros run. unfold run, Subscribe, withRouter, Router.Len, Router.Register, createID.
  destruct w as [cl od ol a wr pm ct rt so se]. mrun.
  destruct (bool_decide (is_Some (a !! id sub))); mrun.
  { right. split; [discriminate | repeat split]. }
  destruct (bool_decide (maxCountSubscribes ≤ Z.of_nat (size (Router.handlers rt)))%Z); mrun.
  { right. split; [discriminate | repeat split]. }
  match goal with
  | |- context [sendAndAwaitResponse _ _ ?g ?c ?req frames pick ?w1] =>
      pose proof (request_acknowledged jsonUnmarshal protoUnmarshal g c req frames pick w1)
        as Hack;
      destruct (sendAndAwaitResponse_run jsonUnmarshal protoUnmarshal g c req frames pick w1)
        as (r & w' & t & Hrun & Hs & Hshape); rewrite Hrun in Hack |- *
  end.
  cbn in Hack.
  unfold sameButPromises in Hs. cbn in Hs. rewrite Hs. clear Hs Hrun.
  inversion Hshape; subst; mrun;
    try (right; split; [discriminate | repeat split]).
  destruct (Hack eq_refl) as (m & Hm & Hacc).
  left. exists msg, t0. eexists. exists m.
  split; [reflexivity|]. split; [cbn; by rewrite <- app_assoc|].
  split; [done|]. split; [reflexivity|]. by repeat split.
Qed.

End SubscribeRuns.

(** C5, as the code has it.  In every state of the spot market session in
    which the Router's count is at least the maximum of 30 and the key of the
    spec is not already active, [Subscribe] returns the
    subscription-limit-exceeded error and leaves the whole session state as
    it was: nothing is written to the connection, the active-subscription map
    and the Router are unchanged.  And in every state, [Subscribe] either
    returns a handle, in which case the request was written and awaited, a
    frame carrying the id drawn for the request arrived during that wait,
    the first such frame passed the predicate of the spec (the successful
    acknowledgment), and the Router was entered only after that wait; or it
    returns no handle and leaves the registrations (active-subscription map,
    handles, Router) as they were. *)
Theorem Subscribe_limit_rejected
    (jsonUnmarshal : string -> unmarshaled SpotMarket.message)
    (protoUnmarshal : string -> option SpotMarket.PushDataV3MarketWrapper)
    (ctx : context) (frames : list string) (pick : nat)
    (w : SpotMarket.WSMarket) (sub : SpotMarket.Subscription) :
  SpotMarket.activeSubs w !! SpotMarket.id sub = None →
  (SpotMarket.maxCountSubscribes
     ≤ Z.of_nat (size (Router.handlers (SpotMarket.router w))))%Z →
  SpotMarket.Subscribe jsonUnmarshal protoUnmarshal ctx (Some sub) frames pick w
    = (Ret (inr spotLimitError), w,
       [EvLock Caller activeSubsMu; EvLock Caller routerMu; EvUnlock Caller routerMu;
        EvUnlock Caller activeSubsMu]) ∧
  Sdkerr.Cause spotLimitError = Some SpotMarket.ErrMaxCountSubscribes ∧
  SpotMarket.maxCountSubscribes = 30%Z ∧
  ∀ ctx' sub' frames' pick' (w0 : SpotMarket.WSMarket),
    let run :=
      SpotMarket.Subscribe jsonUnmarshal protoUnmarshal ctx' (Some sub') frames' pick' w0 in
    (∃ msg t i m,
        result run = Ret (inl (length (SpotMarket.wrappers w0))) ∧
        trace run =
          [EvLock Caller activeSubsMu; EvLock Caller routerMu; EvUnlock Caller routerMu]
          ++ sentAndWaiting Caller msg ++ t
          ++ [EvLock Caller routerMu; EvUnlock Caller routerMu; EvUnlock Caller activeSubsMu] ∧
        noAwait t ∧
        result (SpotMarket.createID w0) = Ret i ∧
        Replies.replyTo jsonUnmarshal i frames' = Some m ∧
        fst (SpotMarket.matches sub' m) = true ∧
        Router.handlers (SpotMarket.router (final run))
          = <[SpotMarket.subAddr sub' := sub']> (Router.handlers (SpotMarket.router w0)) ∧
        SpotMarket.activeSubs (final run)
          = <[SpotMarket.id sub' := length (SpotMarket.wrappers w0)]> (SpotMarket.activeSubs w0)) ∨
    ((∀ h, result run ≠ Ret (inl h)) ∧ sameRegistrations w0 (final run)).
Proof.
  intros Hnew Hfull. split; [by apply Subscribe_limit|].
  split; [reflexivity|]. split; [reflexivity|].
  intros ctx' sub' frames' pick' w0. apply Subscribe_registers_after_ack.
Qed.

Lemma Subscribe_limit_rejected_witness :
  SpotMarket.Subscribe Examples.decodeAck Examples.noProto ctxLive
      (Some (Examples.tradeSub 30)) [] 0 Examples.saturated
    = (Ret (inr spotLimitError), Examples.saturated,
       [EvLock Caller activeSubsMu; EvLock Caller routerMu; EvUnlock Caller routerMu;
        EvUnlock Caller activeSubsMu]).
Proof.
  apply (Subscribe_limit_rejected Examples.decodeAck Examples.noProto ctxLive [] 0
           Examples.saturated (Examples.tradeSub 30)).
  - vm_compute. reflexivity.
  - vm_compute. discriminate.
Defined.

(** C5, counterexample.  The Router holds 30 handlers, the maximum, and the
    spec's key is one of the active ones: [Subscribe] fails with the
    duplicate-subscription error, not with subscription-limit-exceeded. *)
Lemma Subscribe_limit_duplicate_counterexample :
  (SpotMarket.maxCountSubscribes
     ≤ Z.of_nat (size (Router.handlers (SpotMarket.router Examples.saturated))))%Z ∧
  ∃ e,
    result (SpotMarket.Subscribe Examples.decodeAck Examples.noProto ctxLive
              (Some (Examples.tradeSub 7)) [] 0 Examples.saturated) = Ret (inr e) ∧
    Sdkerr.Cause e = Some SpotMarket.ErrDuplicateSubscription ∧
    Sdkerr.Cause e ≠ Some SpotMarket.ErrMaxCountSubscribes.
Proof.
  split; [vm_compute; discriminate|].
  eexists. split; [vm_compute; reflexivity|]. split; [reflexivity | discriminate].
Qed.

(** ** Claiming inbound frames *)

Section RouterFacts.
Context {H : Type}.

Lemma Router_Route_run (accepts : H → string → bool) g data (r : Router.handlerRouterImp H) :
  ∃ t, Router.Route accepts g data r = (Ret tt, r, t) ∧ noAwait t ∧ EvRoute data ∈ t.
Proof.
  unfold Router.Route. munfold.
  assert (∀ hs r0, ∃ t, Router.dispatch accepts hs data r0 = (Ret tt, r0, t) ∧ noAwait t) as Hd.
  { induction hs as [|[a h] hs IH]; intros r0; cbn [Router.dispatch].
    - eexists; split; [reflexivity | constructor].
    - munfold. destruct (IH r0) as (t & Ht & Hna).
      destruct (accepts h data); cbn; rewrite Ht; eexists; (split; [reflexivity|]);
        solve_shape. }
  destruct (Hd (map_to_list (Router.handlers r)) r) as (t & Ht & Hna).
  cbn. rewrite Ht. eexists. split; [reflexivity|]. split.
  - solve_shape.
  - apply elem_of_cons. right. apply elem_of_app. left. apply elem_of_cons. by left.
Qed.

End RouterFacts.

Section FuturesFrames.
Import FuturesUser.
Variable jsonUnmarshal : string -> unmarshaled message.

Lemma futures_not_mine data msg p (w : WSUser) :
  jsonUnmarshal data = Decoded msg →
  promise w = Some p →
  fst (Wsutil.Match p msg) = false →
  ∃ t, handleMessage jsonUnmarshal data w = (Ret tt, w, t) ∧ EvRoute data ∈ t.
Proof.
  intros Hm Hp Hno. unfold handleMessage, withRouter. rewrite Hm. mrun. rewrite Hp.
  destruct (Wsutil.Match p msg) as [ok e]. cbn in Hno. subst ok.
  destruct (Router_Route_run (routerAccepts jsonUnmarshal) ReadLoop data (router w))
    as (t & Ht & _ & Hin).
  rewrite Ht. destruct w; cbn. eexists. split; [reflexivity|].
  apply elem_of_cons. right. apply elem_of_app. by left.
Qed.

Lemma futures_settled_only_if_mine data msg p (w : WSUser) :
  jsonUnmarshal data = Decoded msg →
  promise w = Some p →
  ∀ p', promise (final (handleMessage jsonUnmarshal data w)) = Some p' →
        (Wsutil.errCh p' ≠ Wsutil.errCh p → ∃ e, Wsutil.Match p msg = (true, Some e)) ∧
        (Wsutil.resCh p' ≠ Wsutil.resCh p → Wsutil.Match p msg = (true, None)).
Proof.
  intros Hm Hp p'. unfold handleMessage, withRouter, withPromise. rewrite Hm. mrun. rewrite Hp.
  destruct (Wsutil.Match p msg) as [[|] [e|]].
  - unfold Wsutil.Reject, Chan.send. mrun.
    destruct (Wsutil.once p); mrun; [|destruct (Chan.full _ _); mrun];
      intros [= <-]; split; eauto; cbn; congruence.
  - unfold Wsutil.Resolve, Chan.send. mrun.
    destruct (Wsutil.once p); mrun; [|destruct (Chan.full _ _); mrun];
      intros [= <-]; split; eauto; cbn; congruence.
  - destruct (Router_Route_run (routerAccepts jsonUnmarshal) ReadLoop data (router w))
      as (t & Ht & _). rewrite Ht. destruct w; cbn in *. subst.
    intros [= <-]. split; congruence.
  - destruct (Router_Route_run (routerAccepts jsonUnmarshal) ReadLoop data (router w))
      as (t & Ht & _). rewrite Ht. destruct w; cbn in *. subst.
    intros [= <-]. split; congruence.
Qed.

End FuturesFrames.

Section SpotFrames.
Import SpotMarket.
Variable jsonUnmarshal : string -> unmarshaled message.
Variable protoUnmarshal : string -> option PushDataV3MarketWrapper.

Lemma spot_claims_by_id data m q (w : WSMarket) :
  isJSONMessage data = true →
  jsonUnmarshal data = Decoded m →
  promisesMap w !! ID m = Some q →
  Wsutil.settlementOf q = Some Wsutil.Pending →
  handleMessage jsonUnmarshal protoUnmarshal data w
    = (Ret tt,
       setPromisesMap
         (<[ID m := Wsutil.afterCall (Wsutil.matchFn q)
                      (if fst (Wsutil.Match q m) then Wsutil.CallResolve m
                       else Wsutil.CallReject
                              (fmtErrorf "code=%d, msg=%q" [ArgInt (Code m); ArgStr (Msg m)]))]>
            (promisesMap w)) w,
       [EvLock ReadLoop promisesMu; EvUnlock ReadLoop promisesMu]).
Proof.
  intros Hj Hm Hq Hpending. unfold handleMessage, handleJSONMessage.
  rewrite Hj, Hm. mrun. rewrite Hq.
  destruct q as [f rc ec o]. unfold Wsutil.settlementOf in Hpending. cbn in Hpending.
  destruct o, rc, ec; try discriminate; try (destruct rc; discriminate);
    try (destruct ec; discriminate).
  destruct (fst (Wsutil.Match _ m)); reflexivity.
Qed.

End SpotFrames.

(** C2, as the code has it.  In the futures user session, whose read loop
    offers every decoded frame to the pending promise: when the predicate
    answers accepted=false the promise is neither resolved nor rejected (the
    session state is untouched) and the frame is routed; the promise is
    rejected by a frame only when the predicate accepts it and signals an
    error, and resolved only when it accepts without error.  In the spot
    market session a JSON frame is claimed by its id instead: the pending
    promise registered under the id of the frame is resolved when the
    predicate accepts and rejected when it does not, and the frame is not
    routed. *)
Theorem frame_claiming
    (jsonUnmarshal : string -> unmarshaled FuturesUser.message)
    (w : FuturesUser.WSUser) (data : string) (msg : FuturesUser.message)
    (p : Wsutil.promiseImp FuturesUser.message) :
  jsonUnmarshal data = Decoded msg →
  FuturesUser.promise w = Some p →
  let run := FuturesUser.handleMessage jsonUnmarshal data w in
  (fst (Wsutil.Match p msg) = false → ∃ t, run = (Ret tt, w, t) ∧ EvRoute data ∈ t) ∧
  (∀ p', FuturesUser.promise (final run) = Some p' →
         (Wsutil.errCh p' ≠ Wsutil.errCh p → ∃ e, Wsutil.Match p msg = (true, Some e)) ∧
         (Wsutil.resCh p' ≠ Wsutil.resCh p → Wsutil.Match p msg = (true, None))) ∧
  ∀ (jsonSpot : string -> unmarshaled SpotMarket.message)
    (protoSpot : string -> option SpotMarket.PushDataV3MarketWrapper)
    (ws : SpotMarket.WSMarket) (frame : string) (m : SpotMarket.message)
    (q : Wsutil.promiseImp SpotMarket.message),
    SpotMarket.isJSONMessage frame = true →
    jsonSpot frame = Decoded m →
    SpotMarket.promisesMap ws !! SpotMarket.ID m = Some q →
    Wsutil.settlementOf q = Some Wsutil.Pending →
    SpotMarket.handleMessage jsonSpot protoSpot frame ws
      = (Ret tt,
         SpotMarket.setPromisesMap
           (<[SpotMarket.ID m :=
                Wsutil.afterCall (Wsutil.matchFn q)
                  (if fst (Wsutil.Match q m) then Wsutil.CallResolve m
                   else Wsutil.CallReject
                          (fmtErrorf "code=%d, msg=%q"
                             [ArgInt (SpotMarket.Code m); ArgStr (SpotMarket.Msg m)]))]>
              (SpotMarket.promisesMap ws)) ws,
         [EvLock ReadLoop promisesMu; EvUnlock ReadLoop promisesMu]).
Proof.
  intros Hm Hp run. split; [|split].
  - intros Hno. by eapply futures_not_mine.
  - intros p' Hp'. by eapply futures_settled_only_if_mine.
  - intros jsonSpot protoSpot ws frame m q. apply spot_claims_by_id.
Qed.

Lemma frame_claiming_witness :
  ∃ t, FuturesUser.handleMessage Examples.decodeAsset Examples.assetFrame Examples.awaitingPong
         = (Ret tt, Examples.awaitingPong, t) ∧
       EvRoute Examples.assetFrame ∈ t.
Proof.
  apply (frame_claiming Examples.decodeAsset Examples.awaitingPong Examples.assetFrame
           Examples.assetPush
           (Wsutil.NewPromise (FuturesUser.MatchFunc FuturesUser.pingRequest)));
    reflexivity.
Defined.

(** C2, counterexample.  In the spot market session a subscribe request with
    id 1 is pending and the server answers with a frame carrying that id
    which the request's predicate does not accept: the promise is rejected
    with this frame, and the frame is not offered to the Router. *)
Lemma spot_rejects_unaccepted_counterexample :
  fst (Wsutil.Match (Wsutil.NewPromise (SpotMarket.matches Examples.depthSub)) Examples.nack)
    = false ∧
  Wsutil.settlementOf <$>
    (SpotMarket.promisesMap
       (final (SpotMarket.handleMessage Examples.decodeNack Examples.noProto Examples.nackFrame
                 Examples.awaitingAck)) !! 1%Z)
    = Some (Some (Wsutil.Rejected
                    (fmtErrorf "code=%d, msg=%q"
                       [ArgInt 500; ArgStr "Not Subscribed successfully"]))) ∧
  trace (SpotMarket.handleMessage Examples.decodeNack Examples.noProto Examples.nackFrame
           Examples.awaitingAck)
    = [EvLock ReadLoop promisesMu; EvUnlock ReadLoop promisesMu].
Proof. vm_compute. repeat split. Qed.

(** ** Locks held while awaiting *)

Section LockFacts.

Lemma heldAtAwait_noAwait g held t :
  noAwait t → heldAtAwait g held t = [].
Proof.
  intros Hn. revert held. induction Hn as [|e t He _ IH]; intros held; [reflexivity|].
  destruct e; try discriminate; cbn; apply IH.
Qed.

Lemma heldAtAwait_app g held t rest :
  noAwait t → ∃ held', heldAtAwait g held (t ++ rest) = heldAtAwait g held' rest.
Proof.
  intros Hn. revert held. induction Hn as [|e t He _ IH]; intros held; [by eexists|].
  destruct e; try discriminate; cbn; apply IH.
Qed.

(** A trace without [Await] satisfies every condition on awaits. *)
Lemma releasedAtAwait_noAwait g m t : noAwait t → releasedAtAwait g m t.
Proof. intros Hn. unfold releasedAtAwait. by rewrite heldAtAwait_noAwait. Qed.

Lemma heldAcrossAwait_noAwait g m t : noAwait t → heldAcrossAwait g m t.
Proof. intros Hn. unfold heldAcrossAwait. by rewrite heldAtAwait_noAwait. Qed.

End LockFacts.

(** After the known prefix of a trace, skip a part without [Await]. *)
Ltac skip_quiet t :=
  match goal with
  | Hn : noAwait t |- context [heldAtAwait ?g ?held (t ++ ?rest)] =>
      let held' := fresh "held" in
      let Hh := fresh "Hh" in
      destruct (heldAtAwait_app g held t rest Hn) as [held' Hh]; rewrite Hh; clear Hh
  end.

Ltac solve_held :=
  unfold releasedAtAwait, heldAcrossAwait, sentAndWaiting; cbn;
  rewrite <- ?app_assoc; cbn;
  repeat match goal with
         | Hn : noAwait ?t |- context [heldAtAwait _ _ (?t ++ _)] => skip_quiet t; cbn
         | Hn : noAwait ?t |- context [heldAtAwait _ _ ?t] =>
             rewrite (heldAtAwait_noAwait _ _ t Hn); cbn
         end;
  repeat constructor.

Section SpotLocks.
Import SpotMarket.
Variable jsonUnmarshal : string -> unmarshaled message.
Variable protoUnmarshal : string -> option PushDataV3MarketWrapper.

Lemma spot_Subscribe_locks ctx sub frames pick (w : WSMarket) :
  let t := trace (Subscribe jsonUnmarshal protoUnmarshal ctx sub frames pick w) in
  releasedAtAwait Caller promisesMu t ∧ heldAcrossAwait Caller activeSubsMu t.
Proof.
  destruct sub as [sub|]; [|split; solve_held].
  unfold Subscribe, withRouter, Router.Len, Router.Register, createID.
  destruct w as [cl od ol a wr pm ct rt so se]. mrun.
  destruct (bool_decide (is_Some (a !! id sub))); mrun; [split; solve_held|].
  destruct (bool_decide (maxCountSubscribes ≤ Z.of_nat (size (Router.handlers rt)))%Z); mrun;
    [split; solve_held|].
  match goal with
  | |- context [sendAndAwaitResponse _ _ ?g ?c ?req frames pick ?w1] =>
      destruct (sendAndAwaitResponse_run jsonUnmarshal protoUnmarshal g c req frames pick w1)
        as (r & w' & t & Hrun & Hs & Hshape); rewrite Hrun
  end.
  inversion Hshape; subst; mrun; split; solve_held.
Qed.

End SpotLocks.

Section SpotLocksMore.
Import SpotMarket.
Variable jsonUnmarshal : string -> unmarshaled message.
Variable protoUnmarshal : string -> option PushDataV3MarketWrapper.

Lemma spot_Unsubscribe_locks h ctx frames pick (w : WSMarket) :
  let t := trace (Unsubscribe jsonUnmarshal protoUnmarshal h ctx frames pick w) in
  releasedAtAwait Caller promisesMu t ∧ heldAcrossAwait Caller activeSubsMu t.
Proof.
  unfold Unsubscribe, withRouter, Router.Unregister, createID, setWrapper.
  destruct w as [cl od ol a wr pm ct rt so se]. mrun.
  destruct (wr !! h) as [s|] eqn:Hh; mrun; [|split; solve_held].
  rewrite Hh. cbn. destruct (wOnce s); mrun; [split; solve_held|].
  match goal with
  | |- context [sendAndAwaitResponse _ _ ?g ?c ?req frames pick ?w1] =>
      destruct (sendAndAwaitResponse_run jsonUnmarshal protoUnmarshal g c req frames pick w1)
        as (r & w' & t & Hrun & Hs & Hshape); rewrite Hrun
  end.
  inversion Hshape; subst; mrun; split; solve_held.
Qed.

Lemma spot_sendPing_locks ctx frames pick (w : WSMarket) :
  releasedAtAwait Pinger promisesMu
    (trace (sendPing jsonUnmarshal protoUnmarshal ctx frames pick w)).
Proof.
  unfold sendPing. mrun.
  match goal with
  | |- context [sendAndAwaitResponse _ _ ?g ?c ?req frames pick ?w1] =>
      destruct (sendAndAwaitResponse_run jsonUnmarshal protoUnmarshal g c req frames pick w1)
        as (r & w' & t & Hrun & Hs & Hshape); rewrite Hrun
  end.
  inversion Hshape; subst; mrun; try destruct (onLatency w'); mrun; solve_held.
Qed.

End SpotLocksMore.

Section FuturesLocks.
Import FuturesUser.
Variable jsonUnmarshal : string -> unmarshaled message.
Variable jsonUnmarshalString : string -> option string.

Lemma futures_settle_run p (c : Wsutil.call message) (w : WSUser) :
  ∃ r w', withPromise p (Wsutil.doCall c) w = (r, w', []).
Proof.
  unfold withPromise. destruct c; cbn [Wsutil.doCall];
    unfold Wsutil.Resolve, Wsutil.Reject, Chan.send; mrun;
    destruct (Wsutil.once p); mrun; try destruct (Chan.full _ _); mrun; by do 2 eexists.
Qed.

Lemma futures_Route_run data (w : WSUser) :
  ∃ t, withRouter (Router.Route (routerAccepts jsonUnmarshal) ReadLoop data) w = (Ret tt, w, t) ∧
       noAwait t.
Proof.
  unfold withRouter. munfold.
  destruct (Router_Route_run (routerAccepts jsonUnmarshal) ReadLoop data (router w))
    as (t & Ht & Hn & _).
  rewrite Ht. destruct w. by eexists.
Qed.

Lemma futures_handleMessage_run data (w : WSUser) :
  ∃ r w' t, handleMessage jsonUnmarshal data w = (r, w', t) ∧ noAwait t.
Proof.
  unfold handleMessage.
  destruct (jsonUnmarshal data) as [| |msg]; mrun.
  - do 3 eexists. split; [reflexivity | solve_shape].
  - destruct (bool_decide (is_Some (promise w))); mrun.
    + do 3 eexists. split; [reflexivity | solve_shape].
    + unfold withRouter, routeNil. mrun.
      destruct (bool_decide (Router.handlers (router w) = ∅)); mrun;
        do 3 eexists; (split; [reflexivity | solve_shape]).
  - destruct (promise w) as [p|]; cbn.
    + destruct (Wsutil.Match p msg) as [[|] [e|]].
      * destruct (futures_settle_run p (Wsutil.CallReject e) w) as (r & w' & Hr).
        cbn [Wsutil.doCall] in Hr. rewrite Hr.
        destruct r; do 3 eexists; (split; [reflexivity | solve_shape]).
      * destruct (futures_settle_run p (Wsutil.CallResolve msg) w) as (r & w' & Hr).
        cbn [Wsutil.doCall] in Hr. rewrite Hr.
        destruct r; do 3 eexists; (split; [reflexivity | solve_shape]).
      * destruct (futures_Route_run data w) as (t & Ht & Hn). rewrite Ht.
        do 3 eexists. split; [reflexivity | solve_shape].
      * destruct (futures_Route_run data w) as (t & Ht & Hn). rewrite Ht.
        do 3 eexists. split; [reflexivity | solve_shape].
    + destruct (futures_Route_run data w) as (t & Ht & Hn). rewrite Ht.
      do 3 eexists. split; [reflexivity | solve_shape].
Qed.

Lemma futures_handleMessages_run frames (w : WSUser) :
  ∃ r w' t, handleMessages jsonUnmarshal frames w = (r, w', t) ∧ noAwait t.
Proof.
  revert w. induction frames as [|data frames IH]; intros w; cbn [handleMessages].
  - do 3 eexists. split; [reflexivity | solve_shape].
  - unfold bind.
    destruct (futures_handleMessage_run data w) as (r & w1 & t1 & H1 & Hn1). rewrite H1.
    destruct r; [|do 3 eexists; (split; [reflexivity | solve_shape])..].
    destruct (IH w1) as (r2 & w2 & t2 & H2 & Hn2). rewrite H2.
    do 3 eexists. split; [reflexivity | solve_shape].
Qed.

(** A request of the futures session either never waits, or its trace is
    that of a request written and awaited, followed by events without an
    [Await]. *)
Lemma futures_sendAndAwaitResponse_run g ctx req frames pick (w : WSUser) :
  ∃ r w' t,
    sendAndAwaitResponse jsonUnmarshal g ctx req frames pick w = (r, w', t) ∧
    (noAwait t ∨ ∃ msg t', t = sentAndWaiting g msg ++ t' ∧ noAwait t').
Proof.
  unfold sendAndAwaitResponse, withClient, withPromise, Ws.WriteMessage, Ws.errorf.
  destruct w as [[cc lg u och cap co ce] ak sk nw od ol a wr pr rt so se].
  mrun. destruct (Message req) as [msg|e]; mrun.
  2:{ do 3 eexists. split; [reflexivity|]. left. solve_shape. }
  destruct cc as [cn|]; mrun.
  2:{ do 3 eexists. split; [reflexivity|]. left. solve_shape. }
  destruct (Ws.connSetWriteDeadline cn) as [e|]; mrun.
  { destruct lg; mrun; do 3 eexists; (split; [reflexivity|]); left; solve_shape. }
  destruct (Ws.connWriteMessage cn) as [e|]; mrun.
  { destruct lg; mrun; do 3 eexists; (split; [reflexivity|]); left; solve_shape. }
  match goal with
  | |- context [handleMessages _ frames ?w1] =>
      destruct (futures_handleMessages_run frames w1) as (r & w2 & t & Hf & Hn)
  end.
  rewrite Hf.
  destruct r; mrun.
  2,3: do 3 eexists; (split; [reflexivity|]); right; exists msg; eexists;
       (split; [reflexivity | solve_shape]).
  match goal with
  | |- context [Wsutil.Await ctx pick ?p] =>
      destruct (Await_run ctx pick p) as [HA | (ra & p' & HA & Hin)]; rewrite HA
  end; mrun.
  { do 3 eexists. split; [reflexivity|]. right. exists msg. eexists.
    split; [reflexivity | solve_shape]. }
  apply awaitCases_inv in Hin as [(m & -> & _) | [(e & -> & _) | (e & -> & Hctx)]]; mrun;
    do 3 eexists; (split; [reflexivity|]); right; exists msg; eexists;
    (split; [reflexivity | solve_shape]).
Qed.

Lemma futures_login_locks ctx frames pick (w : WSUser) :
  let t := trace (login jsonUnmarshal jsonUnmarshalString ctx frames pick w) in
  releasedAtAwait Caller promisesMu t ∧ heldAcrossAwait Caller activeSubsMu t.
Proof.
  unfold login. mrun.
  match goal with
  | |- context [sendAndAwaitResponse _ ?g ?c ?req frames pick ?w1] =>
      destruct (futures_sendAndAwaitResponse_run g c req frames pick w1)
        as (r & w' & t & Hrun & Hshape); rewrite Hrun
  end.
  destruct Hshape as [Hn | (msg & t' & -> & Hn)];
    destruct r as [[e|]| |]; mrun; split; solve_held.
Qed.

Lemma futures_sendPing_locks ctx frames pick (w : WSUser) :
  let t := trace (sendPing jsonUnmarshal ctx frames pick w) in
  releasedAtAwait Pinger promisesMu t ∧ heldAcrossAwait Pinger activeSubsMu t.
Proof.
  unfold sendPing. mrun.
  match goal with
  | |- context [sendAndAwaitResponse _ ?g ?c ?req frames pick ?w1] =>
      destruct (futures_sendAndAwaitResponse_run g c req frames pick w1)
        as (r & w' & t & Hrun & Hshape); rewrite Hrun
  end.
  destruct Hshape as [Hn | (msg & t' & -> & Hn)];
    destruct r as [[e|]| |]; mrun; try destruct (onLatency w'); mrun; split; solve_held.
Qed.

End FuturesLocks.

(** ** The lock of the pending promises around each store *)

Ltac solve_readLoop :=
  unfold Narrow.readLoopOnly in *;
  repeat first [ assumption | apply Forall_nil_2 | apply Forall_app; split
               | apply Forall_cons; split; [reflexivity|] ].

Section NarrowFacts.
Import Narrow.

(** The events of the read loop leave another goroutine where it stands. *)
Lemma narrow_readLoop g s t :
  goroutine_eqb ReadLoop g = false → phase s = Outside → readLoopOnly t →
  foldl (narrowStep g) (Some s) t = Some s.
Proof.
  intros Hg Hs Ht. induction Ht as [|e t He _ IH]; [done|].
  cbn [foldl]. replace (narrowStep g (Some s) e) with (Some s); [exact IH|].
  unfold narrowStep, mine. rewrite Hs.
  destruct e as [g' m|g' m| | | | | | | | |]; try discriminate He; try reflexivity;
    destruct g'; try discriminate He; by rewrite Hg.
Qed.

Lemma Router_Route_readLoop {H} (accepts : H → string → bool) data
    (r : Router.handlerRouterImp H) :
  ∃ t, Router.Route accepts ReadLoop data r = (Ret tt, r, t) ∧ readLoopOnly t.
Proof.
  unfold Router.Route. munfold.
  assert (∀ hs r, ∃ t, Router.dispatch accepts hs data r = (Ret tt, r, t) ∧
                       readLoopOnly t) as Hd.
  { induction hs as [|[a h] hs IH]; intros r0; cbn [Router.dispatch].
    - eexists; split; [reflexivity | constructor].
    - munfold. destruct (IH r0) as (t & Ht & Hna).
      destruct (accepts h data); cbn; rewrite Ht; eexists; (split; [reflexivity|]);
        solve_readLoop. }
  destruct (Hd (map_to_list (Router.handlers r)) r) as (t & Ht & Hna).
  cbn. rewrite Ht. cbn. eexists; split; [reflexivity|]. solve_readLoop.
Qed.

End NarrowFacts.

Section SpotNarrow.
Import SpotMarket Narrow.
Variable jsonUnmarshal : string -> unmarshaled message.
Variable protoUnmarshal : string -> option PushDataV3MarketWrapper.

(** A request of the spot session, from the side of its goroutine: each of
    its stores is alone between taking and releasing the lock, and the lock
    is free when it waits and when it is done. *)
Lemma spot_request_narrow g ctx req frames pick (w : WSMarket) s :
  goroutine_eqb ReadLoop g = false → phase s = Outside →
  narrowRun g (Some s)
    (trace (sendAndAwaitResponse jsonUnmarshal protoUnmarshal g ctx req frames pick w))
    = Some {| phase := Outside; stored := true |}.
Proof.
  intros Hg Hs. destruct s as [ph st]. cbn in Hs. subst ph.
  unfold narrowRun, sendAndAwaitResponse, withClient, withPromise, Ws.WriteMessage, Ws.errorf.
  destruct w as [[cc lg u och cap co ce] od ol a wr pm ct rt so se].
  mrun. destruct (Message req) as [msg|e]; mrun.
  2:{ by destruct g. }
  destruct cc as [cn|]; mrun.
  2:{ by destruct g. }
  destruct (Ws.connSetWriteDeadline cn) as [e|]; mrun.
  { destruct lg; mrun; by destruct g. }
  destruct (Ws.connWriteMessage cn) as [e|]; mrun.
  { destruct lg; mrun; by destruct g. }
  match goal with
  | |- context [handleMessages _ _ frames ?w1] =>
      destruct (handleMessages_deliver jsonUnmarshal protoUnmarshal frames w1)
        as (r & w2 & t & Hf & Hr & _ & _ & Hrl)
  end.
  rewrite Hf.
  pose proof (fun s Hs => narrow_readLoop g s t Hg Hs Hrl) as Hskip.
  destruct Hr as [-> | [-> | ->]]; mrun.
  2,3: destruct g; try discriminate; cbn; rewrite ?foldl_app, Hskip by reflexivity;
       reflexivity.
  match goal with
  | |- context [Wsutil.Await ctx pick ?p] =>
      destruct (Await_run ctx pick p) as [HA | (ra & p' & HA & Hin)]; rewrite HA
  end; mrun.
  { destruct g; try discriminate; cbn; rewrite ?foldl_app, ?app_nil_r, Hskip by reflexivity;
      reflexivity. }
  apply awaitCases_inv in Hin as [(m & -> & _) | [(e & -> & _) | (e & -> & Hctx)]]; mrun;
    destruct g; try discriminate; cbn; rewrite ?foldl_app, Hskip by reflexivity;
    reflexivity.
Qed.

Ltac with_request :=
  match goal with
  | |- context [sendAndAwaitResponse _ _ ?g ?c ?req ?frames ?pick ?w1] =>
      let Hreq := fresh "Hreq" in
      let Hrun := fresh "Hrun" in
      let r := fresh "r" in
      let w' := fresh "w'" in
      let t := fresh "t" in
      pose proof (fun s Hs =>
                    spot_request_narrow g c req frames pick w1 s eq_refl Hs) as Hreq;
      destruct (sendAndAwaitResponse jsonUnmarshal protoUnmarshal g c req frames pick w1)
        as [[r w'] t] eqn:Hrun;
      unfold narrowRun in Hreq; cbn [trace fst snd] in Hreq
  end.

Lemma spot_Subscribe_narrow ctx sub frames pick (w : WSMarket) :
  storesUnderLock Caller
    (trace (Subscribe jsonUnmarshal protoUnmarshal ctx sub frames pick w)) = true.
Proof.
  destruct sub as [sub|]; [|reflexivity].
  unfold storesUnderLock, narrowRun, Subscribe, withRouter, Router.Len, Router.Register,
    createID.
  destruct w as [cl od ol a wr pm ct rt so se]. mrun.
  destruct (bool_decide (is_Some (a !! id sub))); mrun; [reflexivity|].
  destruct (bool_decide (maxCountSubscribes ≤ Z.of_nat (size (Router.handlers rt)))%Z); mrun;
    [reflexivity|].
  with_request.
  destruct r as [[e|]| |]; mrun; rewrite ?foldl_app, Hreq by reflexivity; reflexivity.
Qed.

Lemma spot_Unsubscribe_narrow h ctx frames pick (w : WSMarket) :
  storesUnderLock Caller
    (trace (Unsubscribe jsonUnmarshal protoUnmarshal h ctx frames pick w)) = true.
Proof.
  unfold storesUnderLock, narrowRun, Unsubscribe, withRouter, Router.Unregister, createID,
    setWrapper.
  destruct w as [cl od ol a wr pm ct rt so se]. mrun.
  destruct (wr !! h) as [s|] eqn:Hh; mrun; [|reflexivity].
  rewrite Hh. cbn. destruct (wOnce s); mrun; [reflexivity|].
  with_request.
  destruct r as [[e|]| |]; mrun; rewrite ?foldl_app, Hreq by reflexivity; reflexivity.
Qed.

Lemma spot_sendPing_narrow ctx frames pick (w : WSMarket) :
  storesUnderLock Pinger
    (trace (sendPing jsonUnmarshal protoUnmarshal ctx frames pick w)) = true.
Proof.
  unfold storesUnderLock, narrowRun, sendPing. mrun.
  with_request.
  destruct r as [[e|]| |]; mrun; try destruct (onLatency _); mrun;
    rewrite ?foldl_app, ?app_nil_r, Hreq by reflexivity; reflexivity.
Qed.

End SpotNarrow.

Section FuturesNarrow.
Import FuturesUser Narrow.
Variable jsonUnmarshal : string -> unmarshaled message.
Variable jsonUnmarshalString : string -> option string.

Lemma futures_Route_readLoop data (w : WSUser) :
  ∃ t, withRouter (Router.Route (routerAccepts jsonUnmarshal) ReadLoop data) w = (Ret tt, w, t) ∧
       readLoopOnly t.
Proof.
  unfold withRouter. munfold.
  destruct (Router_Route_readLoop (routerAccepts jsonUnmarshal) data (router w))
    as (t & Ht & Hn).
  rewrite Ht. destruct w. by eexists.
Qed.

Lemma futures_handleMessage_readLoop data (w : WSUser) :
  ∃ r w' t, handleMessage jsonUnmarshal data w = (r, w', t) ∧ readLoopOnly t.
Proof.
  unfold handleMessage.
  destruct (jsonUnmarshal data) as [| |msg]; mrun.
  - do 3 eexists. split; [reflexivity | solve_readLoop].
  - destruct (bool_decide (is_Some (promise w))); mrun.
    + do 3 eexists. split; [reflexivity | solve_readLoop].
    + unfold withRouter, routeNil. mrun.
      destruct (bool_decide (Router.handlers (router w) = ∅)); mrun;
        do 3 eexists; (split; [reflexivity | solve_readLoop]).
  - destruct (promise w) as [p|]; cbn.
    + destruct (Wsutil.Match p msg) as [[|] [e|]].
      * destruct (futures_settle_run p (Wsutil.CallReject e) w) as (r & w' & Hr).
        cbn [Wsutil.doCall] in Hr. rewrite Hr.
        destruct r; do 3 eexists; (split; [reflexivity | solve_readLoop]).
      * destruct (futures_settle_run p (Wsutil.CallResolve msg) w) as (r & w' & Hr).
        cbn [Wsutil.doCall] in Hr. rewrite Hr.
        destruct r; do 3 eexists; (split; [reflexivity | solve_readLoop]).
      * destruct (futures_Route_readLoop data w) as (t & Ht & Hn). rewrite Ht.
        do 3 eexists. split; [reflexivity | solve_readLoop].
      * destruct (futures_Route_readLoop data w) as (t & Ht & Hn). rewrite Ht.
        do 3 eexists. split; [reflexivity | solve_readLoop].
    + destruct (futures_Route_readLoop data w) as (t & Ht & Hn). rewrite Ht.
      do 3 eexists. split; [reflexivity | solve_readLoop].
Qed.

Lemma futures_handleMessages_readLoop frames (w : WSUser) :
  ∃ r w' t, handleMessages jsonUnmarshal frames w = (r, w', t) ∧ readLoopOnly t.
Proof.
  revert w. induction frames as [|data frames IH]; intros w; cbn [handleMessages].
  - do 3 eexists. split; [reflexivity | solve_readLoop].
  - unfold bind.
    destruct (futures_handleMessage_readLoop data w) as (r & w1 & t1 & H1 & Hn1). rewrite H1.
    destruct r; [|do 3 eexists; (split; [reflexivity | solve_readLoop])..].
    destruct (IH w1) as (r2 & w2 & t2 & H2 & Hn2). rewrite H2.
    do 3 eexists. split; [reflexivity | solve_readLoop].
Qed.

(** The same for a request of the futures session and its one slot. *)
Lemma futures_request_narrow g ctx req frames pick (w : WSUser) s :
  goroutine_eqb ReadLoop g = false → phase s = Outside →
  narrowRun g (Some s)
    (trace (sendAndAwaitResponse jsonUnmarshal g ctx req frames pick w))
    = Some {| phase := Outside; stored := true |}.
Proof.
  intros Hg Hs. destruct s as [ph st]. cbn in Hs. subst ph.
  unfold narrowRun, sendAndAwaitResponse, withClient, withPromise, Ws.WriteMessage, Ws.errorf.
  destruct w as [[cc lg u och cap co ce] ak sk nw od ol a wr pr rt so se].
  mrun. destruct (Message req) as [msg|e]; mrun.
  2:{ by destruct g. }
  destruct cc as [cn|]; mrun.
  2:{ by destruct g. }
  destruct (Ws.connSetWriteDeadline cn) as [e|]; mrun.
  { destruct lg; mrun; by destruct g. }
  destruct (Ws.connWriteMessage cn) as [e|]; mrun.
  { destruct lg; mrun; by destruct g. }
  match goal with
  | |- context [handleMessages _ frames ?w1] =>
      destruct (futures_handleMessages_readLoop frames w1) as (r & w2 & t & Hf & Hrl)
  end.
  rewrite Hf.
  pose proof (fun s Hs => narrow_readLoop g s t Hg Hs Hrl) as Hskip.
  destruct r; mrun.
  2,3: destruct g; try discriminate; cbn; rewrite ?foldl_app, Hskip by reflexivity;
       reflexivity.
  match goal with
  | |- context [Wsutil.Await ctx pick ?p] =>
      destruct (Await_run ctx pick p) as [HA | (ra & p' & HA & Hin)]; rewrite HA
  end; mrun.
  { destruct g; try discriminate; cbn; rewrite ?foldl_app, ?app_nil_r, Hskip by reflexivity;
      reflexivity. }
  apply awaitCases_inv in Hin as [(m & -> & _) | [(e & -> & _) | (e & -> & Hctx)]]; mrun;
    destruct g; try discriminate; cbn; rewrite ?foldl_app, Hskip by reflexivity;
    reflexivity.
Qed.

Ltac with_user_request :=
  match goal with
  | |- context [sendAndAwaitResponse _ ?g ?c ?req ?frames ?pick ?w1] =>
      let Hreq := fresh "Hreq" in
      let Hrun := fresh "Hrun" in
      let r := fresh "r" in
      let w' := fresh "w'" in
      let t := fresh "t" in
      pose proof (fun s Hs =>
                    futures_request_narrow g c req frames pick w1 s eq_refl Hs) as Hreq;
      destruct (sendAndAwaitResponse jsonUnmarshal g c req frames pick w1)
        as [[r w'] t] eqn:Hrun;
      unfold narrowRun in Hreq; cbn [trace fst snd] in Hreq
  end.

Lemma futures_login_narrow ctx frames pick (w : WSUser) :
  storesUnderLock Caller
    (trace (login jsonUnmarshal jsonUnmarshalString ctx frames pick w)) = true.
Proof.
  unfold storesUnderLock, narrowRun, login. mrun.
  with_user_request.
  destruct r as [[e|]| |]; mrun; rewrite ?foldl_app, ?app_nil_r, Hreq by reflexivity;
    reflexivity.
Qed.

Lemma futures_sendPing_narrow ctx frames pick (w : WSUser) :
  storesUnderLock Pinger (trace (sendPing jsonUnmarshal ctx frames pick w)) = true.
Proof.
  unfold storesUnderLock, narrowRun, sendPing. mrun.
  with_user_request.
  destruct r as [[e|]| |]; mrun; try destruct (onLatency _); mrun;
    rewrite ?foldl_app, ?app_nil_r, Hreq by reflexivity; reflexivity.
Qed.

End FuturesNarrow.

(** C8, as the code has it.  In every run of the operations that await a
    promise (Subscribe, Unsubscribe and ping of the spot market session,
    login and ping of the futures user session) the goroutine of the
    operation stores into the pending-promise slot/map only under the lock
    of that slot/map: it takes the lock, stores once and releases the lock,
    with nothing in between, for the registration of the promise and again
    for its removal; it has registered the promise before it enters its
    blocking await; and it does not hold that lock when it enters the await
    nor when the operation ends.  The lock of the active-subscription map is
    different: spot Subscribe and Unsubscribe and the futures login and ping
    hold it for the whole call, so it is held whenever they enter the
    await. *)
Theorem locks_at_await
    (jsonSpot : string -> unmarshaled SpotMarket.message)
    (protoSpot : string -> option SpotMarket.PushDataV3MarketWrapper)
    (jsonUser : string -> unmarshaled FuturesUser.message)
    (jsonString : string -> option string)
    (ctx : context) (frames : list string) (pick : nat)
    (ws : SpotMarket.WSMarket) (wu : FuturesUser.WSUser)
    (sub : option SpotMarket.Subscription) (h : nat) :
  let subscribeT := trace (SpotMarket.Subscribe jsonSpot protoSpot ctx sub frames pick ws) in
  let unsubscribeT := trace (SpotMarket.Unsubscribe jsonSpot protoSpot h ctx frames pick ws) in
  let pingT := trace (SpotMarket.sendPing jsonSpot protoSpot ctx frames pick ws) in
  let loginT := trace (FuturesUser.login jsonUser jsonString ctx frames pick wu) in
  let userPingT := trace (FuturesUser.sendPing jsonUser ctx frames pick wu) in
  (Narrow.storesUnderLock Caller subscribeT = true ∧
   Narrow.storesUnderLock Caller unsubscribeT = true ∧
   Narrow.storesUnderLock Pinger pingT = true ∧
   Narrow.storesUnderLock Caller loginT = true ∧
   Narrow.storesUnderLock Pinger userPingT = true) ∧
  (releasedAtAwait Caller promisesMu subscribeT ∧
   releasedAtAwait Caller promisesMu unsubscribeT ∧
   releasedAtAwait Pinger promisesMu pingT ∧
   releasedAtAwait Caller promisesMu loginT ∧
   releasedAtAwait Pinger promisesMu userPingT) ∧
  (heldAcrossAwait Caller activeSubsMu subscribeT ∧
   heldAcrossAwait Caller activeSubsMu unsubscribeT ∧
   heldAcrossAwait Caller activeSubsMu loginT ∧
   heldAcrossAwait Pinger activeSubsMu userPingT).
Proof.
  cbv zeta.
  pose proof (spot_Subscribe_locks jsonSpot protoSpot ctx sub frames pick ws) as [? ?].
  pose proof (spot_Unsubscribe_locks jsonSpot protoSpot h ctx frames pick ws) as [? ?].
  pose proof (spot_sendPing_locks jsonSpot protoSpot ctx frames pick ws).
  pose proof (futures_login_locks jsonUser jsonString ctx frames pick wu) as [? ?].
  pose proof (futures_sendPing_locks jsonUser ctx frames pick wu) as [? ?].
  pose proof (spot_Subscribe_narrow jsonSpot protoSpot ctx sub frames pick ws).
  pose proof (spot_Unsubscribe_narrow jsonSpot protoSpot h ctx frames pick ws).
  pose proof (spot_sendPing_narrow jsonSpot protoSpot ctx frames pick ws).
  pose proof (futures_login_narrow jsonUser jsonString ctx frames pick wu).
  pose proof (futures_sendPing_narrow jsonUser ctx frames pick wu).
  repeat split; assumption.
Qed.

(** C8, counterexample.  The acknowledged [Subscribe] of the spot market
    session enters its await once, and at that point the calling goroutine
    holds the lock of the active-subscription map. *)
Lemma Subscribe_awaits_under_lock_counterexample :
  heldAtAwait Caller []
    (trace (SpotMarket.Subscribe Examples.decodeAck Examples.noProto ctxLive
              (Some Examples.depthSub) [Examples.ackFrame] 0
              (Examples.connected Examples.goodConn)))
    = [[activeSubsMu]] ∧
  ¬ releasedAtAwait Caller activeSubsMu
      (trace (SpotMarket.Subscribe Examples.decodeAck Examples.noProto ctxLive
                (Some Examples.depthSub) [Examples.ackFrame] 0
                (Examples.connected Examples.goodConn))).
Proof.
  assert (Hheld :
    heldAtAwait Caller []
      (trace (SpotMarket.Subscribe Examples.decodeAck Examples.noProto ctxLive
                (Some Examples.depthSub) [Examples.ackFrame] 0
                (Examples.connected Examples.goodConn)))
      = [[activeSubsMu]]) by (vm_compute; reflexivity).
  split; [exact Hheld|].
  unfold releasedAtAwait. rewrite Hheld. intros Hall.
  apply Forall_cons in Hall as [Hno _]. discriminate.
Qed.

(** * Further properties of the code *)

(** ** The handler router *)

Section RouterLaws.
Context {H : Type}.
Variable addr : H → nat.

(** X1.  Registering counts a handler once: the count grows by one for a handler
    that was not registered and stays the same for one that was. *)
Theorem Register_Len (g : goroutine) (h : H) (r : Router.handlerRouterImp H) :
  result (Router.Register addr g h r) = Ret tt ∧
  result (Router.Len g (final (Router.Register addr g h r)))
    = Ret (match Router.handlers r !! addr h with
           | Some _ => Z.of_nat (size (Router.handlers r))
           | None => Z.of_nat (size (Router.handlers r)) + 1
           end)%Z ∧
  final (Router.Register addr g h (final (Router.Register addr g h r)))
    = final (Router.Register addr g h r).
Proof.
  unfold Router.Register, Router.Len. mrun. split; [reflexivity|]. split.
  - rewrite map_size_insert. destruct (Router.handlers r !! addr h); cbn; f_equal; lia.
  - by rewrite insert_insert_eq.
Qed.

(** X2.  Unregistering undoes a registration, and unregistering a handler that is
    not registered changes nothing. *)
Theorem Unregister_Register (g : goroutine) (h : H) (r : Router.handlerRouterImp H) :
  Router.handlers r !! addr h = None →
  final (Router.Unregister addr g h (final (Router.Register addr g h r))) = r ∧
  final (Router.Unregister addr g h r) = r ∧
  Router.handlers (final (Router.Unregister addr g h (final (Router.Register addr g h r))))
    !! addr h = None.
Proof.
  intros Hnew. unfold Router.Register, Router.Unregister. mrun.
  rewrite delete_insert_id by done. rewrite delete_id by done.
  destruct r; cbn in *. repeat split. exact Hnew.
Qed.

End RouterLaws.

Lemma Unregister_Register_witness :
  final (Router.Unregister SpotMarket.subAddr Caller Examples.depthSub
           (final (Router.Register SpotMarket.subAddr Caller Examples.depthSub
                     Router.newHandlerRouter)))
    = Router.newHandlerRouter.
Proof.
  apply (Unregister_Register SpotMarket.subAddr Caller Examples.depthSub
           Router.newHandlerRouter).
  reflexivity.
Defined.

Section RouteLaws.
Context {H : Type}.
Variable accepts : H → string → bool.

Lemma dispatch_run (hs : list (nat * H)) data (r : Router.handlerRouterImp H) :
  ∃ t, Router.dispatch accepts hs data r = (Ret tt, r, t) ∧
       handled t = (filter (λ ah, accepts ah.2 data = true) hs).*1 ∧
       Forall (λ e, ∃ a, e = EvHandleEvent a data) t.
Proof.
  induction hs as [|[a h] hs IH]; cbn [Router.dispatch].
  - eexists. split; [reflexivity|]. split; [reflexivity | constructor].
  - destruct IH as (t & Ht & Hh & Hall). munfold.
    rewrite filter_cons. cbn. destruct (accepts h data) eqn:Ha; cbn; rewrite Ht.
    + eexists. split; [reflexivity|]. rewrite decide_True by done. cbn.
      split; [by rewrite Hh|]. constructor; [by eexists | exact Hall].
    + eexists. split; [reflexivity|]. rewrite decide_False by done.
      split; [exact Hh | exact Hall].
Qed.

Lemma handled_app t1 t2 : handled (t1 ++ t2) = handled t1 ++ handled t2.
Proof.
  induction t1 as [|e t1 IH]; [reflexivity|]. destruct e; cbn; by rewrite ?IH.
Qed.

(** X3.  [Route] leaves the router as it is, releases its lock, and invokes
    every registered handler that accepts the frame exactly once and no
    other handler. *)
Theorem Route_delivers (g : goroutine) (data : string) (r : Router.handlerRouterImp H) :
  ∃ t, Router.Route accepts g data r
         = (Ret tt, r, EvLock g routerMu :: EvRoute data :: t ++ [EvUnlock g routerMu]) ∧
       Forall (λ e, ∃ a, e = EvHandleEvent a data) t ∧
       NoDup (handled t) ∧
       ∀ a, a ∈ handled t ↔
            ∃ h, Router.handlers r !! a = Some h ∧ accepts h data = true.
Proof.
  unfold Router.Route. munfold.
  destruct (dispatch_run (map_to_list (Router.handlers r)) data r) as (t & Ht & Hh & Hall).
  cbn. rewrite Ht. exists t. split; [reflexivity|]. split; [exact Hall|].
  rewrite Hh. split.
  - eapply NoDup_fmap_fst; [|apply NoDup_filter, NoDup_map_to_list].
    intros a h1 h2 H1 H2.
    apply list_elem_of_filter in H1 as [_ H1]. apply list_elem_of_filter in H2 as [_ H2].
    apply elem_of_map_to_list in H1, H2. congruence.
  - intros a. rewrite list_elem_of_fmap. split.
    + intros ([a' h] & -> & Hin). apply list_elem_of_filter in Hin as [Hacc Hin].
      apply elem_of_map_to_list in Hin. eauto.
    + intros (h & Hl & Hacc). exists (a, h). split; [reflexivity|].
      apply list_elem_of_filter. split; [exact Hacc|]. by apply elem_of_map_to_list.
Qed.

End RouteLaws.

(** ** The promise over its whole life *)

Section PromiseLife.
Import Wsutil PromiseOps.
Context {T : Type}.
Implicit Types (p : promiseImp T) (c : call T).

(** X4.  The outcome of a settled promise is delivered once.  After the
    [Await] that returned it, a further [Await] finds nothing: it waits for
    ever under a context that is not done and returns the context's error
    under one that is; and since later settlement calls stay without
    effect, nothing will be delivered again. *)
Theorem Await_delivers_once (f : T → bool * option error) c (pick pick' : nat) :
  let p1 := afterCall f c in
  let p2 := final (Await ctxLive pick p1) in
  result (Await ctxLive pick p1) = Ret (outcomeOf c) ∧
  Await ctxLive pick' p2 = (Block, p2, []) ∧
  (∀ e, Await (ctxDone e) pick' p2
          = (Ret (inr {| Source := FromContext; Err := e |}), p2, [])) ∧
  (∀ c', doCall c' p2 = (Ret tt, p2, [])).
Proof.
  cbv zeta.
  assert (HA : Await ctxLive pick (afterCall f c)
               = (Ret (outcomeOf c),
                  {| matchFn := f; resCh := []; errCh := []; once := true |}, [])).
  { unfold Await. mrun. rewrite awaitCases_afterCall. destruct pick; reflexivity. }
  rewrite HA. cbn [final result fst snd]. repeat split.
  - intros e. unfold Await. mrun. destruct pick'; reflexivity.
  - intros c'. by apply doCall_settled.
Qed.

Lemma Await_wellFormed ctx pick p :
  wellFormed p → wellFormed (final (Await ctx pick p)).
Proof.
  intros [Hfresh Hbuf]. destruct (Await_run ctx pick p) as [-> | (r & p' & -> & Hin)];
    [by split|]. cbn.
  unfold awaitCases in Hin. rewrite !elem_of_app in Hin.
  unfold wellFormed, buffered in *.
  destruct Hin as [Hin | [Hin | Hin]].
  - destruct (resCh p) as [|m rest] eqn:Hr; cbn in Hin; [by apply elem_of_nil in Hin|].
    apply list_elem_of_singleton in Hin as [= -> ->]. cbn in *.
    split; [|lia]. intros Ho. destruct (Hfresh Ho); discriminate.
  - destruct (errCh p) as [|e rest] eqn:He; cbn in Hin; [by apply elem_of_nil in Hin|].
    apply list_elem_of_singleton in Hin as [= -> ->]. cbn in *.
    split; [|lia]. intros Ho. destruct (Hfresh Ho); discriminate.
  - destruct ctx as [|e]; [by apply elem_of_nil in Hin|].
    apply list_elem_of_singleton in Hin as [= -> ->]. by split.
Qed.

Lemma after_wellFormed (f : T → bool * option error) (ops : list (op T)) :
  wellFormed (after f ops).
Proof.
  unfold after. generalize (wellFormed_new f). generalize (NewPromise f).
  induction ops as [|o ops IH]; intros p Hp; [exact Hp|].
  cbn [foldl]. apply IH. destruct o as [c|ctx pick]; cbn [step].
  - by apply doCall_wellFormed.
  - by apply Await_wellFormed.
Qed.

(** X5.  Whatever has happened to a promise since [NewPromise], settlement
    calls and awaits in any order, a [Resolve] or [Reject] on it returns
    without blocking, and never more than one outcome is buffered in its
    two channels. *)
Theorem settling_never_blocks (f : T → bool * option error) (ops : list (op T)) c :
  result (doCall c (after f ops)) = Ret tt ∧
  buffered (after f ops) ≤ 1 ∧
  buffered (final (doCall c (after f ops))) ≤ 1.
Proof.
  pose proof (after_wellFormed f ops) as Hwf.
  destruct (doCall_wellFormed _ c Hwf) as [Hr [_ Hb]].
  split; [exact Hr|]. split; [apply Hwf | exact Hb].
Qed.

End PromiseLife.

(** ** The frame buffer between the reader and the session *)

Section BufferLaws.
Import Ws WsRuns.

Lemma setOutCh_id (c : clientImp) : setOutCh (outCh c) c = c.
Proof. by destruct c. Qed.

Lemma sendOrDrop_run (c : clientImp) buf e :
  sendOrDrop buf e c =
    if Chan.full (outChCap c) (outCh c)
    then (Ret tt, c, if logger c then [EvErrorf droppedLog] else [])
    else (Ret tt, setOutCh (outCh c ++ [{| msg := buf; err := e |}]) c, []).
Proof.
  unfold sendOrDrop, errorf, Chan.send. mrun.
  destruct (Chan.full _ _); mrun; [destruct (logger c)|]; reflexivity.
Qed.

Lemma sendAll_run (fs : list msgResult) (c : clientImp) :
  length (outCh c) ≤ outChCap c →
  sendAll fs c =
    (Ret tt, setOutCh (take (outChCap c) (outCh c ++ fs)) c,
     if logger c
     then replicate (length (outCh c ++ fs) - outChCap c) (EvErrorf droppedLog)
     else []).
Proof.
  revert c. induction fs as [|[m e] fs IH]; intros c Hlen.
  - cbn [sendAll]. rewrite app_nil_r, firstn_all2 by lia. rewrite setOutCh_id.
    replace (length (outCh c) - outChCap c) with 0 by lia.
    by destruct (logger c).
  - cbn [sendAll msg err]. unfold bind. rewrite sendOrDrop_run.
    unfold Chan.full. destruct (Nat.leb_spec (outChCap c) (length (outCh c))) as [Hfull|Hroom].
    + rewrite (IH c Hlen). rewrite !take_app_le by lia.
      rewrite !length_app. cbn [length].
      replace (length (outCh c) + S (length fs) - outChCap c) with (S (length fs)) by lia.
      replace (length (outCh c) + length fs - outChCap c) with (length fs) by lia.
      by destruct (logger c).
    + rewrite IH by (destruct c; cbn in *; rewrite length_app; cbn; lia).
      destruct c; cbn in *. by rewrite <- app_assoc.
Qed.

Lemma readN_run (n : nat) (c : clientImp) :
  n ≤ length (outCh c) →
  readN n c = (Ret (take n (outCh c)), setOutCh (drop n (outCh c)) c, []).
Proof.
  revert c. induction n as [|n IH]; intros c Hn.
  - cbn [readN]. unfold ret. by rewrite take_0, drop_0, setOutCh_id.
  - cbn [readN]. unfold ReadMessage. mrun.
    destruct (outCh c) as [|[m e] rest] eqn:Hc; cbn in Hn; [lia|]. cbn.
    rewrite IH by (destruct c; cbn in *; lia).
    destruct c; cbn in *. reflexivity.
Qed.

(** X6.  The buffer keeps what arrived first.  Whatever frames the reader
    offers to a buffer within its capacity, no offer blocks, the buffer then
    holds the first [cap] frames of what it held followed by what was
    offered, in order of arrival, and every frame beyond that is lost; with
    a logger each lost frame is reported once, without one nothing is
    reported. *)
Theorem buffer_keeps_first (fs : list msgResult) (c : clientImp) :
  length (outCh c) ≤ outChCap c →
  result (sendAll fs c) = Ret tt ∧
  final (sendAll fs c) = setOutCh (take (outChCap c) (outCh c ++ fs)) c ∧
  length (outCh (final (sendAll fs c))) ≤ outChCap c ∧
  trace (sendAll fs c)
    = if logger c
      then replicate (length (outCh c ++ fs) - outChCap c) (EvErrorf droppedLog)
      else [].
Proof.
  intros Hlen. rewrite (sendAll_run fs c Hlen). cbn.
  repeat split. destruct c; cbn. rewrite length_take. lia.
Qed.

Lemma buffer_keeps_first_witness :
  trace (sendAll [{| msg := "a"; err := None |}; {| msg := "b"; err := None |}]
           Examples.fullClient)
    = [EvErrorf droppedLog; EvErrorf droppedLog].
Proof.
  apply (buffer_keeps_first [{| msg := "a"; err := None |}; {| msg := "b"; err := None |}]
           Examples.fullClient).
  cbn. lia.
Defined.

(** X7.  Frames pass through the buffer in order.  When the reader offers
    no more frames than an empty buffer can hold, none is lost or reported,
    the session's [ReadMessage] calls return exactly those frames, with
    their errors, in the order they were offered; the buffer is then empty
    again and a further [ReadMessage] blocks. *)
Theorem buffer_round_trip (fs : list msgResult) (c : clientImp) :
  outCh c = [] →
  length fs ≤ outChCap c →
  trace (sendAll fs c) = [] ∧
  readN (length fs) (final (sendAll fs c)) = (Ret fs, c, []) ∧
  result (ReadMessage c) = Block.
Proof.
  intros Hempty Hfit.
  rewrite sendAll_run by (rewrite Hempty; cbn; lia).
  rewrite Hempty. cbn [app trace final fst snd].
  rewrite firstn_all2 by lia. split; [|split].
  - replace (length fs - outChCap c) with 0 by lia. by destruct (logger c).
  - rewrite readN_run by (destruct c; cbn; lia).
    destruct c; cbn in *. subst. by rewrite firstn_all, drop_all.
  - unfold ReadMessage. mrun. by rewrite Hempty.
Qed.

End BufferLaws.

Lemma buffer_round_trip_witness :
  WsRuns.readN 2
    (final (WsRuns.sendAll [Loops.arrived "first"; Loops.arrived "second"] Examples.freshClient))
  = (Ret [Loops.arrived "first"; Loops.arrived "second"], Examples.freshClient, []).
Proof.
  apply (buffer_round_trip [Loops.arrived "first"; Loops.arrived "second"] Examples.freshClient).
  - reflexivity.
  - cbn. lia.
Defined.

(** ** The reader of the transport *)

Section ReaderLaws.
Import Ws Loops.

Lemma take_take_app {A} (n : nat) (a b : list A) :
  take n (take n a ++ b) = take n (a ++ b).
Proof.
  destruct (Nat.le_gt_cases n (length a)) as [Hle|Hgt].
  - rewrite !take_app_le by (rewrite ?length_take; lia).
    by rewrite take_take, Nat.min_id.
  - by rewrite (firstn_all2 a) by lia.
Qed.

Lemma connCloses_app (t1 t2 : list event) :
  Closing.connCloses (t1 ++ t2) = Closing.connCloses t1 + Closing.connCloses t2.
Proof. induction t1 as [|[] t1 IH]; cbn; lia. Qed.

Lemma sendOrDrop_quiet (c : clientImp) buf e :
  length (outCh c) ≤ outChCap c →
  ∃ t, sendOrDrop buf e c
         = (Ret tt, setOutCh (take (outChCap c) (outCh c ++ [{| msg := buf; err := e |}])) c, t) ∧
       Closing.connCloses t = 0.
Proof.
  intros Hlen. rewrite sendOrDrop_run. unfold Chan.full.
  destruct (Nat.leb_spec (outChCap c) (length (outCh c))).
  - rewrite take_app_le, firstn_all2, setOutCh_id by lia.
    eexists. split; [reflexivity|]. by destruct (logger c).
  - rewrite firstn_all2 by (rewrite length_app; cbn; lia).
    eexists. split; reflexivity.
Qed.

#[local] Arguments Ws.sendOrDrop : simpl never.

Lemma readAndHandle_run (c : clientImp) cn f l :
  conn c = Some cn →
  connIncoming cn = f :: l →
  length (outCh c) ≤ outChCap c →
  ∃ t, readAndHandle c
         = (Ret (readable f),
            setOutCh (take (outChCap c) (outCh c ++ [forwarded f]))
              (setConn (Some (setIncoming l cn)) c), t) ∧
       Closing.connCloses t = 0.
Proof.
  intros Hc Hin Hlen. destruct f as [[ty buf] [e|]];
    unfold readAndHandle; mrun; rewrite Hc, Hin; mrun.
  - destruct (sendOrDrop_quiet (setConn (Some (setIncoming l cn)) c) buf
                (Some (classifyWSError e))) as (t & Ht & Hq); [by destruct c|].
    unfold errorf; mrun.
    destruct (logger c); mrun; rewrite Ht; eexists; (split; [reflexivity|]); cbn;
      rewrite ?app_nil_r; exact Hq.
  - destruct (sendOrDrop_quiet (setConn (Some (setIncoming l cn)) c) buf None)
      as (t & Ht & Hq); [by destruct c|].
    rewrite Ht. eexists. split; [reflexivity|]. cbn. rewrite ?app_nil_r. exact Hq.
Qed.

Lemma readerLoop_run (good : list (Z * string * option connErr)) :
  ∀ bad rest cn (c : clientImp) fuel polls i,
    conn c = Some cn →
    connIncoming cn = good ++ bad :: rest →
    Forall (λ f, readable f = true) good →
    readable bad = false →
    (∀ j, j ≤ length good → polls (i + j) = false) →
    length good < fuel →
    length (outCh c) ≤ outChCap c →
    ∃ t, readerLoop fuel polls i c
           = (Ret tt,
              setOutCh (take (outChCap c) (outCh c ++ map forwarded (good ++ [bad])))
                (setConn (Some (setIncoming rest cn)) c), t) ∧
         Closing.connCloses t = 0.
Proof.
  induction good as [|f good IH]; intros bad rest cn c fuel polls i Hc Hin Hgood Hbad Hpoll Hfuel Hlen;
    (destruct fuel as [|fuel]; [cbn in Hfuel; lia|]); cbn [readerLoop];
    pose proof (Hpoll 0 ltac:(lia)) as Hp0; rewrite Nat.add_0_r in Hp0; rewrite Hp0;
    unfold bind.
  - destruct (readAndHandle_run c cn bad rest Hc Hin Hlen) as (t & Ht & Hq).
    rewrite Ht, Hbad. eexists. split; [reflexivity|]. cbn. rewrite app_nil_r. exact Hq.
  - destruct (readAndHandle_run c cn f (good ++ bad :: rest) Hc Hin Hlen) as (t & Ht & Hq).
    apply Forall_cons in Hgood as [Hf Hgood]. rewrite Ht, Hf.
    edestruct (IH bad rest (setIncoming (good ++ bad :: rest) cn)
                 (setOutCh (take (outChCap c) (outCh c ++ [forwarded f]))
                    (setConn (Some (setIncoming (good ++ bad :: rest) cn)) c))
                 fuel polls (S i)) as (t' & Ht' & Hq'); try eassumption.
    + by destruct c.
    + by destruct cn.
    + intros j Hj. replace (S i + j) with (i + S j) by lia. apply Hpoll. cbn. lia.
    + cbn in Hfuel. lia.
    + destruct c; cbn. rewrite length_take. lia.
    + rewrite Ht'. exists (t ++ t'). split; [|rewrite connCloses_app; lia].
      f_equal. f_equal. destruct c, cn; unfold setOutCh, setConn, setIncoming; cbn.
      f_equal. rewrite take_take_app. by rewrite <- app_assoc.
Qed.

(** X8.  The reader stops at the first read error.  Let the connection
    hand over some frames without error and then one with an error, let the
    context not be done while they are read, and let the loop run long
    enough.  Then the reader of the transport returns; it has offered to the
    buffer the good frames and then the failing one with its error
    classified, in that order and subject to the buffer's capacity; the
    frames behind the failing one are left unread on the connection; and the
    deferred [Close] has closed the connection, once, unless the client was
    closed before. *)
Theorem reader_stops_at_first_error
    (good : list (Z * string * option connErr)) (bad : Z * string * option connErr)
    (rest : list (Z * string * option connErr)) (cn : Conn) (c : clientImp)
    (fuel : nat) (polls : nat → bool) :
  conn c = Some cn →
  connIncoming cn = good ++ bad :: rest →
  Forall (λ f, readable f = true) good →
  readable bad = false →
  (∀ j, j ≤ length good → polls j = false) →
  length good < fuel →
  length (outCh c) ≤ outChCap c →
  let run := startReader fuel polls c in
  result run = Ret tt ∧
  conn (final run) = Some (setIncoming rest cn) ∧
  outCh (final run) = take (outChCap c) (outCh c ++ map forwarded (good ++ [bad])) ∧
  closeOnce (final run) = true ∧
  Closing.connCloses (trace run) = (if closeOnce c then 0 else 1).
Proof.
  intros Hc Hin Hgood Hbad Hpoll Hfuel Hlen.
  destruct (readerLoop_run good bad rest cn c fuel polls 0 Hc Hin Hgood Hbad Hpoll Hfuel Hlen)
    as (t & Ht & Hq).
  cbn zeta. unfold startReader, defer. rewrite Ht.
  unfold Close. destruct c as [cc lg u o cap [] ce]; cbn in *; mrun.
  - rewrite connCloses_app, Hq. repeat split.
  - destruct (connClose cn); [destruct lg|]; mrun;
      rewrite connCloses_app, Hq; repeat split.
Qed.

Lemma reader_stops_at_first_error_witness :
  outCh (final (startReader 2 (λ _, false)
                  (setConn (Some (setIncoming [(1%Z, "tick", None);
                                               (1%Z, "", Some Examples.brokenPipe);
                                               (1%Z, "late", None)] Examples.goodConn))
                     Examples.freshClient)))
  = [arrived "tick";
     {| msg := ""; err := Some (classifyWSError Examples.brokenPipe) |}].
Proof.
  apply (reader_stops_at_first_error [(1%Z, "tick", None)] (1%Z, "", Some Examples.brokenPipe)
           [(1%Z, "late", None)]
           (setIncoming [(1%Z, "tick", None); (1%Z, "", Some Examples.brokenPipe);
                         (1%Z, "late", None)] Examples.goodConn)
           (setConn (Some (setIncoming [(1%Z, "tick", None);
                                        (1%Z, "", Some Examples.brokenPipe);
                                        (1%Z, "late", None)] Examples.goodConn))
              Examples.freshClient) 2 (λ _, false)).
  - reflexivity.
  - reflexivity.
  - repeat constructor.
  - reflexivity.
  - reflexivity.
  - cbn. lia.
  - cbn. lia.
Defined.

End ReaderLaws.

(** ** Correlation ids *)

(** X9.  Correlation ids do not repeat within a window of 2^64 draws: two
    ids drawn from the session's counter, the second one later than the
    first by fewer than 2^64 draws, differ.  So a reply can be attributed to
    the wrong pending request only after the counter has gone all the way
    round. *)
Theorem createID_distinct (n m : N) (w w' : SpotMarket.WSMarket) :
  SpotMarket.counter w = Counter.IncTimes n Counter.NewCounter →
  SpotMarket.counter w' = Counter.IncTimes m Counter.NewCounter →
  (n < m)%N →
  (m - n < 2 ^ 64)%N →
  result (SpotMarket.createID w) ≠ result (SpotMarket.createID w').
Proof.
  intros Hw Hw' Hlt Hwin.
  unfold SpotMarket.createID, zoom. rewrite !Inc_run. cbn [result fst].
  rewrite Hw, Hw', !IncTimes_value.
  unfold Counter.uint64Modulus. rewrite !Zplus_mod_idemp_l.
  intros [= Heq]. apply Z.cong_iff_0 in Heq.
  assert (Hdiff : (Z.of_N n + 1 - (Z.of_N m + 1) = - (Z.of_N m - Z.of_N n))%Z) by lia.
  rewrite Hdiff in Heq. apply Z.mod_opp_l_z in Heq; [|lia].
  rewrite Z.opp_involutive in Heq.
  rewrite Z.mod_small in Heq; lia.
Qed.

Lemma createID_distinct_witness :
  result (SpotMarket.createID Examples.neverConnected)
    ≠ result (SpotMarket.createID (final (SpotMarket.createID Examples.neverConnected))).
Proof.
  apply (createID_distinct 0 1 Examples.neverConnected
           (final (SpotMarket.createID Examples.neverConnected))).
  - reflexivity.
  - reflexivity.
  - lia.
  - lia.
Defined.

(** ** Creating a client and writing through it *)

Section ClientLaws.
Import Ws.

(** X10.  A new client is ready to buffer.  [NewClient] panics on an empty
    URL.  For a non-empty URL it asks the runtime for a buffer of the size
    given to [WithBufferedOutCh] when that is positive and of 1000 frames
    otherwise.  When the runtime accepts that size, [NewClient] returns a
    client that is not connected and not closed, whose buffer is empty and
    has that capacity, at least one frame, so that the first frame offered
    to a new client is never dropped.  When the size is beyond what the
    runtime accepts for a channel, [NewClient] panics with the runtime's
    "makechan: size out of range" and returns no client. *)
Theorem NewClient_buffer_ready (chanLimit : Z) (u : string) (withLogger : bool)
    (bufSize : option Z) :
  let asked := match bufSize with
               | Some n => if bool_decide (n ≤ 0)%Z then 1000%Z else n
               | None => 1000%Z
               end in
  (u = "" →
   NewClient chanLimit u withLogger bufSize tt = (Panic "url must not be empty", tt, [])) ∧
  (u ≠ "" → (asked ≤ chanLimit)%Z →
   ∃ c, NewClient chanLimit u withLogger bufSize tt = (Ret c, tt, []) ∧
        conn c = None ∧ closeOnce c = false ∧ closeErr c = None ∧
        outCh c = [] ∧
        outChCap c = Z.to_nat asked ∧
        1 ≤ outChCap c ∧
        ∀ buf e, sendOrDrop buf e c
                 = (Ret tt, setOutCh [{| msg := buf; err := e |}] c, [])) ∧
  (u ≠ "" → (chanLimit < asked)%Z →
   NewClient chanLimit u withLogger bufSize tt = (Panic "makechan: size out of range", tt, [])).
Proof.
  cbn zeta.
  assert (Hrun : u ≠ "" →
                 NewClient chanLimit u withLogger bufSize
                 = (cap <- makeChan chanLimit
                             (match bufSize with
                              | Some n => if bool_decide (n ≤ 0)%Z then 1000%Z else n
                              | None => 1000%Z
                              end) ;;
                    ret {| conn := None; logger := withLogger; url := u; outCh := [];
                           outChCap := cap; closeOnce := false; closeErr := None |})%go).
  { intros Hu. unfold NewClient. rewrite bool_decide_eq_false_2 by exact Hu.
    by destruct bufSize. }
  assert (Hpos : (0 < match bufSize with
                      | Some n => if bool_decide (n ≤ 0)%Z then 1000%Z else n
                      | None => 1000%Z
                      end)%Z).
  { destruct bufSize as [n|]; [case_bool_decide|]; lia. }
  split; [|split].
  - intros ->. reflexivity.
  - intros Hu Hfit. rewrite (Hrun Hu). unfold makeChan, bind.
    rewrite bool_decide_eq_true_2 by lia. unfold ret. eexists. split; [reflexivity|].
    cbn [conn closeOnce closeErr outCh outChCap].
    repeat split; try lia.
    intros buf e. rewrite sendOrDrop_room; [reflexivity|].
    unfold Chan.full. cbn [outCh outChCap length]. apply Nat.leb_gt. lia.
  - intros Hu Hover. rewrite (Hrun Hu). unfold makeChan, bind.
    rewrite bool_decide_eq_false_2 by lia. reflexivity.
Qed.

Lemma NewClient_buffer_ready_witness :
  ∃ c, NewClient (2 ^ 32) "wss://wbs-api.mexc.com/ws" false (Some 0%Z) tt = (Ret c, tt, []) ∧
       conn c = None ∧ closeOnce c = false ∧ closeErr c = None ∧
       outCh c = [] ∧
       outChCap c = 1000 ∧
       1 ≤ outChCap c ∧
       ∀ buf e, sendOrDrop buf e c
                = (Ret tt, setOutCh [{| msg := buf; err := e |}] c, []).
Proof.
  refine (proj1 (proj2 (NewClient_buffer_ready (2 ^ 32) "wss://wbs-api.mexc.com/ws" false
                          (Some 0%Z))) _ _).
  - discriminate.
  - vm_compute. discriminate.
Defined.

(** X11.  [WriteMessage] always gives the client's mutex back.  On every
    path the call takes the mutex first and releases it last, also when it
    panics for want of a connection, and it never blocks; it leaves the
    client as it was; the frame goes out on the connection exactly when the
    call returns nil; and an error it returns wraps [ErrWriteTimeout] when
    setting the deadline failed and [ErrWriteFailed] when the write did. *)
Theorem WriteMessage_releases_mutex (g : goroutine) (data : json) (c : clientImp) :
  ∃ r t,
    WriteMessage g data c = (r, c, EvLock g clientMu :: t ++ [EvUnlock g clientMu]) ∧
    r ≠ Block ∧
    (r = Panic nilDereference ↔ conn c = None) ∧
    (EvConnWrite data ∈ t ↔ r = Ret None) ∧
    Forall (λ ev, ev = EvConnWrite data ∨ ∃ s, ev = EvErrorf s) t ∧
    ∀ e, r = Ret (Some e) →
         ∃ cn ce,
           conn c = Some cn ∧
           ((connSetWriteDeadline cn = Some ce ∧
             e = fmtErrorf "%w: %v" [ArgErr ErrWriteTimeout; ArgStr (errText ce)]) ∨
            (connSetWriteDeadline cn = None ∧ connWriteMessage cn = Some ce ∧
             e = fmtErrorf "%w: %v" [ArgErr ErrWriteFailed; ArgStr (errText ce)])).
Proof.
  assert (Hlog : ∀ s, EvConnWrite data ∈ [EvErrorf s] → False).
  { intros s Hin. apply elem_of_cons in Hin as [Hin|Hin]; [discriminate Hin|].
    by apply elem_of_nil in Hin. }
  assert (Hnil : EvConnWrite data ∈ @nil event → False).
  { intros Hin. by apply elem_of_nil in Hin. }
  unfold WriteMessage, errorf, nilDereference. mrun.
  destruct (conn c) as [cn|] eqn:Hc; mrun.
  2: { exists (Panic "runtime error: invalid memory address or nil pointer dereference"), [].
       repeat split; try done. }
  destruct (connSetWriteDeadline cn) as [ce|] eqn:Hd; mrun.
  { destruct (logger c); mrun; [eexists _, [_] | eexists _, []]; (split; [reflexivity|]);
      (repeat split; try done).
    - intros Hin. by apply Hlog in Hin.
    - apply Forall_cons; split; [right; by eexists | apply Forall_nil_2].
    - intros e [= <-]. exists cn, ce. split; [done|]. by left.
    - intros e [= <-]. exists cn, ce. split; [done|]. by left. }
  destruct (connWriteMessage cn) as [ce|] eqn:Hw; mrun.
  { destruct (logger c); mrun; [eexists _, [_] | eexists _, []]; (split; [reflexivity|]);
      (repeat split; try done).
    - intros Hin. by apply Hlog in Hin.
    - apply Forall_cons; split; [right; by eexists | apply Forall_nil_2].
    - intros e [= <-]. exists cn, ce. split; [done|]. by right.
    - intros e [= <-]. exists cn, ce. split; [done|]. by right. }
  exists (Ret None), [EvConnWrite data]. repeat split; try done.
  - intros _. apply elem_of_cons. by left.
  - apply Forall_cons; split; [by left | apply Forall_nil_2].
Qed.

End ClientLaws.

(** ** Requests of the spot session *)

Section SpotRequestLaws.
Import SpotMarket.
Variable jsonUnmarshal : string -> unmarshaled message.
Variable protoUnmarshal : string -> option PushDataV3MarketWrapper.

(** X12.  A request cleans up after itself.  Whenever
    [sendAndAwaitResponse] comes back, with nil, with an error of any kind
    or with a panic, the map of pending promises has no entry under the id
    of the request any more: the deferred delete has run. *)
Theorem request_leaves_no_promise g ctx req frames pick (w : WSMarket) :
  let run := sendAndAwaitResponse jsonUnmarshal protoUnmarshal g ctx req frames pick w in
  result run ≠ Block →
  promisesMap (final run) !! reqID req = None.
Proof.
  cbn zeta.
  unfold sendAndAwaitResponse, withClient, withPromise, Ws.WriteMessage, Ws.errorf.
  destruct w as [[cc lg u och cap co ce] od ol a wr pm ct rt so se].
  mrun. destruct (Message req) as [msg|e]; mrun.
  2:{ intros _. apply lookup_delete_eq. }
  destruct cc as [cn|]; mrun.
  2:{ intros _. apply lookup_delete_eq. }
  destruct (Ws.connSetWriteDeadline cn) as [e|]; mrun.
  { destruct lg; mrun; intros _; apply lookup_delete_eq. }
  destruct (Ws.connWriteMessage cn) as [e|]; mrun.
  { destruct lg; mrun; intros _; apply lookup_delete_eq. }
  match goal with
  | |- context [handleMessages _ _ frames ?w1] =>
      destruct (handleMessages_run jsonUnmarshal protoUnmarshal frames w1)
        as (r & w2 & t & Hf & Hr & Hs & Hn)
  end.
  rewrite Hf. destruct Hr as [-> | [-> | ->]]; mrun.
  2:{ intros _. apply lookup_delete_eq. }
  2:{ intros Hb. by destruct Hb. }
  match goal with
  | |- context [Wsutil.Await ctx pick ?p] =>
      destruct (Await_run ctx pick p) as [HA | (ra & p' & HA & Hin)]; rewrite HA
  end; mrun.
  { intros Hb. by destruct Hb. }
  apply awaitCases_inv in Hin as [(m & -> & _) | [(e & -> & _) | (e & -> & Hctx)]]; mrun;
    intros _; apply lookup_delete_eq.
Qed.

End SpotRequestLaws.

Lemma request_leaves_no_promise_witness :
  SpotMarket.promisesMap
    (final (SpotMarket.sendAndAwaitResponse Examples.decodeNack Examples.noProto Caller ctxLive
              (SpotMarket.newSubscriptionRequest 1 SpotMarket.subscribe Examples.depthSub)
              [Examples.nackFrame] 0 (Examples.connected Examples.goodConn)))
    !! 1%Z = None.
Proof.
  apply (request_leaves_no_promise Examples.decodeNack Examples.noProto Caller ctxLive
           (SpotMarket.newSubscriptionRequest 1 SpotMarket.subscribe Examples.depthSub)
           [Examples.nackFrame] 0 (Examples.connected Examples.goodConn)).
  vm_compute. discriminate.
Defined.

(** ** Subscribing and unsubscribing on the spot session *)

Section SpotSubscribeLaws.
Import SpotMarket.
Variable jsonUnmarshal : string -> unmarshaled message.
Variable protoUnmarshal : string -> option PushDataV3MarketWrapper.

(** X13.  An acknowledged [Subscribe] registers the subscription.  Let the
    key of the spec not be active, the Router hold fewer than the maximum,
    the request be writable on the connection, and let the read loop, while
    the caller waits, handle one JSON frame that carries the id drawn for
    the request and that the spec's predicate accepts.  Then [Subscribe]
    returns a new handle, the key is active under that handle, the spec is
    in the Router, the request went out on the connection, and no promise is
    left behind. *)
Theorem Subscribe_acknowledged (sub : Subscription) (data : string) (m : message)
    (pick : nat) (w : WSMarket) :
  let i := ((Counter.value (counter w) + 1) mod Counter.uint64Modulus)%Z in
  let req := newSubscriptionRequest i subscribe sub in
  activeSubs w !! id sub = None →
  (Z.of_nat (size (Router.handlers (router w))) < maxCountSubscribes)%Z →
  writable w req →
  isJSONMessage data = true →
  jsonUnmarshal data = Decoded m →
  ID m = i →
  fst (matches sub m) = true →
  let run := Subscribe jsonUnmarshal protoUnmarshal ctxLive (Some sub) [data] pick w in
  result run = Ret (inl (length (wrappers w))) ∧
  activeSubs (final run) = <[id sub := length (wrappers w)]> (activeSubs w) ∧
  wrappers (final run) !! length (wrappers w)
    = Some {| inner := sub; wOnce := false; wErr := None |} ∧
  Router.handlers (router (final run)) = <[subAddr sub := sub]> (Router.handlers (router w)) ∧
  promisesMap (final run) !! i = None ∧
  (∀ msg, Message req = inl msg → EvConnWrite msg ∈ trace run).
Proof.
  intros i req Hfresh Hroom (cn & msg & Hc & Hd & Hw & Hm) Hj Hu Hid Hmatch.
  destruct w as [[cc lg u och cap co ce] od ol a wr pm ct rt so se]. cbn in *. subst cc.
  unfold Subscribe, withRouter, Router.Len, Router.Register, createID.
  mrun. rewrite bool_decide_eq_false_2 by (rewrite Hfresh; by intros [? ?]).
  mrun. rewrite bool_decide_eq_false_2 by lia.
  unfold sendAndAwaitResponse, withClient, withPromise, Ws.WriteMessage, Ws.errorf.
  mrun. fold i. fold req. rewrite Hm. mrun. rewrite Hd, Hw. mrun.
  unfold handleMessage, handleJSONMessage. rewrite Hj, Hu. mrun.
  rewrite Hid. read_back. unfold Wsutil.Match. cbn. rewrite Hmatch.
  unfold withPromise, Wsutil.Resolve, Chan.send, Chan.full. mrun.
  read_back. unfold Wsutil.Await. mrun.
  destruct pick as [|[|pick]]; mrun.
  all: repeat split; try apply lookup_delete_eq;
    try (rewrite lookup_app_r, Nat.sub_diag by lia; reflexivity);
    intros msg' [= <-]; set_solver.
Qed.

End SpotSubscribeLaws.

Lemma Subscribe_acknowledged_witness :
  result (SpotMarket.Subscribe Examples.decodeAck Examples.noProto ctxLive
            (Some Examples.depthSub) [Examples.ackFrame] 0 (Examples.connected Examples.goodConn))
    = Ret (inl 0).
Proof.
  apply (Subscribe_acknowledged Examples.decodeAck Examples.noProto Examples.depthSub
           Examples.ackFrame Examples.ack 0 (Examples.connected Examples.goodConn)).
  - reflexivity.
  - reflexivity.
  - exists Examples.goodConn. eexists. repeat split.
  - reflexivity.
  - reflexivity.
  - reflexivity.
  - reflexivity.
Defined.

Section SpotUnsubscribeLaws.
Import SpotMarket.
Variable jsonUnmarshal : string -> unmarshaled message.
Variable protoUnmarshal : string -> option PushDataV3MarketWrapper.


End SpotUnsubscribeLaws.


(** ** The read loop of the spot session *)

Section SpotReadLoop.
Import SpotMarket Loops.
Variable jsonUnmarshal : string -> unmarshaled message.
Variable protoUnmarshal : string -> option PushDataV3MarketWrapper.

#[local] Arguments Wsutil.Resolve : simpl never.
#[local] Arguments Wsutil.Reject : simpl never.

Lemma handleMessage_setClient data c (w : WSMarket) :
  handleMessage jsonUnmarshal protoUnmarshal data (setClient c w)
    = (result (handleMessage jsonUnmarshal protoUnmarshal data w),
       setClient c (final (handleMessage jsonUnmarshal protoUnmarshal data w)),
       trace (handleMessage jsonUnmarshal protoUnmarshal data w)).
Proof.
  unfold handleMessage, handleProtoMessage, handleJSONMessage, withRouter, withPromise.
  destruct w as [cl od ol a wr pm ct rt so se].
  destruct (isJSONMessage data).
  - destruct (jsonUnmarshal data) as [| |msg]; mrun; try reflexivity.
    destruct (pm !! ID msg) as [p|]; mrun; [|reflexivity].
    destruct (fst (Wsutil.Match p msg)); mrun.
    + destruct (Wsutil.Resolve msg p) as [[[] ?] ?]; reflexivity.
    + destruct (Wsutil.Reject _ p) as [[[] ?] ?]; reflexivity.
  - destruct (protoUnmarshal data); mrun; [|reflexivity].
    destruct (Router.Route _ _ _ rt) as [[[] ?] ?]; reflexivity.
Qed.

Lemma handleMessages_setClient frames c (w : WSMarket) :
  handleMessages jsonUnmarshal protoUnmarshal frames (setClient c w)
    = (result (handleMessages jsonUnmarshal protoUnmarshal frames w),
       setClient c (final (handleMessages jsonUnmarshal protoUnmarshal frames w)),
       trace (handleMessages jsonUnmarshal protoUnmarshal frames w)).
Proof.
  revert w. induction frames as [|d frames IH]; intros w; [reflexivity|].
  cbn [handleMessages]. unfold bind. rewrite handleMessage_setClient.
  destruct (handleMessage jsonUnmarshal protoUnmarshal d w) as [[[[]| |] w'] t]; cbn;
    try reflexivity.
  rewrite IH.
  destruct (handleMessages jsonUnmarshal protoUnmarshal frames w') as [[r w''] t']; reflexivity.
Qed.

Lemma setClient_setClient c c' (w : WSMarket) : setClient c (setClient c' w) = setClient c w.
Proof. by destruct w. Qed.

Lemma client_setClient c (w : WSMarket) : client (setClient c w) = c.
Proof. by destruct w. Qed.

Lemma onDisconnect_setClient c (w : WSMarket) : onDisconnect (setClient c w) = onDisconnect w.
Proof. by destruct w. Qed.

Lemma outCh_setOutCh ch (c : Ws.clientImp) : Ws.outCh (Ws.setOutCh ch c) = ch.
Proof. by destruct c. Qed.

Lemma setOutCh_setOutCh ch ch' (c : Ws.clientImp) :
  Ws.setOutCh ch (Ws.setOutCh ch' c) = Ws.setOutCh ch c.
Proof. by destruct c. Qed.

Lemma readingMessageStep_frame d q (w : WSMarket) :
  Ws.outCh (client w) = arrived d :: q →
  readingMessageStep jsonUnmarshal protoUnmarshal w
    = (match result (handleMessage jsonUnmarshal protoUnmarshal d w) with
       | Ret _ => Ret true
       | Panic msg => Panic msg
       | Block => Block
       end,
       setClient (Ws.setOutCh q (client w))
         (final (handleMessage jsonUnmarshal protoUnmarshal d w)),
       trace (handleMessage jsonUnmarshal protoUnmarshal d w)).
Proof.
  intros Hbuf. unfold readingMessageStep, withClient, Ws.ReadMessage. mrun.
  rewrite Hbuf. mrun. rewrite handleMessage_setClient.
  destruct (handleMessage jsonUnmarshal protoUnmarshal d w) as [[[[]| |] w'] t]; cbn;
    rewrite ?app_nil_r; reflexivity.
Qed.

Lemma readingMessageStep_error b e q (w : WSMarket) :
  Ws.outCh (client w) = {| Ws.msg := b; Ws.err := Some e |} :: q →
  readingMessageStep jsonUnmarshal protoUnmarshal w
    = (Ret false, setClient (Ws.setOutCh q (client w)) w,
       if onDisconnect w then [EvOnDisconnect] else []).
Proof.
  intros Hbuf. unfold readingMessageStep, withClient, Ws.ReadMessage. mrun.
  rewrite Hbuf. mrun. destruct w as [cl od ol a wr pm ct rt so se]; cbn.
  destruct od; reflexivity.
Qed.

Lemma readingLoop_run (fs : list string) :
  ∀ b e rest (w : WSMarket) fuel polls i,
    Ws.outCh (client w) = map arrived fs ++ {| Ws.msg := b; Ws.err := Some e |} :: rest →
    (∀ j, j ≤ length fs → polls (i + j) = false) →
    length fs < fuel →
    result (handleMessages jsonUnmarshal protoUnmarshal fs w) = Ret tt →
    readingLoop jsonUnmarshal protoUnmarshal fuel polls i w
      = (Ret tt,
         setClient (Ws.setOutCh rest (client w))
           (final (handleMessages jsonUnmarshal protoUnmarshal fs w)),
         trace (handleMessages jsonUnmarshal protoUnmarshal fs w)
           ++ if onDisconnect w then [EvOnDisconnect] else []).
Proof.
  induction fs as [|d fs IH]; intros b e rest w fuel polls i Hbuf Hpoll Hfuel Hok;
    (destruct fuel as [|fuel]; [cbn in Hfuel; lia|]); cbn [readingLoop];
    pose proof (Hpoll 0 ltac:(lia)) as Hp0; rewrite Nat.add_0_r in Hp0; rewrite Hp0;
    unfold bind.
  - rewrite (readingMessageStep_error b e rest w Hbuf). cbn. by rewrite app_nil_r.
  - change (Ws.outCh (client w)
            = arrived d :: (map arrived fs ++ {| Ws.msg := b; Ws.err := Some e |} :: rest))
      in Hbuf.
    rewrite (readingMessageStep_frame d _ w Hbuf).
    cbn [handleMessages] in *. unfold bind in *.
    destruct (handleMessage_run jsonUnmarshal protoUnmarshal d w) as (r & w' & t & Hd & _ & Hs & _).
    rewrite Hd in *. cbn [result final trace fst snd] in *.
    destruct r as [[]| |]; try discriminate Hok.
    assert (Hod : onDisconnect w' = onDisconnect w).
    { unfold sameButPromises in Hs. rewrite Hs. by destruct w. }
    rewrite (IH b e rest _ fuel polls (S i)).
    + rewrite handleMessages_setClient.
      destruct (handleMessages jsonUnmarshal protoUnmarshal fs w') as [[r w''] t'].
      cbn [result final trace fst snd].
      rewrite setClient_setClient, <- app_assoc, client_setClient, setOutCh_setOutCh,
        onDisconnect_setClient, Hod.
      reflexivity.
    + by rewrite client_setClient, outCh_setOutCh.
    + intros j Hj. replace (S i + j) with (i + S j) by lia. apply Hpoll. cbn. lia.
    + cbn in Hfuel. lia.
    + rewrite handleMessages_setClient. cbn [result fst].
      destruct (handleMessages jsonUnmarshal protoUnmarshal fs w') as [[r w''] t']. exact Hok.
Qed.

(** X15.  The read loop handles the buffered frames in order.  Let the
    buffer hold some frames without error followed by one with a read error,
    let the context not be done while they are read, and let handling those
    frames neither panic nor block.  Then the goroutine of [readingMessage]
    returns, having handled exactly those frames, in the order of the
    buffer, with the effect and the trace of [handleMessages], then having
    called the disconnect callback once if there is one; what lies behind
    the failing frame stays in the buffer unhandled; and the deferred
    [Close] leaves the session closed, having done nothing but close the
    connection and log. *)
Theorem read_loop_handles_in_order (fs : list string) (b : string) (e : error)
    (rest : list Ws.msgResult) (cn : Ws.Conn) (w : WSMarket)
    (fuel : nat) (polls : nat → bool) :
  Ws.outCh (client w) = map arrived fs ++ {| Ws.msg := b; Ws.err := Some e |} :: rest →
  Ws.conn (client w) = Some cn →
  (∀ j, j ≤ length fs → polls j = false) →
  length fs < fuel →
  result (handleMessages jsonUnmarshal protoUnmarshal fs w) = Ret tt →
  let run := readingMessage jsonUnmarshal protoUnmarshal fuel polls w in
  let handled := handleMessages jsonUnmarshal protoUnmarshal fs w in
  result run = Ret tt ∧
  promisesMap (final run) = promisesMap (final handled) ∧
  Ws.outCh (client (final run)) = rest ∧
  closeOnce (final run) = true ∧
  ∃ tc, trace run = trace handled ++ (if onDisconnect w then [EvOnDisconnect] else []) ++ tc ∧
        Forall (λ ev, ev = EvConnClose ∨ ∃ s, ev = EvErrorf s) tc.
Proof.
  intros Hbuf Hconn Hpoll Hfuel Hok. cbn zeta.
  unfold readingMessage, defer.
  rewrite (readingLoop_run fs b e rest w fuel polls 0 Hbuf Hpoll Hfuel Hok).
  destruct (handleMessages_run jsonUnmarshal protoUnmarshal fs w) as (r & w' & t & Hf & _ & Hs & _).
  rewrite Hf. cbn [result final trace fst snd].
  unfold sameButPromises in Hs. rewrite Hs.
  generalize (promisesMap w'). intros pm'.
  destruct w as [[cc lg u och cap co ce] od ol a wr pm ct rt so se]. cbn in Hconn. subst cc.
  unfold Close, withClient, Ws.Close, Ws.errorf. cbn.
  destruct so; mrun.
  { repeat split. exists []. by rewrite !app_nil_r. }
  destruct co; mrun.
  { destruct ce; mrun; repeat split; exists []; by rewrite !app_nil_r. }
  destruct (Ws.connClose cn); [destruct lg|destruct ce]; mrun; repeat split; eexists;
    (split; [rewrite <- app_assoc; reflexivity|]);
    repeat (apply Forall_cons; split; [first [by left | right; by eexists]|]);
    apply Forall_nil_2.
Qed.

End SpotReadLoop.

Lemma read_loop_handles_in_order_witness :
  result (Loops.readingMessage Examples.decodeAck Examples.noProto 2 (λ _, false)
            (SpotMarket.setClient
               (Ws.setOutCh [Loops.arrived Examples.ackFrame;
                             {| Ws.msg := ""; Ws.err := Some Ws.ErrWSReadInterrupted |};
                             Loops.arrived "late"]
                  (SpotMarket.client Examples.awaitingAck))
               Examples.awaitingAck))
  = Ret tt.
Proof.
  apply (read_loop_handles_in_order Examples.decodeAck Examples.noProto
           [Examples.ackFrame] "" Ws.ErrWSReadInterrupted [Loops.arrived "late"]
           Examples.goodConn
           (SpotMarket.setClient
              (Ws.setOutCh [Loops.arrived Examples.ackFrame;
                            {| Ws.msg := ""; Ws.err := Some Ws.ErrWSReadInterrupted |};
                            Loops.arrived "late"]
                 (SpotMarket.client Examples.awaitingAck))
              Examples.awaitingAck)
           2 (λ _, false)).
  - reflexivity.
  - reflexivity.
  - reflexivity.
  - cbn. lia.
  - vm_compute. reflexivity.
Defined.

(** ** Subscriptions of the futures user session *)

Section UserSubscriptionLaws.
Import FuturesUser UserRuns.

Lemma user_Subscribe_rejected sub (w : WSUser) :
  is_Some (activeSubs w !! id sub)
  ∨ (maxCountSubscribes ≤ Z.of_nat (size (Router.handlers (router w))))%Z →
  final (Subscribe (Some sub) w) = w.
Proof.
  intros Hrej. unfold Subscribe, withRouter, Router.Len. mrun.
  destruct (bool_decide (is_Some (activeSubs w !! id sub))) eqn:Hdup; mrun; [reflexivity|].
  destruct Hrej as [Hact|Hmax]; [by apply bool_decide_eq_false in Hdup|].
  rewrite bool_decide_eq_true_2 by exact Hmax. mrun. by destruct w, router0.
Qed.

Lemma user_Subscribe_accepted sub (w : WSUser) :
  activeSubs w !! id sub = None →
  (Z.of_nat (size (Router.handlers (router w))) < maxCountSubscribes)%Z →
  Subscribe (Some sub) w
    = (Ret (inl (length (wrappers w))),
       setRouter {| Router.handlers := <[subAddr sub := sub]> (Router.handlers (router w)) |}
         (setActiveSubs (<[id sub := length (wrappers w)]> (activeSubs w))
            (setWrappers (wrappers w ++ [{| inner := sub; wOnce := false |}]) w)),
       [EvLock Caller activeSubsMu; EvLock Caller routerMu; EvUnlock Caller routerMu;
        EvLock Caller routerMu; EvUnlock Caller routerMu; EvUnlock Caller activeSubsMu]).
Proof.
  intros Hfresh Hroom. unfold Subscribe, withRouter, Router.Len, Router.Register. mrun.
  rewrite bool_decide_eq_false_2 by (rewrite Hfresh; by intros [? ?]). mrun.
  rewrite bool_decide_eq_false_2 by lia. mrun. by destruct w, router0.
Qed.

Lemma user_Unsubscribe_open h s (w : WSUser) :
  wrappers w !! h = Some s →
  wOnce s = false →
  Unsubscribe h w
    = (Ret None,
       setWrappers (alter (λ s, {| inner := inner s; wOnce := true |}) h (wrappers w))
         (setRouter {| Router.handlers := delete (subAddr (inner s)) (Router.handlers (router w)) |}
            (setActiveSubs (delete (id (inner s)) (activeSubs w)) w)),
       [EvLock Caller routerMu; EvUnlock Caller routerMu]).
Proof.
  intros Hh Honce. unfold Unsubscribe, withRouter, Router.Unregister. mrun.
  rewrite Hh. mrun. rewrite Hh. cbn. rewrite Honce. mrun. by destruct w, router0.
Qed.

Lemma user_Unsubscribe_closed h (w : WSUser) :
  (∀ s, wrappers w !! h = Some s → wOnce s = true) →
  final (Unsubscribe h w) = w.
Proof.
  intros Hclosed. unfold Unsubscribe. mrun.
  destruct (wrappers w !! h) as [s|] eqn:Hh; mrun; [|reflexivity].
  rewrite Hh. cbn. rewrite (Hclosed s eq_refl). reflexivity.
Qed.

Lemma user_Unsubscribe_again h s (w : WSUser) :
  wrappers w !! h = Some s →
  wOnce s = true →
  Unsubscribe h w = (Ret None, w, []).
Proof.
  intros Hh Honce. unfold Unsubscribe. mrun. rewrite Hh. mrun. rewrite Hh. cbn.
  by rewrite Honce.
Qed.

(** X16.  Subscribing and unsubscribing on the futures session undo each
    other.  For a spec whose key is not active and whose handler is not in
    the Router, with the Router below its maximum: [Subscribe] returns a new
    handle and makes the key active and the spec routable; [Unsubscribe] on
    that handle returns nil and puts the active-subscription map and the
    Router back as they were, taking the Router's lock only, not the lock of
    the active-subscription map; and a second [Unsubscribe] on the handle
    returns nil without doing anything. *)
Theorem user_Subscribe_Unsubscribe (sub : Subscription) (w : WSUser) :
  activeSubs w !! id sub = None →
  Router.handlers (router w) !! subAddr sub = None →
  (Z.of_nat (size (Router.handlers (router w))) < maxCountSubscribes)%Z →
  let h := length (wrappers w) in
  let w1 := final (Subscribe (Some sub) w) in
  let run := Unsubscribe h w1 in
  result (Subscribe (Some sub) w) = Ret (inl h) ∧
  activeSubs w1 !! id sub = Some h ∧
  Router.handlers (router w1) !! subAddr sub = Some sub ∧
  result run = Ret None ∧
  trace run = [EvLock Caller routerMu; EvUnlock Caller routerMu] ∧
  activeSubs (final run) = activeSubs w ∧
  router (final run) = router w ∧
  Unsubscribe h (final run) = (Ret None, final run, []).
Proof.
  intros Hfresh Haddr Hroom. cbn zeta.
  rewrite (user_Subscribe_accepted sub w Hfresh Hroom). cbn [result final trace fst snd].
  set (w1 := setRouter _ _).
  assert (Hh : wrappers w1 !! length (wrappers w) = Some {| inner := sub; wOnce := false |}).
  { unfold w1. destruct w; cbn. rewrite lookup_app_r, Nat.sub_diag by lia. reflexivity. }
  rewrite (user_Unsubscribe_open _ _ w1 Hh eq_refl). cbn [result final trace fst snd inner].
  split; [reflexivity|].
  split; [unfold w1; destruct w; cbn; apply lookup_insert_eq|].
  split; [unfold w1; destruct w; cbn; apply lookup_insert_eq|].
  split; [reflexivity|]. split; [reflexivity|].
  split; [unfold w1; destruct w; cbn in *; by apply delete_insert_id|].
  split.
  { unfold w1. destruct w as [? ? ? ? ? ? ? ? ? [hs] ? ?]; cbn in *.
    f_equal. by apply delete_insert_id. }
  apply (user_Unsubscribe_again _ {| inner := sub; wOnce := true |}); [|reflexivity].
  cbn [wrappers setWrappers].
  rewrite list_lookup_alter, decide_True by reflexivity. by rewrite Hh.
Qed.

Lemma user_Subscribe_Unsubscribe_witness :
  activeSubs (final (Unsubscribe 0 (final (Subscribe (Some Examples.assetSub) Examples.userClient))))
    = activeSubs Examples.userClient.
Proof.
  apply (user_Subscribe_Unsubscribe Examples.assetSub Examples.userClient).
  - reflexivity.
  - reflexivity.
  - reflexivity.
Defined.

(** X17.  The futures session never routes to more than six handlers.
    Whatever subscriptions an application opens and closes, in whatever
    order, a Router that holds at most the maximum of six handlers still
    holds at most six afterwards. *)
Theorem user_router_bounded (ops : list op) (w : WSUser) :
  (Z.of_nat (size (Router.handlers (router w))) ≤ maxCountSubscribes)%Z →
  (Z.of_nat (size (Router.handlers (router (after ops w)))) ≤ maxCountSubscribes)%Z.
Proof.
  revert w. induction ops as [|o ops IH]; intros w Hw; [exact Hw|].
  cbn [after foldl]. apply IH. destruct o as [sub|h]; cbn [step].
  - destruct (decide (is_Some (activeSubs w !! id sub)
                      ∨ (maxCountSubscribes ≤ Z.of_nat (size (Router.handlers (router w))))%Z))
      as [Hrej|Hacc].
    + by rewrite user_Subscribe_rejected.
    + assert (Hlt : (Z.of_nat (size (Router.handlers (router w))) < maxCountSubscribes)%Z).
      { apply Z.nle_gt. intros Hge. apply Hacc. by right. }
      rewrite user_Subscribe_accepted.
      * destruct w; cbn in *. rewrite map_size_insert.
        destruct (Router.handlers _ !! subAddr sub);
          unfold Datatypes.id, maxCountSubscribes in *; lia.
      * destruct (activeSubs w !! id sub) eqn:Hk; [|reflexivity].
        exfalso. apply Hacc. left. by eexists.
      * exact Hlt.
  - destruct (wrappers w !! h) as [s|] eqn:Hh.
    + destruct (wOnce s) eqn:Honce.
      * rewrite user_Unsubscribe_closed; [exact Hw|]. intros s' Hs'. congruence.
      * rewrite (user_Unsubscribe_open h s w Hh Honce). destruct w; cbn in *.
        rewrite map_size_delete.
        destruct (Router.handlers _ !! subAddr (inner s));
          unfold Datatypes.id, maxCountSubscribes in *; lia.
    + rewrite user_Unsubscribe_closed; [exact Hw|]. intros s' Hs'. congruence.
Qed.

Lemma user_router_bounded_witness :
  (Z.of_nat (size (Router.handlers
                     (router (after [OpSubscribe Examples.assetSub; OpUnsubscribe 0]
                                Examples.userClient))))
   ≤ maxCountSubscribes)%Z.
Proof.
  apply (user_router_bounded [OpSubscribe Examples.assetSub; OpUnsubscribe 0]
           Examples.userClient).
  vm_compute. discriminate.
Defined.

End UserSubscriptionLaws.

Section UserConsistency.
Import FuturesUser UserRuns.

Lemma step_consistent (o : op) (w : WSUser) : consistent w → consistent (step w o).
Proof.
  intros [Hact Hopen]. destruct o as [sub|h0]; cbn [step].
  - destruct (decide (is_Some (activeSubs w !! id sub)
                      ∨ (maxCountSubscribes ≤ Z.of_nat (size (Router.handlers (router w))))%Z))
      as [Hrej|Hacc].
    { rewrite user_Subscribe_rejected by exact Hrej. by split. }
    assert (Hfresh : activeSubs w !! id sub = None).
    { destruct (activeSubs w !! id sub) eqn:Hk; [|reflexivity].
      exfalso. apply Hacc. left. by eexists. }
    rewrite user_Subscribe_accepted;
      [|exact Hfresh | apply Z.nle_gt; intros Hge; apply Hacc; by right].
    destruct w as [cl ak sk nw od ol a wr pr rt so se]; cbn in *. split; cbn.
    + intros k h [[<- <-]|[Hne Hk]]%lookup_insert_Some.
      * exists {| inner := sub; wOnce := false |}. split; [|by split].
        rewrite lookup_app_r, Nat.sub_diag by lia. reflexivity.
      * destruct (Hact k h Hk) as (s & Hs & Ho & Hid).
        exists s. split; [by apply lookup_app_l_Some | by split].
    + intros h s [[Hlt Hs]|[-> <-]]%lookup_snoc_Some Ho.
      * rewrite lookup_insert_ne; [by apply Hopen|].
        intros Heq. pose proof (Hopen h s Hs Ho) as Hk. rewrite <- Heq in Hk. congruence.
      * cbn. apply lookup_insert_eq.
  - destruct (wrappers w !! h0) as [s0|] eqn:Hh0.
    2:{ rewrite user_Unsubscribe_closed; [by split|]. intros s' Hs'. congruence. }
    destruct (wOnce s0) eqn:Ho0.
    { rewrite user_Unsubscribe_closed; [by split|]. intros s' Hs'. congruence. }
    rewrite (user_Unsubscribe_open h0 s0 w Hh0 Ho0).
    destruct w as [cl ak sk nw od ol a wr pr rt so se]; cbn in *. split; cbn.
    + intros k h [Hne Hk]%lookup_delete_Some.
      destruct (Hact k h Hk) as (s & Hs & Ho & Hid).
      exists s. split; [|by split].
      rewrite list_lookup_alter_ne; [exact Hs|].
      intros ->. rewrite Hh0 in Hs. injection Hs as ->. by apply Hne.
    + intros h s Hs Ho.
      destruct (decide (h0 = h)) as [->|Hne].
      { rewrite list_lookup_alter_eq, Hh0 in Hs. injection Hs as <-. discriminate Ho. }
      rewrite list_lookup_alter_ne in Hs by exact Hne.
      rewrite lookup_delete_ne; [by apply Hopen|].
      intros Heq. pose proof (Hopen h s Hs Ho) as Hk. pose proof (Hopen h0 s0 Hh0 Ho0) as Hk0.
      rewrite Heq in Hk0. congruence.
Qed.

(** X18.  On the futures session the active keys are exactly the open
    handles.  Whatever subscriptions an application opens and closes, in
    whatever order, starting from a session where this holds (a new session,
    for one): every active key maps to a handle that has not been
    unsubscribed and that carries a spec with that key, and every handle
    that has not been unsubscribed is the one recorded under the key of its
    spec. *)
Theorem user_active_iff_open (ops : list op) (w : WSUser) :
  consistent w → consistent (after ops w).
Proof.
  revert w. induction ops as [|o ops IH]; intros w Hw; [exact Hw|].
  cbn [after foldl]. apply IH. by apply step_consistent.
Qed.

Lemma user_active_iff_open_witness :
  consistent (after [OpSubscribe Examples.assetSub; OpUnsubscribe 0; OpSubscribe Examples.assetSub]
                Examples.userClient).
Proof.
  apply (user_active_iff_open
           [OpSubscribe Examples.assetSub; OpUnsubscribe 0; OpSubscribe Examples.assetSub]
           Examples.userClient).
  split.
  - intros k h Hk. cbn in Hk. by rewrite lookup_empty in Hk.
  - intros h s Hs. cbn in Hs. by rewrite lookup_nil in Hs.
Defined.

End UserConsistency.

(** ** Connecting the futures user session *)

Section UserConnectLaws.
Import FuturesUser.
Variable jsonUnmarshal : string -> unmarshaled message.
Variable jsonUnmarshalString : string -> option string.

(** X19.  [Connect] of the futures session stands or falls with the login.
    Over a connection that dials and takes the write, on a session not yet
    closed, let the read loop hand one decoded frame to the pending login.
    If the frame is the [rs.login] reply whose payload is "success",
    [Connect] returns nil, the session stays open and the connection is not
    closed.  If the frame is an [rs.error], [Connect] returns a
    server-rejection error that quotes the payload, and before returning it
    has closed the session and, once, the connection.  Either way the login
    request went out and the pending-promise slot is empty again. *)
Theorem user_Connect_login_outcomes (cn : Ws.Conn) (data : string) (msg : message)
    (pick : nat) (w : WSUser) :
  Ws.connSetWriteDeadline cn = None →
  Ws.connWriteMessage cn = None →
  closeOnce w = false →
  Ws.closeOnce (client w) = false →
  jsonUnmarshal data = Decoded msg →
  let run := Connect jsonUnmarshal jsonUnmarshalString (inl cn) ctxLive [data] pick w in
  let sent :=
    ∃ login, Message (loginRequest jsonUnmarshalString (apiKey w) (secretKey w) (now w))
               = inl login ∧ EvConnWrite login ∈ trace run in
  (Channel msg = "rs.login" → jsonUnmarshalString (Data msg) = Some "success" →
   result run = Ret None ∧
   closeOnce (final run) = false ∧
   Closing.connCloses (trace run) = 0 ∧
   promise (final run) = None ∧ sent) ∧
  (Channel msg = "rs.error" →
   result run
     = Ret (Some (Sdkerr.WithMessage
                    (ErrorOf (fmtErrorf "auth failed: %s" [ArgStr (Data msg)]))
                    (errFactory "sendAndAwaitResponse" (Some Sdkerr.ErrWSServerError) None))) ∧
   closeOnce (final run) = true ∧
   Closing.connCloses (trace run) = 1 ∧
   promise (final run) = None ∧ sent).
Proof.
  intros Hd Hw Hso Hco Hu. cbn zeta.
  destruct w as [[cc lg u och cap co ce] ak sk nw od ol a wr pr rt so se]. cbn in Hso, Hco.
  subst so co.
  unfold Connect, withClient, Ws.Connect, login, sendAndAwaitResponse, withClient, withPromise,
    Ws.WriteMessage, Ws.errorf.
  mrun. rewrite Hd, Hw. mrun.
  unfold handleMessage. rewrite Hu. mrun.
  unfold Wsutil.Match. cbn [Wsutil.matchFn Wsutil.NewPromise].
  split.
  - intros Hlogin Hs. rewrite (bool_decide_eq_true_2 _ Hlogin), Hs.
    rewrite bool_decide_eq_true_2 by reflexivity.
    unfold withPromise, Wsutil.Resolve, Chan.send, Chan.full. mrun.
    unfold Wsutil.Await. mrun. destruct pick as [|[|pick]]; mrun.
    all: repeat split; eexists; split; [reflexivity | set_solver].
  - intros Herror.
    rewrite bool_decide_eq_false_2 by (rewrite Herror; discriminate).
    rewrite (bool_decide_eq_true_2 _ Herror).
    unfold withPromise, Wsutil.Reject, Chan.send, Chan.full. mrun.
    unfold Wsutil.Await. mrun. destruct pick as [|[|pick]]; mrun.
    all: unfold Close, withClient, Ws.Close, Ws.errorf; mrun.
    all: destruct (Ws.connClose cn); [destruct lg | destruct ce]; mrun.
    all: repeat split; eexists; split; [reflexivity | set_solver].
Qed.

End UserConnectLaws.

Lemma user_Connect_login_outcomes_witness :
  result (FuturesUser.Connect
            (λ data, if bool_decide (data = "{channel:rs.error}")
                     then Decoded {| FuturesUser.Channel := "rs.error"; FuturesUser.Data := "bad signature";
                                     FuturesUser.Symbol := ""; FuturesUser.Ts := 0 |}
                     else DecodeError)
            (λ _, None) (inl Examples.goodConn) ctxLive ["{channel:rs.error}"] 0
            Examples.userClient)
  = Ret (Some (Sdkerr.WithMessage
                 (ErrorOf (fmtErrorf "auth failed: %s" [ArgStr "bad signature"]))
                 (FuturesUser.errFactory "sendAndAwaitResponse" (Some Sdkerr.ErrWSServerError) None))).
Proof.
  apply (user_Connect_login_outcomes
           (λ data, if bool_decide (data = "{channel:rs.error}")
                    then Decoded {| FuturesUser.Channel := "rs.error"; FuturesUser.Data := "bad signature";
                                    FuturesUser.Symbol := ""; FuturesUser.Ts := 0 |}
                    else DecodeError)
           (λ _, None) Examples.goodConn "{channel:rs.error}"
           {| FuturesUser.Channel := "rs.error"; FuturesUser.Data := "bad signature"; FuturesUser.Symbol := ""; FuturesUser.Ts := 0 |}
           0 Examples.userClient); reflexivity.
Defined.

Section UserLoginLaws.
Import FuturesUser.
Variable jsonUnmarshal : string -> unmarshaled message.
Variable jsonUnmarshalString : string -> option string.

(** X20.  A login reply that does not say "success" is not a refusal.  On
    a connection that takes the write, when the only frame the read loop
    hands to the pending login is an [rs.login] reply whose payload fails to
    decode or decodes to something other than "success", the login promise
    is left unsettled and the frame is routed to the subscription handlers
    like any push.  The error the predicate built is dropped: when the
    context expires [login] returns the timeout error, not a server
    rejection, and while the context is live it does not return. *)
Theorem user_login_unrecognised_reply (cn : Ws.Conn) (data : string) (msg : message)
    (ctxErr : error) (pick : nat) (w : WSUser) :
  Ws.conn (client w) = Some cn →
  Ws.connSetWriteDeadline cn = None →
  Ws.connWriteMessage cn = None →
  jsonUnmarshal data = Decoded msg →
  Channel msg = "rs.login" →
  jsonUnmarshalString (Data msg) ≠ Some "success" →
  let expired := login jsonUnmarshal jsonUnmarshalString (ctxDone ctxErr) [data] pick w in
  let live := login jsonUnmarshal jsonUnmarshalString ctxLive [data] pick w in
  result expired
    = Ret (Some (Sdkerr.WithMessage (ErrorOf ctxErr)
                   (errFactory "sendAndAwaitResponse" (Some Sdkerr.ErrWSMessageTimeout) None))) ∧
  EvRoute data ∈ trace expired ∧
  promise (final expired) = None ∧
  result live = Block ∧
  EvRoute data ∈ trace live.
Proof.
  intros Hc Hd Hw Hu Hlogin Hs. cbn zeta.
  destruct w as [[cc lg u och cap co ce] ak sk nw od ol a wr pr rt so se]. cbn in Hc. subst cc.
  destruct (Router_Route_run (routerAccepts jsonUnmarshal) ReadLoop data rt)
    as (t & Ht & _ & Hin).
  unfold login, sendAndAwaitResponse, withClient, withPromise, withRouter,
    Ws.WriteMessage, Ws.errorf.
  mrun. rewrite Hd, Hw. mrun.
  unfold handleMessage. rewrite Hu. mrun.
  unfold Wsutil.Match. cbn [Wsutil.matchFn Wsutil.NewPromise].
  rewrite (bool_decide_eq_true_2 _ Hlogin).
  rewrite bool_decide_eq_false_2 by (rewrite Hlogin; discriminate).
  destruct (jsonUnmarshalString (Data msg)) as [s|] eqn:Hdec.
  - rewrite bool_decide_eq_false_2 by (intros ->; by apply Hs).
    unfold withRouter. mrun. rewrite Ht. mrun. unfold Wsutil.Await. mrun.
    destruct pick as [|[|pick]]; mrun; repeat split;
      repeat (apply elem_of_cons; right); repeat (apply elem_of_app; left); exact Hin.
  - unfold withRouter. mrun. rewrite Ht. mrun. unfold Wsutil.Await. mrun.
    destruct pick as [|[|pick]]; mrun; repeat split;
      repeat (apply elem_of_cons; right); repeat (apply elem_of_app; left); exact Hin.
Qed.

End UserLoginLaws.

Lemma user_login_unrecognised_reply_witness :
  result (FuturesUser.login
            (λ data, if bool_decide (data = "{channel:rs.login}")
                     then Decoded {| FuturesUser.Channel := "rs.login";
                                     FuturesUser.Data := "{}";
                                     FuturesUser.Symbol := ""; FuturesUser.Ts := 0 |}
                     else DecodeError)
            (λ _, None) (ctxDone DeadlineExceeded) ["{channel:rs.login}"] 0
            Examples.userClient)
  = Ret (Some (Sdkerr.WithMessage (ErrorOf DeadlineExceeded)
                 (FuturesUser.errFactory "sendAndAwaitResponse"
                    (Some Sdkerr.ErrWSMessageTimeout) None))).
Proof.
  refine (proj1 (user_login_unrecognised_reply
           (λ data, if bool_decide (data = "{channel:rs.login}")
                    then Decoded {| FuturesUser.Channel := "rs.login";
                                    FuturesUser.Data := "{}";
                                    FuturesUser.Symbol := ""; FuturesUser.Ts := 0 |}
                    else DecodeError)
           (λ _, None) Examples.goodConn "{channel:rs.login}"
           {| FuturesUser.Channel := "rs.login"; FuturesUser.Data := "{}";
              FuturesUser.Symbol := ""; FuturesUser.Ts := 0 |}
           DeadlineExceeded 0 Examples.userClient _ _ _ _ _ _)).
  - reflexivity.
  - reflexivity.
  - reflexivity.
  - reflexivity.
  - reflexivity.
  - discriminate.
Defined.

(** ** The pinger of the spot session *)

Section SpotPingerLaws.
Import SpotMarket.
Variable jsonUnmarshal : string -> unmarshaled message.
Variable protoUnmarshal : string -> option PushDataV3MarketWrapper.

(** X21.  A failed ping ends the pinger and closes the session.  On a
    connected session that is not closed and whose connection takes the
    write, one tick of the pinger goes as follows.  If the read loop hands
    over the JSON reply with the reserved id, code 0 and message "PONG", the
    tick succeeds: the pinger goes on, the latency callback runs if there is
    one, nothing is closed.  If the reply with the reserved id is anything
    else, or if no reply comes before the deadline, the tick fails: the
    latency callback does not run, the session is closed, the connection is
    closed exactly once, and the pinger stops. *)
Theorem pinger_tick_outcomes (cn : Ws.Conn) (data : string) (m : message)
    (ctxErr : error) (pick : nat) (w : WSMarket) :
  Ws.conn (client w) = Some cn →
  Ws.connSetWriteDeadline cn = None →
  Ws.connWriteMessage cn = None →
  closeOnce w = false →
  Ws.closeOnce (client w) = false →
  isJSONMessage data = true →
  jsonUnmarshal data = Decoded m →
  ID m = reservedPongID →
  let answered := pingerTick jsonUnmarshal protoUnmarshal ctxLive [data] pick w in
  let silent := pingerTick jsonUnmarshal protoUnmarshal (ctxDone ctxErr) [] pick w in
  (Code m = 0%Z → Msg m = "PONG" →
   result answered = Ret true ∧
   closeOnce (final answered) = false ∧
   Closing.connCloses (trace answered) = 0 ∧
   (EvOnLatency ∈ trace answered ↔ onLatency w = true)) ∧
  (¬ (Code m = 0%Z ∧ Msg m = "PONG") →
   result answered = Ret false ∧
   closeOnce (final answered) = true ∧
   Closing.connCloses (trace answered) = 1 ∧
   EvOnLatency ∉ trace answered) ∧
  result silent = Ret false ∧
  closeOnce (final silent) = true ∧
  Closing.connCloses (trace silent) = 1 ∧
  EvOnLatency ∉ trace silent.
Proof.
  intros Hc Hd Hw Hso Hco Hj Hu Hid. cbn zeta.
  destruct w as [[cc lg u och cap co ce] od ol a wr pm ct rt so se]. cbn in Hc, Hso, Hco.
  subst cc so co.
  assert (Hnotin : ∀ t, Forall (λ ev, ev ≠ EvOnLatency) t → EvOnLatency ∉ t).
  { intros t Hall Hin. eapply Forall_forall in Hall; [|exact Hin]. by apply Hall. }
  unfold pingerTick, sendPing, sendAndAwaitResponse, withClient, withPromise,
    Ws.WriteMessage, Ws.errorf.
  mrun. rewrite Hd, Hw. mrun.
  split; [|split].
  - intros Hcode Hmsg.
    unfold handleMessage, handleJSONMessage. rewrite Hj, Hu. mrun.
    rewrite Hid. unfold reservedPongID. read_back. unfold Wsutil.Match. cbn.
    rewrite !bool_decide_eq_true_2 by assumption. cbn.
    unfold withPromise, Wsutil.Resolve, Chan.send, Chan.full. mrun.
    read_back. unfold Wsutil.Await. mrun.
    destruct pick as [|[|pick]]; mrun; destruct ol; mrun; repeat split;
      try (intros _; set_solver); try discriminate;
      intros Hin; exfalso; revert Hin; apply Hnotin;
      repeat (apply Forall_cons; split; [discriminate|]); apply Forall_nil_2.
  - intros Hnot.
    unfold handleMessage, handleJSONMessage. rewrite Hj, Hu. mrun.
    rewrite Hid. unfold reservedPongID. read_back. unfold Wsutil.Match. cbn.
    assert (Hfalse : bool_decide (Code m = 0%Z) && bool_decide (Msg m = "PONG") = false).
    { apply andb_false_iff.
      destruct (decide (Code m = 0%Z)) as [Hcz|Hcz];
        [right | left; by apply bool_decide_eq_false_2].
      apply bool_decide_eq_false_2. intros Hm. by apply Hnot. }
    rewrite Hfalse.
    unfold withPromise, Wsutil.Reject, Chan.send, Chan.full. mrun.
    read_back. unfold Wsutil.Await. mrun.
    destruct pick as [|[|pick]]; mrun.
    all: unfold Close, withClient, Ws.Close, Ws.errorf; mrun.
    all: destruct (Ws.connClose cn); [destruct lg | destruct ce]; mrun.
    all: repeat split; apply Hnotin;
      repeat (apply Forall_cons; split; [discriminate|]); apply Forall_nil_2.
  - unfold reservedPongID. read_back. unfold Wsutil.Await. mrun.
    destruct pick as [|[|pick]]; mrun.
    all: unfold Close, withClient, Ws.Close, Ws.errorf; mrun.
    all: destruct (Ws.connClose cn); [destruct lg | destruct ce]; mrun.
    all: repeat split; apply Hnotin;
      repeat (apply Forall_cons; split; [discriminate|]); apply Forall_nil_2.
Qed.

End SpotPingerLaws.

Lemma pinger_tick_outcomes_witness :
  result (SpotMarket.pingerTick Examples.decodePong Examples.noProto ctxLive
            [Examples.pongFrame] 0 (Examples.connected Examples.goodConn))
  = Ret true.
Proof.
  refine (proj1 (proj1 (pinger_tick_outcomes Examples.decodePong Examples.noProto
                          Examples.goodConn Examples.pongFrame Examples.pong DeadlineExceeded 0
                          (Examples.connected Examples.goodConn) _ _ _ _ _ _ _ _) _ _)).
  all: reflexivity.
Defined.

(** ** Where a frame of the spot session goes *)

Section SpotDispatchLaws.
Import SpotMarket.
Variable jsonUnmarshal : string -> unmarshaled message.
Variable protoUnmarshal : string -> option PushDataV3MarketWrapper.

Lemma Route_shape {H} (accepts : H → string → bool) g data (r : Router.handlerRouterImp H) :
  ∃ t, Router.Route accepts g data r = (Ret tt, r, t) ∧
       Forall (λ ev, ev = EvLock g routerMu ∨ ev = EvUnlock g routerMu ∨
                     ev = EvRoute data ∨ ∃ a, ev = EvHandleEvent a data) t.
Proof.
  unfold Router.Route. munfold.
  destruct (dispatch_run accepts (map_to_list (Router.handlers r)) data r)
    as (t & Ht & _ & Hall).
  cbn. rewrite Ht. eexists. split; [reflexivity|].
  apply Forall_cons; split; [by left|].
  apply Forall_cons; split; [by right; right; left|].
  apply Forall_app; split.
  - eapply Forall_impl; [exact Hall|]. cbn. intros ev Hev. by right; right; right.
  - apply Forall_cons; split; [by right; left | apply Forall_nil_2].
Qed.

(** X22.  A frame of the spot session goes one way only.  A frame that
    looks like JSON is handled under the lock of the pending promises and
    nowhere else: it is never routed to a subscription handler, and it
    changes nothing of the session but the pending promises.  Any other
    frame is never offered to a promise: handling it returns, leaves the
    whole session as it was, and does nothing but route the frame under the
    Router's lock. *)
Theorem spot_frame_goes_one_way (data : string) (w : WSMarket) :
  let run := handleMessage jsonUnmarshal protoUnmarshal data w in
  if isJSONMessage data
  then sameButPromises w (final run) ∧
       Forall (λ ev, ev = EvLock ReadLoop promisesMu ∨ ev = EvUnlock ReadLoop promisesMu)
         (trace run)
  else result run = Ret tt ∧
       final run = w ∧
       Forall (λ ev, ev = EvLock ReadLoop routerMu ∨ ev = EvUnlock ReadLoop routerMu ∨
                     ev = EvRoute data ∨ ∃ a, ev = EvHandleEvent a data) (trace run).
Proof.
  cbn zeta. unfold handleMessage, handleProtoMessage, handleJSONMessage.
  destruct (isJSONMessage data).
  - destruct (jsonUnmarshal data) as [| |msg]; mrun.
    + split; [apply sameButPromises_refl | apply Forall_nil_2].
    + split; [apply sameButPromises_refl|].
      apply Forall_cons; split; [by left|].
      apply Forall_cons; split; [by right | apply Forall_nil_2].
    + destruct (promisesMap w !! ID msg) as [p|]; cbn.
      * destruct (fst (Wsutil.Match p msg)).
        -- destruct (settle_run (ID msg) p (Wsutil.CallResolve msg) w)
             as (r & w' & Hr & Hres & Hs).
           cbn [Wsutil.doCall] in Hr. rewrite Hr.
           destruct Hres as [-> | ->]; cbn; (split; [exact Hs|]);
             repeat (apply Forall_cons; split; [first [by left | by right]|]);
             apply Forall_nil_2.
        -- destruct (settle_run (ID msg) p
                       (Wsutil.CallReject
                          (fmtErrorf "code=%d, msg=%q" [ArgInt (Code msg); ArgStr (Msg msg)])) w)
             as (r & w' & Hr & Hres & Hs).
           cbn [Wsutil.doCall] in Hr. rewrite Hr.
           destruct Hres as [-> | ->]; cbn; (split; [exact Hs|]);
             repeat (apply Forall_cons; split; [first [by left | by right]|]);
             apply Forall_nil_2.
      * split; [apply sameButPromises_refl|].
        apply Forall_cons; split; [by left|].
        apply Forall_cons; split; [by right | apply Forall_nil_2].
  - destruct (protoUnmarshal data).
    + destruct (Route_shape (routerAccepts protoUnmarshal) ReadLoop data (router w))
        as (t & Ht & Hall).
      unfold withRouter, zoom. rewrite Ht. cbn.
      split; [reflexivity|]. split; [by destruct w, router0 | exact Hall].
    + cbn. repeat split. apply Forall_nil_2.
Qed.

End SpotDispatchLaws.

(** ** Requests and pings of the futures user session *)

Section UserRequestLaws.
Import FuturesUser.
Variable jsonUnmarshal : string -> unmarshaled message.

(** X23.  A request of the futures session empties the slot it filled.
    Whenever [sendAndAwaitResponse] comes back, with nil, with an error of
    any kind or with a panic, the slot of the pending promise is nil
    again. *)
Theorem user_request_leaves_no_promise g ctx req frames pick (w : WSUser) :
  let run := sendAndAwaitResponse jsonUnmarshal g ctx req frames pick w in
  result run ≠ Block →
  promise (final run) = None.
Proof.
  cbn zeta.
  unfold sendAndAwaitResponse, withClient, withPromise, Ws.WriteMessage, Ws.errorf.
  destruct w as [[cc lg u och cap co ce] ak sk nw od ol a wr pr rt so se].
  mrun. destruct (Message req) as [msg|e]; mrun; [|reflexivity].
  destruct cc as [cn|]; mrun; [|reflexivity].
  destruct (Ws.connSetWriteDeadline cn) as [e|]; mrun.
  { destruct lg; mrun; reflexivity. }
  destruct (Ws.connWriteMessage cn) as [e|]; mrun.
  { destruct lg; mrun; reflexivity. }
  match goal with
  | |- context [handleMessages _ frames ?w1] =>
      destruct (futures_handleMessages_run jsonUnmarshal frames w1) as (r & w2 & t & Hf & Hn)
  end.
  rewrite Hf.
  destruct r; mrun; [|reflexivity | intros Hb; by destruct Hb].
  match goal with
  | |- context [Wsutil.Await ctx pick ?p] =>
      destruct (Await_run ctx pick p) as [HA | (ra & p' & HA & Hin)]; rewrite HA
  end; mrun.
  { intros Hb. by destruct Hb. }
  apply awaitCases_inv in Hin as [(m & -> & _) | [(e & -> & _) | (e & -> & Hctx)]]; mrun;
    reflexivity.
Qed.

End UserRequestLaws.

Lemma user_request_leaves_no_promise_witness :
  FuturesUser.promise
    (final (FuturesUser.sendAndAwaitResponse Examples.decodeAsset Pinger
              (ctxDone DeadlineExceeded) FuturesUser.pingRequest [Examples.assetFrame] 0
              Examples.awaitingPong))
  = None.
Proof.
  apply (user_request_leaves_no_promise Examples.decodeAsset Pinger (ctxDone DeadlineExceeded)
           FuturesUser.pingRequest [Examples.assetFrame] 0 Examples.awaitingPong).
  vm_compute. discriminate.
Defined.

(** An event that stands in a trace given explicitly. *)
Ltac found :=
  solve [ repeat first [ apply elem_of_cons; left; reflexivity | apply elem_of_cons; right ] ].

(** An event that does not stand in a trace given explicitly. *)
Ltac absent :=
  let Hin := fresh "Hin" in
  intros Hin; repeat (apply elem_of_cons in Hin as [Hin|Hin]; [discriminate Hin|]);
  by apply elem_of_nil in Hin.

Section UserPingLaws.
Import FuturesUser.
Variable jsonUnmarshal : string -> unmarshaled message.

(** X24.  What a ping of the futures session makes of the reply.  On a
    connection that takes the write, when the read loop hands one decoded
    frame to the pending ping: a [pong] frame makes [sendPing] return nil
    after running the latency callback if there is one; an [rs.error] frame
    makes it return a server-rejection error that quotes the payload,
    without running the callback.  In both cases the ping was written, the
    frame was not routed to the subscription handlers, the session is
    otherwise unchanged, and the lock of the active-subscription map, taken
    first, is released last. *)
Theorem user_ping_outcomes (cn : Ws.Conn) (data : string) (msg : message)
    (pick : nat) (w : WSUser) :
  Ws.conn (client w) = Some cn →
  Ws.connSetWriteDeadline cn = None →
  Ws.connWriteMessage cn = None →
  jsonUnmarshal data = Decoded msg →
  let run := sendPing jsonUnmarshal ctxLive [data] pick w in
  let common :=
    final run = setPromise None w ∧
    EvConnWrite (JObj [("method", JStr "ping")]) ∈ trace run ∧
    (EvRoute data ∉ trace run) ∧
    head (trace run) = Some (EvLock Pinger activeSubsMu) ∧
    last (trace run) = Some (EvUnlock Pinger activeSubsMu) in
  (Channel msg = "pong" →
   result run = Ret None ∧
   (EvOnLatency ∈ trace run ↔ onLatency w = true) ∧ common) ∧
  (Channel msg = "rs.error" →
   result run
     = Ret (Some (Sdkerr.WithMessage
                    (ErrorOf (fmtErrorf "ping failed: %s" [ArgStr (Data msg)]))
                    (errFactory "sendAndAwaitResponse" (Some Sdkerr.ErrWSServerError) None))) ∧
   (EvOnLatency ∉ trace run) ∧ common).
Proof.
  intros Hc Hd Hw Hu. cbn zeta.
  destruct w as [[cc lg u och cap co ce] ak sk nw od ol a wr pr rt so se]. cbn in Hc. subst cc.
  unfold sendPing, sendAndAwaitResponse, withClient, withPromise, Ws.WriteMessage, Ws.errorf.
  mrun. rewrite Hd, Hw. mrun.
  unfold handleMessage. rewrite Hu. mrun.
  unfold Wsutil.Match. cbn [Wsutil.matchFn Wsutil.NewPromise].
  split.
  - intros Hpong. rewrite (bool_decide_eq_true_2 _ Hpong).
    unfold withPromise, Wsutil.Resolve, Chan.send, Chan.full. mrun.
    unfold Wsutil.Await. mrun.
    destruct pick as [|[|pick]]; mrun; destruct ol; mrun; repeat split;
      first [ found | absent | discriminate | intros _; found
            | let Hin := fresh in intros Hin; exfalso; revert Hin; absent ].
  - intros Herror.
    rewrite bool_decide_eq_false_2 by (rewrite Herror; discriminate).
    rewrite (bool_decide_eq_true_2 _ Herror).
    unfold withPromise, Wsutil.Reject, Chan.send, Chan.full. mrun.
    unfold Wsutil.Await. mrun.
    destruct pick as [|[|pick]]; mrun; repeat split; first [ found | absent ].
Qed.

End UserPingLaws.

Lemma user_ping_outcomes_witness :
  result (FuturesUser.sendPing
            (λ data, if bool_decide (data = "{channel:pong}")
                     then Decoded {| FuturesUser.Channel := "pong"; FuturesUser.Data := "";
                                     FuturesUser.Symbol := ""; FuturesUser.Ts := 0 |}
                     else DecodeError)
            ctxLive ["{channel:pong}"] 0 Examples.userClient)
  = Ret None.
Proof.
  refine (proj1 (proj1 (user_ping_outcomes
           (λ data, if bool_decide (data = "{channel:pong}")
                    then Decoded {| FuturesUser.Channel := "pong"; FuturesUser.Data := "";
                                    FuturesUser.Symbol := ""; FuturesUser.Ts := 0 |}
                    else DecodeError)
           Examples.goodConn "{channel:pong}"
           {| FuturesUser.Channel := "pong"; FuturesUser.Data := "";
              FuturesUser.Symbol := ""; FuturesUser.Ts := 0 |}
           0 Examples.userClient _ _ _ _) _)).
  all: reflexivity.
Defined.

(** ** Pushes of the futures user session *)

Section UserDeliveryLaws.
Import FuturesUser.
Variable jsonUnmarshal : string -> unmarshaled message.

Lemma Route_handled {H} (accepts : H → string → bool) g data (r : Router.handlerRouterImp H) a :
  a ∈ handled (trace (Router.Route accepts g data r)) ↔
  ∃ h, Router.handlers r !! a = Some h ∧ accepts h data = true.
Proof.
  unfold Router.Route. munfold.
  destruct (dispatch_run accepts (map_to_list (Router.handlers r)) data r)
    as (t & Ht & Hh & _).
  cbn. rewrite Ht. cbn. rewrite handled_app, app_nil_r, Hh, list_elem_of_fmap. split.
  - intros ([a' h] & -> & Hin). apply list_elem_of_filter in Hin as [Hacc Hin].
    apply elem_of_map_to_list in Hin. eauto.
  - intros (h & Hl & Hacc). exists (a, h). split; [reflexivity|].
    apply list_elem_of_filter. split; [exact Hacc|]. by apply elem_of_map_to_list.
Qed.

Lemma user_handleMessage_handled data msg (w : WSUser) a :
  jsonUnmarshal data = Decoded msg →
  promise w = None →
  a ∈ handled (trace (handleMessage jsonUnmarshal data w)) ↔
  ∃ h, Router.handlers (router w) !! a = Some h ∧ acceptEvent h msg = true.
Proof.
  intros Hu Hp. unfold handleMessage, withRouter. rewrite Hu. mrun. rewrite Hp. mrun.
  pose proof (Route_handled (routerAccepts jsonUnmarshal) ReadLoop data (router w) a) as Hr.
  unfold routerAccepts in Hr at 2. rewrite Hu in Hr. rewrite <- Hr.
  destruct (Router.Route _ _ _ (router w)) as [[[[]| |] r'] t]; cbn;
    by rewrite ?handled_app, ?app_nil_r.
Qed.

(** X25.  A push reaches a handler exactly while it is subscribed.  On a
    futures session with no request pending, take a spec whose key is not
    active and whose handler is not in the Router, the Router being below
    its maximum, and a decoded frame the spec accepts.  Before [Subscribe]
    the read loop does not hand the frame to the spec's handler; after
    [Subscribe] it does; after [Unsubscribe] on the handle it no longer
    does. *)
Theorem user_push_reaches_subscribed (sub : Subscription) (data : string) (msg : message)
    (w : WSUser) :
  activeSubs w !! id sub = None →
  Router.handlers (router w) !! subAddr sub = None →
  (Z.of_nat (size (Router.handlers (router w))) < maxCountSubscribes)%Z →
  promise w = None →
  jsonUnmarshal data = Decoded msg →
  acceptEvent sub msg = true →
  let w1 := final (Subscribe (Some sub) w) in
  let w2 := final (Unsubscribe (length (wrappers w)) w1) in
  (subAddr sub ∉ handled (trace (handleMessage jsonUnmarshal data w))) ∧
  subAddr sub ∈ handled (trace (handleMessage jsonUnmarshal data w1)) ∧
  subAddr sub ∉ handled (trace (handleMessage jsonUnmarshal data w2)).
Proof.
  intros Hfresh Haddr Hroom Hp Hu Hacc. cbn zeta.
  rewrite (user_Subscribe_accepted sub w Hfresh Hroom). cbn [final fst snd].
  set (w1 := setRouter _ _).
  assert (Hh : wrappers w1 !! length (wrappers w) = Some {| inner := sub; wOnce := false |}).
  { unfold w1. destruct w; cbn. rewrite lookup_app_r, Nat.sub_diag by lia. reflexivity. }
  rewrite (user_Unsubscribe_open _ _ w1 Hh eq_refl). cbn [final fst snd inner].
  split; [|split].
  - rewrite (user_handleMessage_handled data msg w _ Hu Hp).
    intros (h & Hl & _). congruence.
  - rewrite (user_handleMessage_handled data msg w1 _ Hu); [|by destruct w].
    exists sub. split; [|exact Hacc]. unfold w1. destruct w; cbn. apply lookup_insert_eq.
  - rewrite (user_handleMessage_handled data msg _ _ Hu); [|by destruct w].
    intros (h & Hl & _). unfold w1 in Hl. destruct w; cbn in Hl.
    by rewrite lookup_delete_eq in Hl.
Qed.

End UserDeliveryLaws.

Lemma user_push_reaches_subscribed_witness :
  FuturesUser.subAddr Examples.assetSub
    ∈ handled (trace (FuturesUser.handleMessage Examples.decodeAsset Examples.assetFrame
                        (final (FuturesUser.Subscribe (Some Examples.assetSub)
                                  Examples.userClient)))).
Proof.
  refine (proj1 (proj2 (user_push_reaches_subscribed Examples.decodeAsset Examples.assetSub
                          Examples.assetFrame Examples.assetPush Examples.userClient
                          _ _ _ _ _ _))).
  all: reflexivity.
Defined.
